(** * Movie bot: filename normaliser and upload / delete sessions

    A shallow embedding of [src/bot.py]:
    - [clean_filename], the regex pipeline that turns an uploaded file
      name into a title;
    - the upload session handlers ([add_movie], [name_decision_handler],
      [text_handler], [check_and_save_movie]);
    - the admin listing and delete-by-number handlers ([list_movies],
      [delete_by_number]).

    Python strings are sequences of Unicode code points, so a string is a
    [list N].  The regular expressions of the source are str patterns:
    [\w], [\s] and [\d] follow the Unicode database outside ASCII.  That
    table is not part of the repository; it is a parameter ([UnicodeDB]),
    and the ASCII range is written out. *)

From Stdlib Require Import NArith ZArith List String Ascii Bool Lia.
From stdpp Require Import base option list gmap sorting.

Open Scope N_scope.

(** ** Strings *)

Abbreviation str := (list N).

(** An ASCII literal as a Python string. *)
Definition lit (s : string) : str :=
  List.map N_of_ascii (list_ascii_of_string s).

(** The part of the Unicode character database the interpreter consults
    for code points above 0x7F. *)
Record UnicodeDB := {
  uni_alnum : N -> bool;          (* str.isalnum, hence \w *)
  uni_space : N -> bool;          (* str.isspace, hence \s and strip() *)
  uni_decimal : N -> option N;    (* Numeric_Type=Decimal and its value: \d, int() *)
  uni_digit : N -> bool           (* Numeric_Type=Digit: isdigit() without a decimal value *)
}.

(** An excerpt of the table, enough to evaluate the examples below:
    U+00E9 (e with acute) is a letter, U+00A0 (no-break space) is white
    space, U+0660..U+0669 are the Arabic-Indic decimal digits and
    U+00B2, U+00B3, U+00B9 are the superscript digits. *)
Definition unicode_excerpt : UnicodeDB := {|
  uni_alnum c := (c =? 233) || ((1632 <=? c) && (c <=? 1641))
                 || (c =? 178) || (c =? 179) || (c =? 185);
  uni_space c := (c =? 160);
  uni_decimal c := if (1632 <=? c) && (c <=? 1641) then Some (c - 1632) else None;
  uni_digit c := (c =? 178) || (c =? 179) || (c =? 185)
|}.

Definition is_ascii (c : N) : bool := c <=? 127.

Definition ascii_digit (c : N) : bool := (48 <=? c) && (c <=? 57).
Definition ascii_upper (c : N) : bool := (65 <=? c) && (c <=? 90).
Definition ascii_lower (c : N) : bool := (97 <=? c) && (c <=? 122).
Definition ascii_alnum (c : N) : bool :=
  ascii_digit c || ascii_upper c || ascii_lower c.
(* \t \n \v \f \r, the separators 0x1C..0x1F and the space *)
Definition ascii_space (c : N) : bool :=
  ((9 <=? c) && (c <=? 13)) || ((28 <=? c) && (c <=? 32)).

(** IGNORECASE on a literal letter: the subjects it is used on are ASCII
    by then (see [sub_non_ascii]), where it folds A-Z onto a-z. *)
Definition lower (c : N) : N := if ascii_upper c then c + 32 else c.
Definition ieq (a c : N) : bool := lower a =? lower c.

Section Normalizer.
Context (db : UnicodeDB).

(** *** Character classes *)

Definition isalnum (c : N) : bool :=
  if is_ascii c then ascii_alnum c else uni_alnum db c.
Definition isspace (c : N) : bool :=
  if is_ascii c then ascii_space c else uni_space db c.
Definition isdecimal (c : N) : bool :=
  if is_ascii c then ascii_digit c else bool_decide (is_Some (uni_decimal db c)).

Definition re_w (c : N) : bool := isalnum c || (c =? 95).   (* \w *)
Definition re_W (c : N) : bool := negb (re_w c).            (* \W *)
Definition re_s (c : N) : bool := isspace c.                (* \s *)
Definition re_d (c : N) : bool := isdecimal c.              (* \d *)

(** *** re.sub

    [re_sub m repl s] is [re.sub(pattern, repl, s)] for a pattern that
    never matches the empty string: [m t] is the length the pattern
    matches at the start of the suffix [t], if it matches there.  The
    scan goes left to right; after a match it resumes behind it. *)
Fixpoint re_sub_from (m : str -> option nat) (repl : str) (skip : nat) (s : str) : str :=
  match s with
  | [] => []
  | c :: r =>
      match skip with
      | S k => re_sub_from m repl k r
      | O =>
          match m s with
          | Some (S n) => repl ++ re_sub_from m repl n r
          | _ => c :: re_sub_from m repl 0 r
          end
      end
  end.

Definition re_sub (m : str -> option nat) (repl : str) (s : str) : str :=
  re_sub_from m repl 0 s.

(** Length of the longest prefix inside a class: a greedy [[...]*]. *)
Fixpoint class_run (p : N -> bool) (s : str) : nat :=
  match s with
  | c :: r => if p c then S (class_run p r) else O
  | [] => O
  end.

(** A greedy [[...]+]. *)
Definition m_plus (p : N -> bool) (s : str) : option nat :=
  match class_run p s with O => None | n => Some n end.

(** str.lstrip / rstrip / strip over a set of characters. *)
Fixpoint lstrip (p : N -> bool) (s : str) : str :=
  match s with
  | c :: r => if p c then lstrip p r else s
  | [] => []
  end.

Fixpoint rstrip (p : N -> bool) (s : str) : str :=
  match s with
  | [] => []
  | c :: r =>
      match rstrip p r with
      | [] => if p c then [] else [c]
      | r' => c :: r'
      end
  end.

Definition strip (p : N -> bool) (s : str) : str := rstrip p (lstrip p s).

(** [.strip()]: white space. *)
Definition strip_ws : str -> str := strip isspace.

(** [.strip(" -._")] *)
Definition is_sep (c : N) : bool :=
  (c =? 32) || (c =? 45) || (c =? 46) || (c =? 95).
Definition strip_sep : str -> str := strip is_sep.

(** *** Step 1: [re.sub(r'\[.*?\]', '', filename)]

    After a '[', the lazy [.*?] stops at the first ']'; [.] does not
    match a newline, so a newline before that ']' makes the attempt
    fail. *)
Fixpoint bracket_body (s : str) : option nat :=
  match s with
  | [] => None
  | c :: r =>
      if c =? 93 then Some 1%nat
      else if c =? 10 then None
      else option_map S (bracket_body r)
  end.

Definition m_bracket (s : str) : option nat :=
  match s with
  | c :: r => if c =? 91 then option_map S (bracket_body r) else None
  | [] => None
  end.

Definition sub_brackets (s : str) : str := re_sub m_bracket [] s.

(** *** Step 2: [re.sub(r'^[@\W_]+', '', filename)]

    Without MULTILINE the anchor holds at position 0 only, so the one
    possible match is the leading run. *)
Definition is_prefix_junk (c : N) : bool :=
  (c =? 64) || re_W c || (c =? 95).

Definition sub_prefix (s : str) : str := lstrip is_prefix_junk s.

(** *** Step 3: [re.sub(r'[^\x00-\x7F]+', '', filename)] *)
Definition m_non_ascii : str -> option nat :=
  m_plus (fun c => negb (is_ascii c)).

Definition sub_non_ascii (s : str) : str := re_sub m_non_ascii [] s.

(** *** Step 4: [re.sub(r'[_\s]+', ' ', filename).strip()] *)
Definition is_us_ws (c : N) : bool := (c =? 95) || re_s c.

Definition sub_underscores (s : str) : str :=
  strip_ws (re_sub (m_plus is_us_ws) [32] s).

(** *** Step 5: the tag denylist

    [(?i)(HDRip|10bit|...|v\d+)(\W|$)].  An alternative is a literal,
    possibly followed by a greedy run of digits ([AAC\d*], [v\d+]). *)
Inductive tag :=
| Lit (text : str)
| LitDigits (text : str) (least : nat).

Definition tag_text (t : tag) : str :=
  match t with Lit x => x | LitDigits x _ => x end.

Definition tags : list tag :=
  [ Lit (lit "HDRip"); Lit (lit "10bit"); Lit (lit "x264");
    LitDigits (lit "AAC") 0; Lit (lit "MB"); Lit (lit "AMZN");
    Lit (lit "WEB-DL"); Lit (lit "WEBRip"); Lit (lit "HEVC");
    Lit (lit "x265"); Lit (lit "ESub"); Lit (lit "HQ");
    Lit (lit ".mkv"); Lit (lit ".mp4"); Lit (lit ".avi"); Lit (lit ".mov");
    Lit (lit "BluRay"); Lit (lit "DVDRip"); Lit (lit "720p");
    Lit (lit "1080p"); Lit (lit "540p"); Lit (lit "SD"); Lit (lit "HD");
    Lit (lit "CAM"); Lit (lit "DVDScr"); Lit (lit "R5"); Lit (lit "TS");
    Lit (lit "Rip"); Lit (lit "BRRip"); Lit (lit "AC3");
    Lit (lit "DualAudio"); Lit (lit "6CH"); LitDigits (lit "v") 1 ].

(** A literal under IGNORECASE at the start of [s]: what is left of [s]. *)
Fixpoint imatch (p s : str) : option str :=
  match p with
  | [] => Some s
  | a :: p' =>
      match s with
      | c :: s' => if ieq a c then imatch p' s' else None
      | [] => None
      end
  end.

(** [$] without MULTILINE: at the end, or before a final newline. *)
Definition at_dollar (s : str) : bool :=
  match s with
  | [] => true
  | [c] => c =? 10
  | _ => false
  end.

(** [(\W|$)]: the number of characters it takes, if it matches. *)
Definition m_tag_end (s : str) : option nat :=
  match s with
  | c :: _ => if re_W c then Some 1%nat
              else if at_dollar s then Some 0%nat else None
  | [] => Some 0%nat
  end.

(** The digit run of [LitDigits], greedy with backtracking: the longest
    run is tried first, then shorter ones down to [least]. *)
Fixpoint m_digits_then_end (least k : nat) (s : str) : option nat :=
  match m_tag_end (drop k s) with
  | Some e => Some (k + e)%nat
  | None =>
      match k with
      | S k' => if decide (least <= k')%nat
                then m_digits_then_end least k' s else None
      | O => None
      end
  end.

Definition m_one_tag (t : tag) (s : str) : option nat :=
  match imatch (tag_text t) s with
  | None => None
  | Some rest =>
      match t with
      | Lit x => option_map (Nat.add (length x)) (m_tag_end rest)
      | LitDigits x least =>
          if decide (least <= class_run re_d rest)%nat
          then option_map (Nat.add (length x))
                 (m_digits_then_end least (class_run re_d rest) rest)
          else None
      end
  end.

(** The alternation: the first alternative that lets the whole pattern
    match wins. *)
Fixpoint m_alt (ts : list tag) (s : str) : option nat :=
  match ts with
  | [] => None
  | t :: ts' =>
      match m_one_tag t s with
      | Some n => Some n
      | None => m_alt ts' s
      end
  end.

Definition m_tag (s : str) : option nat := m_alt tags s.

Definition sub_tags (s : str) : str := strip_ws (re_sub m_tag [32] s).

(** *** Step 6: title, year, language

    [re.search(r'^(.*?)[\s_]*\(?(\d{4})\)?[\s_]*(Malayalam|Tamil|Hindi|Telugu|English)?',
               filename, re.IGNORECASE)] *)
Definition languages : list str :=
  [ lit "Malayalam"; lit "Tamil"; lit "Hindi"; lit "Telugu"; lit "English" ].

(** [(\d{4})]: the four digits and what follows them. *)
Definition four_digits (s : str) : option (str * str) :=
  match s with
  | a :: b :: c :: d :: r =>
      if re_d a && re_d b && re_d c && re_d d then Some ([a; b; c; d], r) else None
  | _ => None
  end.

(** The optional third group: the first language that matches, with
    the subject's own letters (group 3 is None when none does). *)
Fixpoint m_language (ls : list str) (s : str) : option str :=
  match ls with
  | [] => None
  | l :: ls' =>
      match imatch l s with
      | Some _ => Some (take (length l) s)
      | None => m_language ls' s
      end
  end.

(** [[\s_]*\(?(\d{4})\)?[\s_]*(...)?] at the start of [s].  The run
    [[\s_]*] is greedy; giving characters back never helps, since what
    follows ([\(?\d]) matches no character of the run.  After the
    digits every item is optional, so the greedy choices stand. *)
Definition m_year (s : str) : option (str * option str) :=
  let s1 := lstrip is_us_ws s in
  let with_paren :=
    match s1 with
    | c :: r => if c =? 40 then four_digits r else None
    | [] => None
    end in
  let digits :=
    match with_paren with
    | Some x => Some x
    | None => four_digits s1
    end in
  match digits with
  | None => None
  | Some (y, r) =>
      let r1 := match r with
                | c :: r' => if c =? 41 then r' else r
                | [] => r
                end in
      Some (y, m_language languages (lstrip is_us_ws r1))
  end.

(** [^(.*?)...]: the shortest title after which the rest matches; the
    title cannot run over a newline. *)
Fixpoint search_title (s : str) : option (str * str * option str) :=
  match m_year s with
  | Some (y, l) => Some ([], y, l)
  | None =>
      match s with
      | [] => None
      | c :: r =>
          if c =? 10 then None
          else match search_title r with
               | Some (t, y, l) => Some (c :: t, y, l)
               | None => None
               end
      end
  end.

(** [re.sub(r'\s+', ' ', cleaned_name)] *)
Definition collapse_ws (s : str) : str := re_sub (m_plus re_s) [32] s.

Definition format_name (t y : str) (l : option str) : str :=
  let name := strip_sep t in
  let year := strip_ws y in
  let language := match l with Some x => strip_ws x | None => [] end in
  collapse_ws (strip_ws (name ++ lit " (" ++ year ++ lit ") " ++ language)).

(** Steps 1 to 4, and 1 to 5. *)
Definition step4 (filename : str) : str :=
  sub_underscores (sub_non_ascii (sub_prefix (sub_brackets filename))).

Definition step5 (filename : str) : str := sub_tags (step4 filename).

Definition clean_filename (filename : str) : str :=
  let filename := step5 filename in
  match search_title filename with
  | Some (t, y, l) => format_name t y l
  | None => strip_sep filename
  end.

End Normalizer.

(** ** Sessions and the store *)

Open Scope Z_scope.

(** An entry of [session['files']] and of [media.documents]. *)
Record FileEntry := { file_id : str; file_name : str }.

(** [session['image']] and [media.image]. *)
Record Image := { image_file_id : str; width : Z; height : Z }.

(** A value of [upload_sessions]: the dict the source builds in
    [add_movie]. *)
Record UploadSession := {
  files : list FileEntry;
  image : option Image;
  movie_name : option str;
  awaiting_name_edit : bool
}.

(** A document of the Movies collection.  [movie_id] is the uuid4 token,
    [oid] the [_id] the database assigns on insert. *)
Record MovieRecord := {
  movie_id : nat;
  name : str;
  documents : list FileEntry;
  movie_image : option Image;
  oid : nat
}.

(** A value of [delete_sessions]: [list_movies] stores "page" and
    "movies"; [delete_by_number] adds "selected". *)
Record DeleteSession := {
  page : Z;
  movies : list MovieRecord;
  selected : option MovieRecord
}.

(** What a handler hands to the transport. *)
Inductive Notice :=
| CallbackAnswered
| SessionExpired
| SendNewName
| NameConfirmed (shown : option str)
| NameUpdated (new_name : str)
| DetectedName (cleaned : str)          (* with the Edit / Continue buttons *)
| FileReceived (cleaned : str)
| ImageReceived
| MovieAdded (shown : str)
| FailedToAdd
| Preview (id : nat) (shown : str) (photo : option str)
| ValidNumberPlease
| InvalidNumber
| ConfirmDelete (m : MovieRecord) (on_page : Z)   (* Cancel / Confirm buttons *)
(* the total and the numbered names, or None for an empty page; the
   pages Previous and Next lead to *)
| Listing (body : option (Z * list (Z * str))) (previous next : option Z).

Inductive exn :=
| AttributeError      (* attribute of None *)
| TypeError           (* re.sub on None *)
| ValueError          (* int() of a non-literal *)
| NetworkError        (* transport *)
| PyMongoError.       (* storage *)

(** The process state: the two session maps, the collection, the
    transport log, and what the outside world will answer.  [db_faults]
    and [tx_faults] give the outcome of the coming storage and transport
    calls in order ([false]: the call raises); past their end every call
    succeeds. *)
Record World := {
  upload_sessions : gmap Z UploadSession;
  delete_sessions : gmap Z DeleteSession;
  collection : list MovieRecord;
  sent : list (Notice * bool);       (* the notice, and whether it went out *)
  errors_logged : nat;               (* logging.error calls *)
  fresh : nat;
  db_faults : list bool;
  tx_faults : list bool
}.

Definition set_upload (f : gmap Z UploadSession -> gmap Z UploadSession) (w : World) : World :=
  {| upload_sessions := f (upload_sessions w); delete_sessions := delete_sessions w;
     collection := collection w; sent := sent w; errors_logged := errors_logged w;
     fresh := fresh w; db_faults := db_faults w; tx_faults := tx_faults w |}.

Definition set_delete (f : gmap Z DeleteSession -> gmap Z DeleteSession) (w : World) : World :=
  {| upload_sessions := upload_sessions w; delete_sessions := f (delete_sessions w);
     collection := collection w; sent := sent w; errors_logged := errors_logged w;
     fresh := fresh w; db_faults := db_faults w; tx_faults := tx_faults w |}.

Definition set_collection (f : list MovieRecord -> list MovieRecord) (w : World) : World :=
  {| upload_sessions := upload_sessions w; delete_sessions := delete_sessions w;
     collection := f (collection w); sent := sent w; errors_logged := errors_logged w;
     fresh := fresh w; db_faults := db_faults w; tx_faults := tx_faults w |}.

Definition set_sent (f : list (Notice * bool) -> list (Notice * bool)) (w : World) : World :=
  {| upload_sessions := upload_sessions w; delete_sessions := delete_sessions w;
     collection := collection w; sent := f (sent w); errors_logged := errors_logged w;
     fresh := fresh w; db_faults := db_faults w; tx_faults := tx_faults w |}.

Definition set_errors_logged (f : nat -> nat) (w : World) : World :=
  {| upload_sessions := upload_sessions w; delete_sessions := delete_sessions w;
     collection := collection w; sent := sent w; errors_logged := f (errors_logged w);
     fresh := fresh w; db_faults := db_faults w; tx_faults := tx_faults w |}.

Definition set_fresh (f : nat -> nat) (w : World) : World :=
  {| upload_sessions := upload_sessions w; delete_sessions := delete_sessions w;
     collection := collection w; sent := sent w; errors_logged := errors_logged w;
     fresh := f (fresh w); db_faults := db_faults w; tx_faults := tx_faults w |}.

Definition set_db_faults (f : list bool -> list bool) (w : World) : World :=
  {| upload_sessions := upload_sessions w; delete_sessions := delete_sessions w;
     collection := collection w; sent := sent w; errors_logged := errors_logged w;
     fresh := fresh w; db_faults := f (db_faults w); tx_faults := tx_faults w |}.

Definition set_tx_faults (f : list bool -> list bool) (w : World) : World :=
  {| upload_sessions := upload_sessions w; delete_sessions := delete_sessions w;
     collection := collection w; sent := sent w; errors_logged := errors_logged w;
     fresh := fresh w; db_faults := db_faults w; tx_faults := f (tx_faults w) |}.

Definition empty_world : World :=
  {| upload_sessions := ∅; delete_sessions := ∅; collection := []; sent := [];
     errors_logged := 0; fresh := 0; db_faults := []; tx_faults := [] |}.

(** ** Handlers as state transformers that may raise

    A mutation made before an exception stays: Python does not roll
    back. *)
Inductive Result (A : Type) :=
| Ok (a : A)
| Raised (e : exn).
Arguments Ok {A} a.
Arguments Raised {A} e.

Definition M (A : Type) : Type := World -> Result A * World.

#[global] Instance M_ret : MRet M := fun A a w => (Ok a, w).
#[global] Instance M_bind : MBind M := fun A B f c w =>
  match c w with
  | (Ok a, w') => f a w'
  | (Raised e, w') => (Raised e, w')
  end.

Definition raise {A} (e : exn) : M A := fun w => (Raised e, w).

(** [try: body except Exception: handler] *)
Definition try_except {A} (body : M A) (handler : exn -> M A) : M A := fun w =>
  match body w with
  | (Ok a, w') => (Ok a, w')
  | (Raised e, w') => handler e w'
  end.

Definition gets {A} (f : World -> A) : M A := fun w => (Ok (f w), w).
Definition modify (f : World -> World) : M unit := fun w => (Ok tt, f w).

(** The world after a handler, whether it returned or raised. *)
Definition exec {A} (c : M A) (w : World) : World := snd (c w).
Definition outcome {A} (c : M A) (w : World) : Result A := fst (c w).

(** *** The collaborators *)

(** Any send of the transport: recorded, and it raises when the
    transport says so. *)
Definition send (n : Notice) : M unit := fun w =>
  match tx_faults w with
  | false :: rest =>
      (Raised NetworkError, set_sent (fun l => l ++ [(n, false)]) (set_tx_faults (fun _ => rest) w))
  | _ => (Ok tt, set_sent (fun l => l ++ [(n, true)]) (set_tx_faults (drop 1) w))
  end.

Definition logging_error : M unit :=
  modify (set_errors_logged S).

(** [uuid.uuid4()] and the ObjectId of an insert: tokens never seen
    before. *)
Definition new_token : M nat := fun w => (Ok (fresh w), set_fresh S w).

(** The next storage call raises when the store says so. *)
Definition db_call : M unit := fun w =>
  match db_faults w with
  | false :: rest => (Raised PyMongoError, set_db_faults (fun _ => rest) w)
  | _ => (Ok tt, set_db_faults (drop 1) w)
  end.

(** [collection.insert_one(movie_entry)] *)
Definition insert_one (entry : MovieRecord) : M unit :=
  db_call ;;
  i ← new_token;
  modify (set_collection (fun l => l ++ [
    {| movie_id := movie_id entry; name := name entry; documents := documents entry;
       movie_image := movie_image entry; oid := i |} ])).

(** *** Updates

    An update carries a message (documents, photos, texts) or a callback
    query (button presses), not both: [update.message] is None for a
    button press. *)
Record PhotoSize := { photo_file_id : str; photo_width : Z; photo_height : Z }.

Record Document := { doc_file_id : str; doc_file_name : option str }.

Record Message := {
  document : option Document;
  photo : list PhotoSize;
  text : option str
}.

Record Update := {
  effective_chat : Z;
  effective_user : Z;
  message : option Message;
  callback_query : option str        (* query.data *)
}.

(** [update.message.reply_text(...)] *)
Definition reply_text (update : Update) (n : Notice) : M unit :=
  match message update with
  | None => raise AttributeError
  | Some _ => send n
  end.

(** Truth values of the session fields. *)
Definition truthy_name (n : option str) : bool :=
  match n with
  | Some (_ :: _) => true
  | _ => false
  end.

Definition truthy_files (l : list FileEntry) : bool :=
  match l with [] => false | _ => true end.

Definition truthy_image (i : option Image) : bool :=
  match i with Some _ => true | None => false end.

(** [sanitize_unicode]: encoding with errors ignored drops the lone
    surrogates, and nothing else. *)
Definition sanitize_unicode (t : str) : str :=
  List.filter (fun c => negb ((55296 <=? c)%N && (c <=? 57343)%N)) t.

(** [max(image_info, key=lambda photo: photo.width * photo.height)]: the
    first of the largest. *)
Fixpoint largest_photo_from (best : PhotoSize) (l : list PhotoSize) : PhotoSize :=
  match l with
  | [] => best
  | p :: r =>
      if photo_width best * photo_height best <? photo_width p * photo_height p
      then largest_photo_from p r
      else largest_photo_from best r
  end.

Section Handlers.
Context (db : UnicodeDB).
Context (STORAGE_GROUP_ID SEARCH_GROUP_ID : Z) (ADMIN_IDS : gset Z).

Definition PAGE_SIZE : Z := 10.

Definition new_session : UploadSession :=
  {| files := []; image := None; movie_name := None; awaiting_name_edit := false |}.

Definition send_preview_to_group (entry : MovieRecord) : M unit :=
  let image_file_id :=
    match movie_image entry with
    | Some i => match image_file_id i with [] => None | f => Some f end
    | None => None
    end in
  try_except
    (send (Preview (movie_id entry) (sanitize_unicode (name entry)) image_file_id))
    (fun _ => logging_error).

Definition check_and_save_movie (user_id : Z) (update : Update) : M unit :=
  session ← gets (fun w => upload_sessions w !! user_id);
  match session with
  | None => mret tt
  | Some session =>
      if negb (truthy_files (files session) && truthy_image (image session)
               && truthy_name (movie_name session))
      then mret tt
      else
        id ← new_token;
        let movie_entry :=
          {| movie_id := id; name := default [] (movie_name session);
             documents := files session; movie_image := image session; oid := 0 |} in
        try_except
          (insert_one movie_entry ;;
           reply_text update (MovieAdded (sanitize_unicode (name movie_entry))) ;;
           (if bool_decide (SEARCH_GROUP_ID = 0) then mret tt
            else send_preview_to_group movie_entry) ;;
           modify (set_upload (delete user_id)))
          (fun _ =>
             logging_error ;;
             reply_text update FailedToAdd)
  end.

Definition name_decision_handler (update : Update) : M unit :=
  match callback_query update with
  | None => raise AttributeError
  | Some data =>
      send CallbackAnswered ;;
      let user_id := effective_user update in
      session ← gets (fun w => upload_sessions w !! user_id);
      match session with
      | None => send SessionExpired
      | Some session =>
          if bool_decide (data = lit "edit_name") then
            modify (set_upload (<[user_id :=
              {| files := files session; image := image session;
                 movie_name := movie_name session; awaiting_name_edit := true |}]>)) ;;
            send SendNewName
          else if bool_decide (data = lit "continue_name") then
            modify (set_upload (<[user_id :=
              {| files := files session; image := image session;
                 movie_name := movie_name session; awaiting_name_edit := false |}]>)) ;;
            send (NameConfirmed (movie_name session)) ;;
            check_and_save_movie user_id update
          else mret tt
      end
  end.

Definition text_handler (update : Update) : M unit :=
  if negb (bool_decide (effective_chat update = STORAGE_GROUP_ID)) then mret tt
  else
    let user_id := effective_user update in
    session ← gets (fun w => upload_sessions w !! user_id);
    match session with
    | Some session =>
        if awaiting_name_edit session then
          match message update with
          | None => raise AttributeError
          | Some m =>
              match text m with
              | None => raise AttributeError
              | Some t =>
                  let new_name := sanitize_unicode (strip_ws db t) in
                  modify (set_upload (<[user_id :=
                    {| files := files session; image := image session;
                       movie_name := Some new_name; awaiting_name_edit := false |}]>)) ;;
                  reply_text update (NameUpdated new_name) ;;
                  check_and_save_movie user_id update
              end
          end
        else mret tt
    | None => mret tt
    end.

Definition add_movie (update : Update) : M unit :=
  if negb (bool_decide (effective_chat update = STORAGE_GROUP_ID)) then mret tt
  else
    let user_id := effective_user update in
    (* upload_sessions.setdefault(user_id, {...}) *)
    modify (set_upload (fun m =>
      match m !! user_id with Some _ => m | None => <[user_id := new_session]> m end)) ;;
    session ← gets (fun w => default new_session (upload_sessions w !! user_id));
    match message update with
    | None => raise AttributeError
    | Some m =>
        match document m with
        | Some file_info =>
            match doc_file_name file_info with
            | None => raise TypeError
            | Some raw =>
                let cleaned_name := clean_filename db raw in
                let session :=
                  {| files := files session ++
                       [ {| file_id := doc_file_id file_info; file_name := cleaned_name |} ];
                     image := image session;
                     movie_name := if truthy_name (movie_name session)
                                   then movie_name session else Some cleaned_name;
                     awaiting_name_edit := awaiting_name_edit session |} in
                modify (set_upload (<[user_id := session]>)) ;;
                if bool_decide (user_id ∈ ADMIN_IDS) then
                  reply_text update (DetectedName (sanitize_unicode cleaned_name))
                else
                  reply_text update (FileReceived (sanitize_unicode cleaned_name)) ;;
                  check_and_save_movie user_id update
            end
        | None =>
            match photo m with
            | [] => mret tt
            | p :: ps =>
                let largest_photo := largest_photo_from p ps in
                let session :=
                  {| files := files session;
                     image := Some {| image_file_id := photo_file_id largest_photo;
                                      width := photo_width largest_photo;
                                      height := photo_height largest_photo |};
                     movie_name := movie_name session;
                     awaiting_name_edit := awaiting_name_edit session |} in
                modify (set_upload (<[user_id := session]>)) ;;
                reply_text update ImageReceived ;;
                if negb (bool_decide (user_id ∈ ADMIN_IDS)) || negb (awaiting_name_edit session)
                then check_and_save_movie user_id update
                else mret tt
            end
        end
    end.

(** *** Listing and delete by number *)

(** [str.isdigit()] *)
Definition isdigit_char (c : N) : bool :=
  if is_ascii c then ascii_digit c
  else bool_decide (is_Some (uni_decimal db c)) || uni_digit db c.

Definition isdigit (t : str) : bool :=
  match t with [] => false | _ => forallb isdigit_char t end.

(** The value [int()] reads a character as. *)
Definition decimal_value (c : N) : option N :=
  if is_ascii c then (if ascii_digit c then Some (c - 48)%N else None)
  else uni_decimal db c.

(** The digits of an [int()] literal: decimal digits, single underscores
    between them. *)
Fixpoint int_digits (acc : N) (after_digit : bool) (t : str) : option N :=
  match t with
  | [] => if after_digit then Some acc else None
  | c :: r =>
      match decimal_value c with
      | Some d => int_digits (10 * acc + d)%N true r
      | None => if (c =? 95)%N && after_digit then int_digits acc false r else None
      end
  end.

(** [int(t)]: None stands for ValueError. *)
Definition py_int (t : str) : option Z :=
  match strip_ws db t with
  | c :: r =>
      if (c =? 45)%N then (fun n => - Z.of_N n) <$> int_digits 0 false r
      else if (c =? 43)%N then Z.of_N <$> int_digits 0 false r
      else Z.of_N <$> int_digits 0 false (c :: r)
  | [] => None
  end.

(** The order of [sort("name", 1)] on strings: by code point. *)
Fixpoint str_leb (a b : str) : bool :=
  match a, b with
  | [], _ => true
  | _ :: _, [] => false
  | x :: a', y :: b' => (x <? y)%N || ((x =? y)%N && str_leb a' b')
  end.

Definition name_le (a b : MovieRecord) : Prop := str_leb (name a) (name b).

#[global] Instance name_le_dec : RelDecision name_le.
Proof. intros a b. unfold name_le. apply _. Defined.

Definition sort_by_name (l : list MovieRecord) : list MovieRecord :=
  merge_sort name_le l.

(** [enumerate(movies, start=n)] with the names *)
Fixpoint numbered (n : Z) (l : list MovieRecord) : list (Z * str) :=
  match l with
  | [] => []
  | m :: r => (n, name m) :: numbered (n + 1) r
  end.

Definition list_movies (update : Update) (args : list str) : M unit :=
  if negb (bool_decide (effective_user update ∈ ADMIN_IDS)) then mret tt
  else
    page ← match args with
           | a :: _ => match py_int a with Some p => mret p | None => raise ValueError end
           | [] => mret 1
           end;
    let skip := (page - 1) * PAGE_SIZE in
    db_call ;;
    total ← gets (fun w => Z.of_nat (length (collection w)));
    (* a negative skip is refused by the driver *)
    (if skip <? 0 then raise ValueError else mret tt) ;;
    db_call ;;
    movies ← gets (fun w =>
      take (Z.to_nat PAGE_SIZE) (drop (Z.to_nat skip) (sort_by_name (collection w))));
    let body :=
      match movies with
      | [] => None
      | _ => Some (total, numbered (skip + 1) movies)
      end in
    modify (set_delete (<[effective_user update :=
      {| page := page; movies := movies; selected := None |}]>)) ;;
    let previous := if 1 <? page then Some (page - 1) else None in
    let next := if skip + PAGE_SIZE <? total then Some (page + 1) else None in
    match message update, callback_query update with
    | Some _, _ => send (Listing body previous next)
    | None, Some _ => send (Listing body previous next)
    | None, None => raise AttributeError
    end.

Definition delete_by_number (update : Update) : M unit :=
  let user_id := effective_user update in
  if negb (bool_decide (user_id ∈ ADMIN_IDS)) then mret tt
  else
    match message update with
    | None => mret tt
    | Some m =>
        match text m with
        | None | Some [] => mret tt
        | Some t =>
            session ← gets (fun w => delete_sessions w !! user_id);
            match session with
            | None => mret tt
            | Some session =>
                let text := strip_ws db t in
                if negb (isdigit text) then reply_text update ValidNumberPlease
                else
                  match py_int text with
                  | None => raise ValueError
                  | Some n =>
                      let index := n - 1 in
                      if (index <? 0) || (Z.of_nat (length (movies session)) <=? index)
                      then reply_text update InvalidNumber
                      else
                        match movies session !! Z.to_nat index with
                        | None => raise ValueError     (* unreachable: index is in range *)
                        | Some movie =>
                            modify (set_delete (<[user_id :=
                              {| page := page session; movies := movies session;
                                 selected := Some movie |}]>)) ;;
                            reply_text update (ConfirmDelete movie (page session))
                        end
                  end
            end
        end
    end.

(** *** The operations of an upload session, as the updates that carry
    them *)
Inductive Op :=
| ReceiveDocument (user : Z) (file : str) (raw_name : str)
| ReceiveImage (user : Z) (file : str) (w h : Z)
| RequestNameEdit (user : Z)
| ConfirmName (user : Z)
| SubmitNameText (user : Z) (new_name : str).

Definition message_update (user : Z) (m : Message) : Update :=
  {| effective_chat := STORAGE_GROUP_ID; effective_user := user;
     message := Some m; callback_query := None |}.

Definition button_update (user : Z) (data : str) : Update :=
  {| effective_chat := STORAGE_GROUP_ID; effective_user := user;
     message := None; callback_query := Some data |}.

Definition update_of (o : Op) : Update :=
  match o with
  | ReceiveDocument u f n =>
      message_update u {| document := Some {| doc_file_id := f; doc_file_name := Some n |};
                          photo := []; text := None |}
  | ReceiveImage u f w h =>
      message_update u {| document := None;
                          photo := [ {| photo_file_id := f; photo_width := w; photo_height := h |} ];
                          text := None |}
  | RequestNameEdit u => button_update u (lit "edit_name")
  | ConfirmName u => button_update u (lit "continue_name")
  | SubmitNameText u t =>
      message_update u {| document := None; photo := []; text := Some t |}
  end.

(** The handler the application routes each of them to. *)
Definition handle (o : Op) : M unit :=
  match o with
  | ReceiveDocument _ _ _ | ReceiveImage _ _ _ _ => add_movie (update_of o)
  | RequestNameEdit _ | ConfirmName _ => name_decision_handler (update_of o)
  | SubmitNameText _ _ => text_handler (update_of o)
  end.

(** An exception that leaves a handler is logged by the application;
    the process goes on with the state as it is. *)
Definition step (w : World) (o : Op) : World := exec (handle o) w.

Definition run (w : World) (ops : list Op) : World := fold_left step ops w.

End Handlers.

(** ** Specification vocabulary for the sessions *)

(** The predicate [check_and_save_movie] tests. *)
Definition complete (s : UploadSession) : bool :=
  truthy_files (files s) && truthy_image (image s) && truthy_name (movie_name s).

(** The predicate of the specification: complete, and no edit pending. *)
Definition ready_to_persist (s : UploadSession) : bool :=
  complete s && negb (awaiting_name_edit s).

(** The record a session is stored as. *)
Definition record_of (s : UploadSession) (r : MovieRecord) : Prop :=
  movie_name s = Some (name r) /\ documents r = files s /\ movie_image r = image s.

(** The next storage call will go through. *)
Definition db_ok (w : World) : bool :=
  match db_faults w with false :: _ => false | _ => true end.

Definition user_of (o : Op) : Z :=
  match o with
  | ReceiveDocument u _ _ | ReceiveImage u _ _ _ | RequestNameEdit u
  | ConfirmName u | SubmitNameText u _ => u
  end.

Definition with_awaiting (b : bool) (s : UploadSession) : UploadSession :=
  {| files := files s; image := image s; movie_name := movie_name s;
     awaiting_name_edit := b |}.

Section Summary.
Context (db : UnicodeDB) (ADMIN_IDS : gset Z).

(** What an operation does to the user's session before completion is
    evaluated (section 4.2 of the specification, with the details of the
    handlers). *)
Definition after_mutation (o : Op) (before : option UploadSession) : option UploadSession :=
  match o with
  | ReceiveDocument _ f raw =>
      let s := default new_session before in
      Some {| files := files s ++ [ {| file_id := f; file_name := clean_filename db raw |} ];
              image := image s;
              movie_name := if truthy_name (movie_name s) then movie_name s
                            else Some (clean_filename db raw);
              awaiting_name_edit := awaiting_name_edit s |}
  | ReceiveImage _ f w h =>
      let s := default new_session before in
      Some {| files := files s;
              image := Some {| image_file_id := f; width := w; height := h |};
              movie_name := movie_name s;
              awaiting_name_edit := awaiting_name_edit s |}
  | RequestNameEdit _ => with_awaiting true <$> before
  | ConfirmName _ => with_awaiting false <$> before
  | SubmitNameText _ t =>
      match before with
      | Some s =>
          if awaiting_name_edit s
          then Some {| files := files s; image := image s;
                       movie_name := Some (sanitize_unicode (strip_ws db t));
                       awaiting_name_edit := false |}
          else Some s
      | None => None
      end
  end.

(** Whether the operation goes on to evaluate completion. *)
Definition evaluates (o : Op) (before : option UploadSession) : bool :=
  match o with
  | ReceiveDocument u _ _ => negb (bool_decide (u ∈ ADMIN_IDS))
  | ReceiveImage u _ _ _ =>
      negb (bool_decide (u ∈ ADMIN_IDS))
      || negb (awaiting_name_edit (default new_session before))
  | RequestNameEdit _ => false
  | ConfirmName _ => bool_decide (is_Some before)
  | SubmitNameText _ _ =>
      match before with Some s => awaiting_name_edit s | None => false end
  end.

End Summary.

(** A configuration for the worked examples: storage group 100, search
    group 200, user 1 is the only admin. *)
Definition example_step : World -> Op -> World := step unicode_excerpt 100 200 {[ 1 ]}.
Definition example_run : World -> list Op -> World := run unicode_excerpt 100 200 {[ 1 ]}.

Definition example_handle : Op -> M unit := handle unicode_excerpt 100 200 {[ 1 ]}.

(** The admin has sent a poster and then a file: the session is
    complete, and the bot has offered Edit / Continue. *)
Definition poster_then_file : World :=
  example_run empty_world
    [ ReceiveImage 1 (lit "poster") 640 960;
      ReceiveDocument 1 (lit "file-1") (lit "Movie 2021.mkv") ].

Definition poster_then_file_session : UploadSession :=
  {| files := [ {| file_id := lit "file-1"; file_name := lit "Movie (2021)" |} ];
     image := Some {| image_file_id := lit "poster"; width := 640; height := 960 |};
     movie_name := Some (lit "Movie (2021)");
     awaiting_name_edit := false |}.

(** A user who is not an admin has sent a file and pressed Edit. *)
Definition file_then_edit : World :=
  example_run empty_world
    [ ReceiveDocument 7 (lit "file-1") (lit "Movie 2021.mkv");
      RequestNameEdit 7 ].

(** A file whose name cleans to the empty string has arrived. *)
Definition nameless_file : World :=
  example_run empty_world [ ReceiveDocument 7 (lit "file-1") (lit "[CK]") ].

(** Twenty-five stored movies, "Movie 24" down to "Movie 00", for the
    paging examples, and an admin asking for a page. *)
Definition sample_movie (i : nat) : MovieRecord :=
  {| movie_id := i;
     name := lit "Movie " ++ [ (48 + N.of_nat (i / 10))%N; (48 + N.of_nat (i mod 10))%N ];
     documents := []; movie_image := None; oid := i |}.

Definition twenty_five_movies : list MovieRecord :=
  sample_movie <$> reverse (seq 0 25).

Definition library : World := set_collection (fun _ => twenty_five_movies) empty_world.

Definition text_update (user : Z) (t : str) : Update :=
  {| effective_chat := 1; effective_user := user;
     message := Some {| document := None; photo := []; text := Some t |};
     callback_query := None |}.

(** The admin has listed page 3 of the library. *)
Definition library_page_3 : World :=
  exec (list_movies unicode_excerpt {[ 1 ]} (text_update 1 (lit "/list 3")) [ lit "3" ]) library.

(** ** Specification vocabulary for the normaliser *)

Definition all_ascii (s : str) : Prop := Forall (fun c => is_ascii c = true) s.

Definition ascii_letter (c : N) : bool := ascii_upper c || ascii_lower c.

Definition is_bracket (c : N) : bool := (c =? 91)%N || (c =? 93)%N.

(** [re.search(pattern, s)] finds a match. *)
Fixpoint re_finds (m : str -> option nat) (s : str) : bool :=
  match m s with
  | Some _ => true
  | None => match s with [] => false | _ :: r => re_finds m r end
  end.

(** A '[' with a ']' somewhere after it. *)
Fixpoint has_bracket_pair (s : str) : bool :=
  match s with
  | [] => false
  | c :: r => ((c =? 91)%N && existsb (N.eqb 93) r) || has_bracket_pair r
  end.

Fixpoint no_double_space (s : str) : Prop :=
  match s with
  | a :: r => match r with
              | b :: _ => ~ (a = 32%N /\ b = 32%N)
              | [] => True
              end /\ no_double_space r
  | [] => True
  end.

(** No separator (space, '-', '.', '_') at either end. *)
Definition trimmed (s : str) : Prop :=
  (forall c, head s = Some c -> is_sep c = false) /\
  (forall c, last s = Some c -> is_sep c = false).

(** One of the five languages, in any letter case. *)
Definition is_language (x : str) : Prop :=
  exists l, l ∈ languages /\ imatch l x = Some [].

(** The title, the year in parentheses and what follows it, put
    together: "Title (Year) Language", "Title (Year)", "(Year) Language"
    or "(Year)". *)
Definition titled (title y : str) (l : option str) : str :=
  match title with [] => [] | _ => title ++ [32%N] end
  ++ [40%N] ++ y ++ [41%N]
  ++ match l with Some x => 32%N :: x | None => [] end.

Section NormalizerVocabulary.
Context (db : UnicodeDB).

(** What the pattern reads behind the four digits: an optional ')',
    white space, and the language if one is there. *)
Definition after_year (r : str) : option str :=
  m_language languages
    (lstrip (is_us_ws db)
       (match r with
        | c :: r' => if (c =? 41)%N then r' else r
        | [] => r
        end)).

(** The only white space is the space. *)
Definition only_spaces (s : str) : Prop :=
  Forall (fun c => isspace db c = true -> c = 32%N) s.

(** Single-spaced and trimmed. *)
Definition tidy (s : str) : Prop :=
  only_spaces s /\ no_double_space s /\ trimmed s.

(** The exact form "Title (Year) Language". *)
Definition title_year_language (out : str) : Prop :=
  exists title year language,
    out = title ++ lit " (" ++ year ++ lit ") " ++ language /\
    length year = 4%nat /\ Forall (fun c => ascii_digit c = true) year /\
    is_language language /\ tidy title.

(** Four digits in a row somewhere; a language somewhere. *)
Definition has_year (s : str) : bool :=
  re_finds (fun u => (fun _ => 4%nat) <$> four_digits db u) s.

Definition has_language (s : str) : bool :=
  re_finds (fun u => length <$> m_language languages u) s.

(** Two white-space characters in a row. *)
Fixpoint ws_pair (s : str) : bool :=
  match s with
  | a :: r => match r with
              | b :: _ => isspace db a && isspace db b
              | [] => false
              end || ws_pair r
  | [] => false
  end.

(** A first character that step 2 would remove. *)
Definition leading_junk (s : str) : bool :=
  match s with c :: _ => is_prefix_junk db c | [] => false end.

(** An already-clean title, each condition read as "the step that
    removes it finds nothing": no match of the tag pattern, no match of
    the bracket pattern, ASCII only, no underscore, no leading non-word
    character, no repeated white space. *)
Definition already_clean (s : str) : bool :=
  negb (re_finds (m_tag db) s) && negb (re_finds m_bracket s)
  && forallb is_ascii s && negb (existsb (N.eqb 95) s)
  && negb (leading_junk s) && negb (ws_pair s).

(** The text of a tag at the start of [s], whatever follows it: the
    literal, and the digits it needs at least. *)
Definition tag_core (t : tag) (s : str) : bool :=
  match imatch (tag_text t) s with
  | Some rest =>
      match t with
      | Lit _ => true
      | LitDigits _ least => bool_decide (least <= class_run (re_d db) rest)%nat
      end
  | None => false
  end.

Fixpoint has_tag_text (s : str) : bool :=
  match s with
  | [] => false
  | _ :: r => existsb (fun t => tag_core t s) tags || has_tag_text r
  end.

(** The stronger reading: the text of no tag occurs anywhere, not even
    inside a longer word, and no '[' is followed by a ']'. *)
Definition clean_title (s : str) : bool :=
  negb (has_tag_text s) && negb (has_bracket_pair s)
  && forallb is_ascii s && negb (existsb (N.eqb 95) s)
  && negb (leading_junk s) && negb (ws_pair s).

(** A character no tag is made of: not a letter or sign of a tag text
    in either case, and not a digit. *)
Definition tag_free (x : N) : bool :=
  forallb (fun t => forallb (fun a => negb (ieq a x)) (tag_text t)) tags
  && negb (re_d db x).

(** Step 4 on a string without underscores and without two white-space
    characters in a row: each white-space character becomes a space. *)
Definition space_out (c : N) : N := if isspace db c then 32%N else c.

(** A string the steps 1 to 5 leave as it is. *)
Definition settled (z : str) : Prop :=
  all_ascii z /\
  Forall (fun c => c <> 95%N) z /\
  only_spaces z /\
  no_double_space z /\
  (forall c, head z = Some c -> is_prefix_junk db c = false) /\
  (forall c, last z = Some c -> c <> 32%N) /\
  has_tag_text z = false /\
  has_bracket_pair z = false.

(** A string the steps 2 to 4 leave as it is: ASCII, no underscore,
    single spaces as its only white space, a word character in front
    and no space at the end. *)
Definition spaced (z : str) : Prop :=
  all_ascii z /\
  Forall (fun c => c <> 95%N) z /\
  only_spaces z /\
  no_double_space z /\
  (forall c, head z = Some c -> is_prefix_junk db c = false) /\
  (forall c, last z = Some c -> c <> 32%N).

(** Step 6 on the outcome of step 5. *)
Definition finish (z : str) : str :=
  match search_title db z with
  | Some (t, y, l) => format_name db t y l
  | None => strip_sep z
  end.

End NormalizerVocabulary.

(** ** More vocabulary for the sessions *)

(** A record with at least one file, a poster and a non-empty name. *)
Definition stored_complete (r : MovieRecord) : Prop :=
  documents r <> [] /\ is_Some (movie_image r) /\ name r <> [].

(** The photo a preview is sent with. *)
Definition preview_photo (r : MovieRecord) : option str :=
  match movie_image r with
  | Some i => match image_file_id i with [] => None | f => Some f end
  | None => None
  end.

(** [photo.width * photo.height], the key of [max]. *)
Definition area (p : PhotoSize) : Z := photo_width p * photo_height p.

(** The image a session keeps of a photo. *)
Definition image_of (p : PhotoSize) : Image :=
  {| image_file_id := photo_file_id p; width := photo_width p; height := photo_height p |}.

(** ** The buttons of a listing

    The handlers behind the buttons of a listing answer through the
    message that carries the button.  What they say there is kept in a
    log of its own, beside the state of the process. *)

(** [s.split(sep)] for a separator of one character *)
Fixpoint split_on (sep : N) (s : str) : list str :=
  match s with
  | [] => [ [] ]
  | c :: r =>
      if (c =? sep)%N then [] :: split_on sep r
      else match split_on sep r with
           | p :: ps => (c :: p) :: ps
           | [] => [ [c] ]
           end
  end.

(** [s.startswith(prefix)] *)
Fixpoint startswith (s prefix : str) {struct prefix} : bool :=
  match prefix with
  | [] => true
  | a :: p =>
      match s with
      | c :: r => (a =? c)%N && startswith r p
      | [] => false
      end
  end.

(** The decimal digits of [n], the most significant first. *)
Fixpoint decimal_digits (fuel : nat) (n : N) : str :=
  match fuel with
  | O => []
  | S fuel' =>
      if (n <? 10)%N then [ (48 + n)%N ]
      else decimal_digits fuel' (n / 10) ++ [ (48 + n mod 10)%N ]
  end.

(** [str(n)] for an int: no more digits than [n] has bits. *)
Definition py_str (n : Z) : str :=
  let a := Z.abs_N n in
  (if n <? 0 then [ 45%N ] else []) ++ decimal_digits (S (N.to_nat (N.log2 a))) a.

(** The callback data of the Previous and Next buttons of a listing, and
    of the Confirm button of a selection; [oid_str] is [str] of an
    ObjectId. *)
Definition page_data (p : Z) : str := lit "page:" ++ py_str p.

Definition confirm_data (oid_str : nat -> str) (m : MovieRecord) (on_page : Z) : str :=
  lit "confirm_del:" ++ oid_str (oid m) ++ [ 58%N ] ++ py_str on_page.

(** [collection.delete_one({"_id": i})]: the first record with that id
    goes. *)
Fixpoint remove_first (i : nat) (l : list MovieRecord) : list MovieRecord :=
  match l with
  | [] => []
  | r :: l' => if bool_decide (oid r = i) then l' else r :: remove_first i l'
  end.

Definition delete_one (i : nat) : M unit :=
  db_call ;;
  modify (set_collection (remove_first i)).

Inductive Reply :=
| NoActiveList                   (* reply: no active list found *)
| SendNumber (count : nat)       (* reply: send the movie number to delete (1-count) *)
| DeletedNotice                  (* edit: movie deleted successfully *)
| MessageDeleted                 (* the message of the button is deleted *)
| Poster (photo caption : str)   (* reply_photo: the poster, captioned with the name *)
| FileSent (file : str)          (* send_document *)
| HomeMenu.                      (* the greeting with the menu buttons *)

(** The exceptions of these handlers: those of the upload handlers, and
    two more. *)
Inductive Failure :=
| Py (e : exn)
| IndexError                     (* an index past the end of a list *)
| InvalidId.                     (* ObjectId() of a text that is not an id *)

Record Desk := {
  world : World;
  replies : list (Reply * bool)      (* the reply, and whether it went out *)
}.

Inductive Outcome (A : Type) :=
| Done (a : A)
| Failed (f : Failure).
Arguments Done {A} a.
Arguments Failed {A} f.

Definition D (A : Type) : Type := Desk -> Outcome A * Desk.

#[global] Instance D_ret : MRet D := fun A a d => (Done a, d).
#[global] Instance D_bind : MBind D := fun A B f c d =>
  match c d with
  | (Done a, d') => f a d'
  | (Failed e, d') => (Failed e, d')
  end.

Definition fail {A} (f : Failure) : D A := fun d => (Failed f, d).

(** A handler of the process, run at the desk. *)
Definition lift {A} (c : M A) : D A := fun d =>
  match c (world d) with
  | (Ok a, w) => (Done a, {| world := w; replies := replies d |})
  | (Raised e, w) => (Failed (Py e), {| world := w; replies := replies d |})
  end.

(** A reply or an edit through the message of the button: recorded, and
    it raises when the transport says so. *)
Definition say (r : Reply) : D unit := fun d =>
  match tx_faults (world d) with
  | false :: rest =>
      (Failed (Py NetworkError),
       {| world := set_tx_faults (fun _ => rest) (world d);
          replies := replies d ++ [ (r, false) ] |})
  | _ =>
      (Done tt,
       {| world := set_tx_faults (drop 1) (world d);
          replies := replies d ++ [ (r, true) ] |})
  end.

Definition desk_after {A} (c : D A) (d : Desk) : Desk := snd (c d).
Definition desk_outcome {A} (c : D A) (d : Desk) : Outcome A := fst (c d).

Section ListButtons.
Context (db : UnicodeDB) (ADMIN_IDS : gset Z).
(** [ObjectId(text)]: the id a text of 24 hexadecimal digits stands
    for. *)
Context (ObjectId : str -> option nat).

(** [query.answer()] *)
Definition answer : D unit := lift (send CallbackAnswered).

Definition ask_delete (update : Update) : D unit :=
  match callback_query update with
  | None => fail (Py AttributeError)
  | Some _ =>
      answer ;;
      session ← lift (gets (fun w => delete_sessions w !! effective_user update));
      match session with
      | None => say NoActiveList
      | Some session => say (SendNumber (length (movies session)))
      end
  end.

Definition paginate (update : Update) : D unit :=
  match callback_query update with
  | None => fail (Py AttributeError)
  | Some data =>
      answer ;;
      match split_on 58 data !! 1%nat with
      | None => fail IndexError
      | Some p =>
          match py_int db p with
          | None => fail (Py ValueError)
          | Some page => lift (list_movies db ADMIN_IDS update [ py_str page ])
          end
      end
  end.

Definition confirm_number_delete (update : Update) : D unit :=
  match callback_query update with
  | None => fail (Py AttributeError)
  | Some data =>
      answer ;;
      match split_on 58 data with
      | [ _; movie_id; page ] =>
          match ObjectId movie_id with
          | None => fail InvalidId
          | Some i =>
              lift (delete_one i) ;;
              say DeletedNotice ;;
              lift (list_movies db ADMIN_IDS update [ page ])
          end
      | _ => fail (Py ValueError)
      end
  end.

Definition callback_router (update : Update) : D unit :=
  match callback_query update with
  | None => fail (Py AttributeError)
  | Some data =>
      if startswith data (lit "page:") then paginate update
      else if bool_decide (data = lit "ask_delete") then ask_delete update
      else if startswith data (lit "confirm_del:") then confirm_number_delete update
      else if bool_decide (data = lit "cancel_del") then say MessageDeleted
      else mret tt
  end.

End ListButtons.

(** The text of an ObjectId: 24 hexadecimal digits, and the way back. *)
Definition hex_digit (d : N) : N := if (d <? 10)%N then (48 + d)%N else (87 + d)%N.

Fixpoint hex_digits (k : nat) (n : N) : str :=
  match k with
  | O => []
  | S k' => hex_digits k' (n / 16) ++ [ hex_digit (n mod 16) ]
  end.

Definition oid_text (i : nat) : str := hex_digits 24 (N.of_nat i).

Definition hex_value (c : N) : option N :=
  if ascii_digit c then Some (c - 48)%N
  else if (97 <=? c)%N && (c <=? 102)%N then Some (c - 87)%N
  else if (65 <=? c)%N && (c <=? 70)%N then Some (c - 55)%N
  else None.

Fixpoint read_hex (acc : N) (s : str) : option N :=
  match s with
  | [] => Some acc
  | c :: r => match hex_value c with
              | Some d => read_hex (16 * acc + d)%N r
              | None => None
              end
  end.

Definition read_oid (s : str) : option nat :=
  if bool_decide (length s = 24%nat) then N.to_nat <$> read_hex 0 s else None.

(** ** The deep link of a preview

    [start] with the argument of a deep link sends the movie; without
    one, or with one that names no movie, it shows the home menu. *)

(** [for doc in documents: send_document(...)] *)
Fixpoint send_documents (docs : list FileEntry) : D unit :=
  match docs with
  | [] => mret tt
  | doc :: rest => say (FileSent (file_id doc)) ;; send_documents rest
  end.

(** The greeting: a reply to a message, an edit behind a button. *)
Definition home_menu (update : Update) : D unit :=
  match message update, callback_query update with
  | Some _, _ => say HomeMenu
  | None, Some _ => say HomeMenu
  | None, None => fail (Py AttributeError)
  end.

Section Start.
(** [str] of the uuid a record was stored under. *)
Context (uuid_str : nat -> str).

(** [collection.find_one({"movie_id": movie_id})] *)
Definition find_one (movie_id' : str) : M (option MovieRecord) :=
  db_call ;;
  gets (fun w => List.find (fun r => bool_decide (uuid_str (movie_id r) = movie_id'))
                           (collection w)).

Definition start (update : Update) (args : list str) : D unit :=
  match args with
  | movie_id' :: _ =>
      movie ← lift (find_one movie_id');
      match movie with
      | Some movie =>
          match movie_image movie with
          | None => fail (Py AttributeError)
          | Some image =>
              match image_file_id image with
              | [] => mret tt
              | photo =>
                  match message update with
                  | Some _ => say (Poster photo (name movie))
                  | None => fail (Py AttributeError)
                  end
              end ;;
              send_documents (documents movie)
          end
      | None => home_menu update
      end
  | [] => home_menu update
  end.

End Start.

(** What the deep link of a record delivers: the poster, then the
    files in their order. *)
Definition delivery (r : MovieRecord) : list (Reply * bool) :=
  match preview_photo r with
  | Some photo => [ (Poster photo (name r), true) ]
  | None => []
  end ++ ((fun doc => (FileSent (file_id doc), true)) <$> documents r).

(** ** The handlers of the application, in the order of registration

    All handlers are registered in one group: an update goes to the
    first handler whose filter accepts it, and to no other. *)

Inductive Handler :=
| Start | IdCommand | ListMovies
| StartMenuRouter | NameDecisionHandler | GetMovieFiles | CallbackRouter
| AddMovie | TextHandler | DeleteByNumber | SearchMovie.

(** How the text of a message begins, by its first entity: with no
    command, with a command of this bot, or with a command addressed to
    another bot. *)
Inductive Leading :=
| Plain
| Command (name : str)
| ForeignCommand.

Record Incoming := {
  carried : Update;
  leading : Leading
}.

(** [literal] at the start of [s]: what is left of [s]. *)
Fixpoint after_prefix (literal s : str) : option str :=
  match literal with
  | [] => Some s
  | a :: p =>
      match s with
      | c :: r => if (a =? c)%N then after_prefix p r else None
      | [] => None
      end
  end.

Section Application.
Context (STORAGE_GROUP_ID SEARCH_GROUP_ID : Z).

(** *** The filters *)

Definition TEXT (i : Incoming) : bool :=
  match message (carried i) with
  | Some m => match text m with Some (_ :: _) => true | _ => false end
  | None => false
  end.

Definition COMMAND (i : Incoming) : bool :=
  match message (carried i) with
  | Some _ => match leading i with Plain => false | _ => true end
  | None => false
  end.

Definition Chat (id : Z) (i : Incoming) : bool :=
  match message (carried i) with
  | Some _ => bool_decide (effective_chat (carried i) = id)
  | None => false
  end.

Definition Document_ALL (i : Incoming) : bool :=
  match message (carried i) with
  | Some m => match document m with Some _ => true | None => false end
  | None => false
  end.

Definition PHOTO (i : Incoming) : bool :=
  match message (carried i) with
  | Some m => match photo m with [] => false | _ => true end
  | None => false
  end.

(** [CommandHandler(name, ...)] *)
Definition CommandHandler (name : string) (i : Incoming) : bool :=
  TEXT i &&
  match leading i with
  | Command c => bool_decide (lower <$> c = lit name)
  | _ => false
  end.

(** [CallbackQueryHandler(..., pattern=...)]: [re.match] on the data of
    the button. *)
Definition CallbackQueryHandler (pattern : str -> bool) (i : Incoming) : bool :=
  match callback_query (carried i) with
  | Some data => pattern data
  | None => false
  end.

(** [^menu_] *)
Definition pattern_menu (data : str) : bool := startswith data (lit "menu_").

(** [^(edit_name|continue_name)$] *)
Definition pattern_name_decision (data : str) : bool :=
  existsb (fun alt => match after_prefix alt data with
                      | Some r => at_dollar r
                      | None => false
                      end)
          [ lit "edit_name"; lit "continue_name" ].

(** [^movie_] *)
Definition pattern_movie (data : str) : bool := startswith data (lit "movie_").

(** [^(page:|ask_delete|confirm_del:|cancel_del)] *)
Definition pattern_list (data : str) : bool :=
  existsb (startswith data)
          [ lit "page:"; lit "ask_delete"; lit "confirm_del:"; lit "cancel_del" ].

(** *** [main]: the registrations *)
Definition registered : list ((Incoming -> bool) * Handler) :=
  [ (CommandHandler "start", Start);
    (CommandHandler "id", IdCommand);
    (CommandHandler "list", ListMovies);
    (CallbackQueryHandler pattern_menu, StartMenuRouter);
    (CallbackQueryHandler pattern_name_decision, NameDecisionHandler);
    (CallbackQueryHandler pattern_movie, GetMovieFiles);
    (CallbackQueryHandler pattern_list, CallbackRouter);
    (fun i => Document_ALL i && Chat STORAGE_GROUP_ID i, AddMovie);
    (fun i => PHOTO i && Chat STORAGE_GROUP_ID i, AddMovie);
    (fun i => TEXT i && negb (COMMAND i) && Chat STORAGE_GROUP_ID i, TextHandler);
    (fun i => TEXT i && negb (COMMAND i), DeleteByNumber);
    (fun i => TEXT i && negb (COMMAND i) && Chat SEARCH_GROUP_ID i, SearchMovie) ].

(** The handler an update goes to. *)
Definition dispatch (i : Incoming) : option Handler :=
  snd <$> List.find (fun h => fst h i) registered.

End Application.

(** The session operations are updates without a command. *)
Definition plain (u : Update) : Incoming := {| carried := u; leading := Plain |}.

Definition handler_of (o : Op) : Handler :=
  match o with
  | ReceiveDocument _ _ _ | ReceiveImage _ _ _ _ => AddMovie
  | RequestNameEdit _ | ConfirmName _ => NameDecisionHandler
  | SubmitNameText _ _ => TextHandler
  end.

(** ** Start-up and keep-alive

    The two retry loops.  What the outside answers to each attempt is
    given in order; past the end of the list every attempt succeeds. *)

(** What an attempt to reach the database meets: an answer to the
    ping, a ServerSelectionTimeoutError, or another exception. *)
Inductive Attempt :=
| Pong
| SelectionTimeout
| OtherFailure.

Record StartLog := {
  infos : nat;           (* logging.info *)
  retry_errors : nat;    (* logging.error *)
  criticals : nat;       (* logging.critical *)
  slept : Z              (* seconds in time.sleep *)
}.

Definition no_log : StartLog :=
  {| infos := 0; retry_errors := 0; criticals := 0; slept := 0 |}.

(** The [while retries > 0] loop of [connect_mongo]; [Ok true] is the
    collection, [Ok false] is None. *)
Fixpoint connect_loop (retries : nat) (answers : list Attempt) (log : StartLog)
  : Result bool * StartLog :=
  match retries with
  | O =>
      (Ok false,
       {| infos := infos log; retry_errors := retry_errors log;
          criticals := S (criticals log); slept := slept log |})
  | S retries' =>
      match answers with
      | SelectionTimeout :: rest =>
          connect_loop retries' rest
            {| infos := infos log; retry_errors := S (retry_errors log);
               criticals := criticals log; slept := slept log + 5 |}
      | OtherFailure :: _ => (Raised PyMongoError, log)
      | _ =>
          (Ok true,
           {| infos := S (infos log); retry_errors := retry_errors log;
              criticals := criticals log; slept := slept log |})
      end
  end.

Definition connect_mongo (answers : list Attempt) : Result bool * StartLog :=
  connect_loop 5 answers no_log.

(** What a ping of the hosting URL meets: a response with a status, or
    an exception. *)
Inductive Ping :=
| Status (code : Z)
| PingFailed.

Record AwakeLog := {
  waits : list Z;        (* the seconds of each asyncio.sleep, in order *)
  ping_warnings : nat;   (* logging.warning *)
  ping_errors : nat;     (* logging.error *)
  gave_up : bool         (* logging.critical *)
}.

Definition no_wait : AwakeLog :=
  {| waits := []; ping_warnings := 0; ping_errors := 0; gave_up := false |}.

(** The [for attempt in range(max_retries)] loop of [keep_awake]. *)
Fixpoint awake_loop (attempts : nat) (retry_delay : Z) (pings : list Ping) (log : AwakeLog)
  : AwakeLog :=
  match attempts with
  | O =>
      {| waits := waits log; ping_warnings := ping_warnings log;
         ping_errors := ping_errors log; gave_up := true |}
  | S attempts' =>
      let after (warned failed : nat) (rest : list Ping) :=
        awake_loop attempts' (Z.min (retry_delay * 2) 300) rest
          {| waits := waits log ++ [ retry_delay ];
             ping_warnings := ping_warnings log + warned;
             ping_errors := ping_errors log + failed;
             gave_up := gave_up log |} in
      match pings with
      | [] => log
      | Status code :: rest => if code =? 200 then log else after 1%nat 0%nat rest
      | PingFailed :: rest => after 0%nat 1%nat rest
      end
  end.

Definition keep_awake (pings : list Ping) : AwakeLog := awake_loop 5 10 pings no_wait.

(** A ping that does not wake: no response, or a status other than
    200. *)
Definition unanswered (p : Ping) : bool :=
  match p with
  | Status code => negb (code =? 200)
  | PingFailed => true
  end.

(** The delays of [attempts] failed pings in a row, from [retry_delay]
    on. *)
Fixpoint delays (attempts : nat) (retry_delay : Z) : list Z :=
  match attempts with
  | O => []
  | S attempts' => retry_delay :: delays attempts' (Z.min (retry_delay * 2) 300)
  end.

(** ** More vocabulary for the normaliser *)

(** The square brackets of a string, in their order. *)
Definition brackets (s : str) : str := List.filter is_bracket s.

(** ** More worked examples *)

(** A desk where nothing has been said yet. *)
Definition at_desk (w : World) : Desk := {| world := w; replies := [] |}.

(** A button pressed by [user], in chat 1. *)
Definition press (user : Z) (data : str) : Update := button_update 1 user data.

(** User 7, who is no admin, has sent a file and then a poster: the
    movie is stored. *)
Definition one_movie : World :=
  example_run empty_world
    [ ReceiveDocument 7 (lit "file-1") (lit "Movie 2021.mkv");
      ReceiveImage 7 (lit "poster") 640 960 ].

(** The record of that movie. *)
Definition the_movie : MovieRecord :=
  {| movie_id := 0; name := lit "Movie (2021)";
     documents := [ {| file_id := lit "file-1"; file_name := lit "Movie (2021)" |} ];
     movie_image := Some {| image_file_id := lit "poster"; width := 640; height := 960 |};
     oid := 1 |}.

(** A photo message with two sizes, in the storage group. *)
Definition thumbnail : PhotoSize :=
  {| photo_file_id := lit "small"; photo_width := 90; photo_height := 60 |}.

Definition full_size : PhotoSize :=
  {| photo_file_id := lit "large"; photo_width := 1280; photo_height := 853 |}.

Definition two_sizes : Update :=
  {| effective_chat := 100; effective_user := 7;
     message := Some {| document := None; photo := [ thumbnail; full_size ]; text := None |};
     callback_query := None |}.

(** In the examples the text of a uuid is the decimal text of its
    token. *)
Definition example_uuid (i : nat) : str := py_str (Z.of_nat i).

(** * Properties of the upload session *)

Ltac run_monad :=
  unfold exec, outcome, mbind, M_bind, mret, M_ret, try_except, raise, gets, modify,
    reply_text, send, insert_one, db_call, new_token, logging_error,
    send_preview_to_group in *;
  cbn [fst snd upload_sessions delete_sessions collection sent errors_logged fresh
       db_faults tx_faults set_upload set_delete set_collection set_sent
       set_errors_logged set_fresh set_db_faults set_tx_faults] in *.

Arguments check_and_save_movie : simpl never.

Lemma data_edit : bool_decide (lit "edit_name" = lit "edit_name") = true.
Proof. vm_compute. reflexivity. Qed.

Lemma data_continue_edit : bool_decide (lit "continue_name" = lit "edit_name") = false.
Proof. vm_compute. reflexivity. Qed.

Lemma data_continue : bool_decide (lit "continue_name" = lit "continue_name") = true.
Proof. vm_compute. reflexivity. Qed.

Section UploadSessionFacts.
Context (db : UnicodeDB) (STORAGE_GROUP_ID SEARCH_GROUP_ID : Z) (ADMIN_IDS : gset Z).

Local Abbreviation check := (check_and_save_movie SEARCH_GROUP_ID).
Local Abbreviation step' := (step db STORAGE_GROUP_ID SEARCH_GROUP_ID ADMIN_IDS).

(** Completion evaluation, case by case. *)
Lemma check_and_save_movie_cases user update w :
  let w' := exec (check user update) w in
  delete_sessions w' = delete_sessions w /\
  match upload_sessions w !! user with
  | Some s =>
      if complete s then
        if db_ok w then
          exists r, collection w' = collection w ++ [r] /\ record_of s r /\
            (upload_sessions w' = upload_sessions w \/
             upload_sessions w' = delete user (upload_sessions w))
        else collection w' = collection w /\ upload_sessions w' = upload_sessions w
      else w' = w
  | None => w' = w
  end.
Proof.
  destruct w as [us ds col snt el fr dbf txf].
  unfold check_and_save_movie, db_ok, complete. run_monad.
  destruct (us !! user) as [s|] eqn:Hs; cbn; [|done].
  destruct (truthy_files (files s) && truthy_image (image s)
            && truthy_name (movie_name s)) eqn:Hc; cbn; [|done].
  assert (Hn : movie_name s = Some (default [] (movie_name s))).
  { destruct (movie_name s) as [[|]|]; cbn in *;
      rewrite ?andb_false_r in Hc; done. }
  destruct dbf as [|[] dbf]; cbn.
  all: destruct (message update); cbn.
  all: destruct txf as [|[] txf]; cbn.
  all: try (destruct (bool_decide (SEARCH_GROUP_ID = 0)); cbn).
  all: try (destruct txf as [|[] ?]; cbn).
  all: split; [done|].
  all: try (eexists; split; [reflexivity|]; split; [|by auto]).
  all: try done.
Qed.

(** The collection only grows, by at most the one record of the session. *)
Lemma check_and_save_movie_collection user update w :
  let w' := exec (check user update) w in
  (collection w' <> collection w <->
   exists s, upload_sessions w !! user = Some s /\ complete s = true /\ db_ok w = true).
Proof.
  intros w'. destruct (check_and_save_movie_cases user update w) as [_ H].
  fold w' in H.
  destruct (upload_sessions w !! user) as [s|].
  2:{ rewrite H. split; [done | intros (? & ? & _); done]. }
  destruct (complete s) eqn:Hc.
  2:{ rewrite H. split; [done | intros (? & ? & ? & _); congruence]. }
  destruct (db_ok w) eqn:Hd.
  - destruct H as (r & -> & _). split; [eauto|].
    intros _ Heq. apply (f_equal length) in Heq. rewrite length_app in Heq.
    cbn in Heq. lia.
  - destruct H as [-> _]. split; [done | intros (? & ? & ? & ?); congruence].
Qed.

Lemma check_and_save_movie_growth user update w :
  let w' := exec (check user update) w in
  (collection w' <> collection w <->
     exists s, upload_sessions w !! user = Some s /\ complete s = true /\ db_ok w = true)
  /\ (collection w' = collection w \/
      exists s r, upload_sessions w !! user = Some s /\ complete s = true /\
                  record_of s r /\ collection w' = collection w ++ [r]).
Proof.
  intros w'. split; [apply check_and_save_movie_collection|].
  destruct (check_and_save_movie_cases user update w) as [_ H].
  fold w' in H.
  destruct (upload_sessions w !! user) as [s|]; [|left; by rewrite H].
  destruct (complete s) eqn:Hc; [|left; by rewrite H].
  destruct (db_ok w).
  - destruct H as (r & ? & ? & _). right. eauto 6.
  - left. apply H.
Qed.

Ltac no_evaluation :=
  split; [split; [intros H; by destruct H | intros [? _]; done] | by left].

Ltac by_check :=
  match goal with
  | |- context [ (check_and_save_movie ?sg ?u ?upd ?wm).2 ] =>
      let HC := fresh "HC" in
      let HC1 := fresh "HC" in
      let HC2 := fresh "HC" in
      pose proof (check_and_save_movie_growth u upd wm) as HC;
      unfold exec, db_ok in HC;
      cbn [upload_sessions delete_sessions collection sent errors_logged fresh
           db_faults tx_faults set_upload set_delete set_collection set_sent
           set_errors_logged set_fresh set_db_faults set_tx_faults] in HC;
      rewrite ?lookup_insert_eq in HC;
      destruct HC as [HC1 HC2];
      split;
      [ rewrite HC1; clear; split;
        [ intros (s & ? & ? & ?); eauto 10 | intros (_ & (s & ? & ?) & ?); eauto 10 ]
      | destruct HC2 as [HC2 | (s & r & ? & ? & ? & ?)]; [by left | right; eauto 10] ]
  end.

(** C1, as amended.  With a transport that delivers, an operation
    inserts a record if and only if it evaluates completion and, at that
    moment, the session has files, an image and a non-empty name, and
    the insert goes through.  The edit flag is not part of the test: it
    only decides whether a photo of an admin evaluates at all.  An
    operation inserts at most one record, the one of the session. *)
Theorem persisted_iff_complete_when_evaluated w o :
  tx_faults w = [] ->
  let before := upload_sessions w !! user_of o in
  let w' := step' w o in
  (collection w' <> collection w <->
     evaluates ADMIN_IDS o before = true /\
     (exists s, after_mutation db o before = Some s /\ complete s = true) /\
     db_ok w = true)
  /\ (collection w' = collection w \/
      exists s r, after_mutation db o before = Some s /\ record_of s r /\
                  collection w' = collection w ++ [r]).
Proof.
  intros Htx before w'. subst before w'.
  destruct w as [us ds col snt el fr dbf txf]. cbn in Htx. subst txf.
  unfold db_ok. cbn [db_faults].
  destruct o as [u f raw|u f pw ph|u|u|u t];
    unfold step, handle, update_of, message_update, button_update;
    cbn [user_of after_mutation evaluates].
  - unfold add_movie.
    cbn [effective_chat effective_user message document doc_file_name doc_file_id].
    rewrite bool_decide_eq_true_2 by done. cbn [negb].
    run_monad.
    destruct (us !! u) as [s0|] eqn:Hs0; rewrite ?Hs0, ?lookup_insert_eq; cbn [default].
    all: destruct (bool_decide (u ∈ ADMIN_IDS)) eqn:Hadm; cbn.
    all: try no_evaluation.
    all: by_check.
  - unfold add_movie.
    cbn [effective_chat effective_user message document photo largest_photo_from
         photo_file_id photo_width photo_height].
    rewrite bool_decide_eq_true_2 by done. cbn [negb].
    run_monad.
    destruct (us !! u) as [s0|] eqn:Hs0; rewrite ?Hs0, ?lookup_insert_eq; cbn [default].
    all: destruct (bool_decide (u ∈ ADMIN_IDS)) eqn:Hadm; cbn.
    all: try destruct (awaiting_name_edit s0) eqn:Haw; cbn.
    all: try no_evaluation.
    all: by_check.
  - unfold name_decision_handler. cbn [callback_query effective_user].
    rewrite ?data_edit, ?data_continue_edit, ?data_continue.
    run_monad. cbn.
    destruct (us !! u) as [s0|] eqn:Hs0; cbn.
    all: no_evaluation.
  - unfold name_decision_handler. cbn [callback_query effective_user].
    rewrite ?data_edit, ?data_continue_edit, ?data_continue.
    run_monad. cbn.
    destruct (us !! u) as [s0|] eqn:Hs0; cbn.
    2: no_evaluation.
    by_check.
  - unfold text_handler. cbn [effective_chat effective_user message text].
    rewrite bool_decide_eq_true_2 by done. cbn [negb].
    run_monad.
    destruct (us !! u) as [s0|] eqn:Hs0; cbn.
    2: no_evaluation.
    destruct (awaiting_name_edit s0) eqn:Haw; cbn.
    2: no_evaluation.
    by_check.
Qed.

(** Completion evaluation either changes neither the collection nor
    the sessions, or appends the record of the complete session. *)
Lemma check_and_save_movie_effects user update w :
  let w' := exec (check user update) w in
  (collection w' = collection w /\ upload_sessions w' = upload_sessions w)
  \/ (exists s r, upload_sessions w !! user = Some s /\ complete s = true /\
        record_of s r /\ collection w' = collection w ++ [r] /\
        (upload_sessions w' = upload_sessions w \/
         upload_sessions w' = delete user (upload_sessions w))).
Proof.
  intros w'. destruct (check_and_save_movie_cases user update w) as [_ H].
  fold w' in H.
  destruct (upload_sessions w !! user) as [s|]; [|left; by rewrite H].
  destruct (complete s) eqn:Hc; [|left; by rewrite H].
  destruct (db_ok w).
  - destruct H as (r & ? & ? & ?). right. eauto 8.
  - left. apply H.
Qed.

Lemma complete_record_named s r :
  complete s = true -> record_of s r -> name r <> [].
Proof.
  unfold complete, record_of. intros Hc (Hn & _) Hr.
  rewrite Hn, Hr in Hc. cbn in Hc. by rewrite andb_false_r in Hc.
Qed.

Ltac by_effects u0 :=
  match goal with
  | |- context [ (check_and_save_movie ?sg ?u ?upd ?wm).2 ] =>
      let HC := fresh "HC" in
      pose proof (check_and_save_movie_effects u upd wm) as HC;
      unfold exec in HC;
      cbn [upload_sessions delete_sessions collection sent errors_logged fresh
           db_faults tx_faults set_upload set_delete set_collection set_sent
           set_errors_logged set_fresh set_db_faults set_tx_faults] in HC;
      destruct HC as [[HC HC'] | (s & r & _ & ? & ? & HC & _)];
      [ left; split; [exact HC|]; rewrite HC'; intros u0 Hu0;
        destruct (decide (u = u0)) as [->|];
        rewrite ?lookup_insert_eq, ?lookup_insert_ne by done; eauto;
        repeat match goal with H : _ !! _ = _ |- _ => rewrite H end;
        rewrite ?lookup_insert_ne by done; eauto
      | right; eauto 8 ]
  end.

Ltac untouched u0 :=
  left; split; [done|]; intros u0 Hu0;
  match goal with
  | |- context [ <[?u := _]> _ !! u0 ] =>
      destruct (decide (u = u0)) as [->|];
      rewrite ?lookup_insert_eq, ?lookup_insert_ne by done; eauto;
      repeat match goal with H : _ !! _ = _ |- _ => rewrite H end;
      rewrite ?lookup_insert_ne by done; eauto
  | _ => done
  end.

(** Whatever the transport and the store do, an operation either leaves
    the collection alone and destroys no session, or appends the record
    of a complete session. *)
Lemma step_cases w o :
  let w' := step' w o in
  (collection w' = collection w /\
   forall u, is_Some (upload_sessions w !! u) -> is_Some (upload_sessions w' !! u))
  \/ (exists s r, complete s = true /\ record_of s r /\
        collection w' = collection w ++ [r]).
Proof.
  intros w'. subst w'.
  destruct w as [us ds col snt el fr dbf txf].
  destruct o as [u f raw|u f pw ph|u|u|u t];
    unfold step, handle, update_of, message_update, button_update.
  - unfold add_movie.
    cbn [effective_chat effective_user message document doc_file_name doc_file_id].
    rewrite bool_decide_eq_true_2 by done. cbn [negb].
    run_monad.
    destruct (us !! u) as [s0|] eqn:Hs0; rewrite ?Hs0, ?lookup_insert_eq; cbn [default].
    all: destruct (bool_decide (u ∈ ADMIN_IDS)) eqn:Hadm; cbn.
    all: destruct txf as [|[] txf]; cbn.
    all: first [ by_effects u0 | untouched u0 ].
  - unfold add_movie.
    cbn [effective_chat effective_user message document photo largest_photo_from
         photo_file_id photo_width photo_height].
    rewrite bool_decide_eq_true_2 by done. cbn [negb].
    run_monad.
    destruct (us !! u) as [s0|] eqn:Hs0; rewrite ?Hs0, ?lookup_insert_eq; cbn [default].
    all: destruct (bool_decide (u ∈ ADMIN_IDS)) eqn:Hadm; cbn.
    all: try destruct (awaiting_name_edit s0) eqn:Haw; cbn.
    all: destruct txf as [|[] txf]; cbn.
    all: first [ by_effects u0 | untouched u0 ].
  - unfold name_decision_handler. cbn [callback_query effective_user].
    rewrite ?data_edit, ?data_continue_edit, ?data_continue.
    run_monad. cbn.
    destruct txf as [|[] [|[] txf]]; cbn.
    all: destruct (us !! u) as [s0|] eqn:Hs0; cbn.
    all: untouched u0.
  - unfold name_decision_handler. cbn [callback_query effective_user].
    rewrite ?data_edit, ?data_continue_edit, ?data_continue.
    run_monad. cbn.
    destruct txf as [|[] [|[] txf]]; cbn.
    all: destruct (us !! u) as [s0|] eqn:Hs0; cbn.
    all: first [ by_effects u0 | untouched u0 ].
  - unfold text_handler. cbn [effective_chat effective_user message text].
    rewrite bool_decide_eq_true_2 by done. cbn [negb].
    run_monad.
    destruct (us !! u) as [s0|] eqn:Hs0; cbn.
    2: untouched u0.
    destruct (awaiting_name_edit s0) eqn:Haw; cbn.
    2: untouched u0.
    destruct txf as [|[] txf]; cbn.
    all: first [ by_effects u0 | untouched u0 ].
Qed.

(** A session is destroyed by an operation only if that operation
    stored a record. *)
Lemma session_destroyed_only_on_insert w o u :
  is_Some (upload_sessions w !! u) ->
  upload_sessions (step' w o) !! u = None ->
  exists r, collection (step' w o) = collection w ++ [r].
Proof.
  intros Hu Hnone. destruct (step_cases w o) as [[_ H] | (s & r & _ & _ & ?)].
  - apply H in Hu. rewrite Hnone in Hu. by destruct Hu.
  - eauto.
Qed.

(** When the insert fails, completion evaluation changes neither the
    sessions nor the collection, and answers a message with the failure
    notice. *)
Lemma failed_insert_keeps_session user update w :
  db_ok w = false ->
  let w' := exec (check user update) w in
  upload_sessions w' = upload_sessions w /\ collection w' = collection w /\
  (forall s, upload_sessions w !! user = Some s -> complete s = true ->
     is_Some (message update) ->
     exists delivered, sent w' = sent w ++ [(FailedToAdd, delivered)]).
Proof.
  intros Hdb w'. subst w'.
  destruct w as [us ds col snt el fr dbf txf].
  unfold db_ok in Hdb. cbn in Hdb. destruct dbf as [|[] dbf]; try done.
  unfold check_and_save_movie, complete. run_monad.
  destruct (us !! user) as [s|] eqn:Hs; cbn; [|done].
  destruct (truthy_files (files s) && truthy_image (image s)
            && truthy_name (movie_name s)) eqn:Hc; cbn.
  2:{ split; [done|]. split; [done|]. intros s' [= <-]. congruence. }
  destruct (message update); cbn.
  all: destruct txf as [|[] txf]; cbn.
  all: split; [done|]; split; [done|]; intros s' _ _ Hm; try by destruct Hm.
  all: eauto.
Qed.

End UploadSessionFacts.

(** C1, as the specification states it, fails: user 7 is not an admin,
    has sent a file and pressed Edit, so an edit is pending and the
    session is not ready in the sense of the specification; the photo
    that follows evaluates completion all the same and the record is
    stored. *)
Lemma persisted_while_edit_pending :
  (exists s, upload_sessions file_then_edit !! 7 = Some s /\
             awaiting_name_edit s = true /\
             forall f w h,
               (ready_to_persist <$>
                  after_mutation unicode_excerpt (ReceiveImage 7 f w h) (Some s))
               = Some false) /\
  collection file_then_edit = [] /\
  exists r,
    collection (example_step file_then_edit (ReceiveImage 7 (lit "poster") 640 960)) = [r].
Proof.
  split.
  - eexists. split; [vm_compute; reflexivity|]. split; [reflexivity|].
    intros f w h. reflexivity.
  - split; [vm_compute; reflexivity|]. eexists. vm_compute. reflexivity.
Qed.

(** C3 at the failing input.  The admin has sent the poster and the
    file; pressing Continue stores the record, and the session is still
    there: [update.message] is None for a button press, the confirmation
    raises before the session is deleted.  A second press stores the
    same movie again. *)
Lemma continue_stores_and_keeps_session :
  let w := example_step poster_then_file (ConfirmName 1) in
  upload_sessions poster_then_file !! 1 = Some poster_then_file_session /\
  (exists r, collection w = [r] /\ record_of poster_then_file_session r) /\
  upload_sessions w !! 1 = Some poster_then_file_session /\
  outcome (example_handle (ConfirmName 1)) poster_then_file = Raised AttributeError /\
  length (collection (example_step w (ConfirmName 1))) = 2%nat.
Proof.
  cbv zeta. split; [vm_compute; reflexivity|].
  split; [eexists; split; [vm_compute; reflexivity | by vm_compute]|].
  split; [vm_compute; reflexivity|].
  split; vm_compute; reflexivity.
Qed.

(** The same with a message and a transport failure: the photo of user
    7 completes the session, the insert succeeds, the confirmation is
    not delivered; the user is told the movie was not added and the
    session stays. *)
Lemma undelivered_confirmation_keeps_session :
  let w0 := example_run empty_world [ ReceiveDocument 7 (lit "file-1") (lit "Movie 2021.mkv") ] in
  let w := example_step (set_tx_faults (fun _ => [true; false]) w0)
             (ReceiveImage 7 (lit "poster") 640 960) in
  length (collection w) = 1%nat /\
  is_Some (upload_sessions w !! 7) /\
  last (sent w) = Some (FailedToAdd, true).
Proof.
  cbv zeta. split; [vm_compute; reflexivity|].
  split; [eexists; vm_compute; reflexivity | vm_compute; reflexivity].
Qed.

(** C2 at the failing input.  The complete session of the admin, the
    store refuses the insert, the admin presses Continue: the session is
    intact, but no failure notice is sent, the handler raises. *)
Lemma continue_without_failure_notice :
  let w := set_db_faults (fun _ => [false]) poster_then_file in
  let w' := example_step w (ConfirmName 1) in
  upload_sessions w' = upload_sessions w /\
  collection w' = collection w /\
  sent w' = sent w ++ [ (CallbackAnswered, true);
                         (NameConfirmed (Some (lit "Movie (2021)")), true) ] /\
  outcome (example_handle (ConfirmName 1)) w = Raised AttributeError.
Proof.
  cbv zeta. split; [vm_compute; reflexivity|].
  split; [vm_compute; reflexivity|].
  split; vm_compute; reflexivity.
Qed.

Lemma persisted_iff_complete_when_evaluated_witness :
  tx_faults file_then_edit = [] /\
  collection (example_step file_then_edit (ReceiveImage 7 (lit "poster") 640 960))
  <> collection file_then_edit.
Proof.
  split; [reflexivity|].
  apply (persisted_iff_complete_when_evaluated unicode_excerpt 100 200 {[ 1 ]}
           file_then_edit (ReceiveImage 7 (lit "poster") 640 960)).
  - reflexivity.
  - split; [vm_compute; reflexivity|].
    split; [|vm_compute; reflexivity].
    eexists. split; [vm_compute; reflexivity | vm_compute; reflexivity].
Defined.

Section EmptyName.
Context (db : UnicodeDB) (STORAGE_GROUP_ID SEARCH_GROUP_ID : Z) (ADMIN_IDS : gset Z).

Local Abbreviation check := (check_and_save_movie SEARCH_GROUP_ID).
Local Abbreviation step' := (step db STORAGE_GROUP_ID SEARCH_GROUP_ID ADMIN_IDS).

(** The first file of a session names it, also with an empty name. *)
Lemma first_file_names_session w u f raw :
  upload_sessions w !! u = None ->
  exists s, after_mutation db (ReceiveDocument u f raw) (upload_sessions w !! u) = Some s
            /\ movie_name s = Some (clean_filename db raw).
Proof. intros ->. cbn. eauto. Qed.

(** C10.  A session whose name is the empty string is not complete:
    evaluating completion on it does nothing.  The next file names it,
    as if no name had been set.  And every record an operation stores
    has a non-empty name. *)
Theorem empty_name_is_unset w u s :
  upload_sessions w !! u = Some s ->
  movie_name s = Some [] ->
  (forall update, exec (check u update) w = w) /\
  (forall f raw,
     let w' := step' w (ReceiveDocument u f raw) in
     (exists s', upload_sessions w' !! u = Some s' /\
                 movie_name s' = Some (clean_filename db raw))
     \/ (upload_sessions w' !! u = None /\
         exists r, collection w' = collection w ++ [r] /\
                   name r = clean_filename db raw)) /\
  (forall w0 o r,
     r ∈ collection (step' w0 o) -> r ∈ collection w0 \/ name r <> []).
Proof.
  intros Hs Hn. split; [|split].
  - intros update.
    destruct (check_and_save_movie_cases SEARCH_GROUP_ID u update w) as [_ H].
    assert (Hc : complete s = false).
    { unfold complete. rewrite Hn. cbn. apply andb_false_r. }
    cbv zeta in H. by rewrite Hs, Hc in H.
  - intros f raw w'. subst w'.
    destruct w as [us ds col snt el fr dbf txf]. cbn in Hs.
    unfold step, handle, update_of, message_update, add_movie.
    cbn [effective_chat effective_user message document doc_file_name doc_file_id].
    rewrite bool_decide_eq_true_2 by done. cbn [negb].
    run_monad. rewrite Hs. cbn beta iota. rewrite Hs. cbn [default].
    destruct (bool_decide (u ∈ ADMIN_IDS)); cbn.
    all: destruct txf as [|[] txf]; cbn.
    all: rewrite ?Hn; cbn [truthy_name].
    all: try (left; rewrite lookup_insert_eq; by eauto).
    all: match goal with
         | |- context [ (check_and_save_movie ?sg ?u ?upd ?wm).2 ] =>
             pose proof (check_and_save_movie_effects sg u upd wm) as HC;
             unfold exec in HC;
             cbn [upload_sessions collection set_upload set_sent set_tx_faults] in HC;
             rewrite lookup_insert_eq in HC
         end.
    all: destruct HC as [[_ ->] | (s' & r & [= <-] & _ & (Hr & _) & Hcol & [-> | ->])].
    all: rewrite ?lookup_insert_eq, ?lookup_delete_eq.
    all: try (left; by eauto).
    all: right; split; [done|]; exists r; split; [done|]; cbn in Hr; congruence.
  - intros w0 o r Hr.
    destruct (step_cases db STORAGE_GROUP_ID SEARCH_GROUP_ID ADMIN_IDS w0 o)
      as [[Hcol _] | (s' & r' & Hc & Hrec & Hcol)].
    + left. by rewrite <- Hcol.
    + rewrite Hcol in Hr. apply elem_of_app in Hr as [Hr | Hr]; [by left|].
      apply list_elem_of_singleton in Hr as ->. right.
      by eapply complete_record_named.
Qed.

End EmptyName.

Lemma empty_name_is_unset_witness :
  upload_sessions nameless_file !! 7
  = Some {| files := [ {| file_id := lit "file-1"; file_name := [] |} ];
            image := None; movie_name := Some []; awaiting_name_edit := false |} /\
  forall update, exec (check_and_save_movie 200 7 update) nameless_file = nameless_file.
Proof.
  split; [vm_compute; reflexivity|].
  eapply (empty_name_is_unset unicode_excerpt 100 200 {[ 1 ]} nameless_file 7).
  - vm_compute. reflexivity.
  - reflexivity.
Defined.

(** * Properties of the delete session *)

Lemma str_leb_total a b : str_leb a b = true \/ str_leb b a = true.
Proof.
  revert b. induction a as [|x a IH]; intros [|y b]; cbn; auto.
  destruct (N.ltb_spec x y); cbn; auto.
  destruct (N.ltb_spec y x); cbn; auto.
  assert (x = y) as -> by lia. rewrite N.eqb_refl. cbn. apply IH.
Qed.

#[global] Instance name_le_total : Total name_le.
Proof.
  intros a b. unfold name_le.
  destruct (str_leb_total (name a) (name b)) as [-> | ->]; cbn; auto.
Qed.

Lemma sort_by_name_sorted l : Sorted name_le (sort_by_name l).
Proof. apply Sorted_merge_sort, _. Qed.

Lemma sort_by_name_permutation l : sort_by_name l ≡ₚ l.
Proof. apply merge_sort_Permutation. Qed.

Lemma numbered_numbers n l :
  (numbered n l).*1 = seqZ n (Z.of_nat (length l)).
Proof.
  revert n. induction l as [|m l IH]; intros n; cbn [numbered length fmap list_fmap].
  - by rewrite seqZ_nil.
  - rewrite seqZ_cons by lia. cbn. f_equal. rewrite IH. f_equal; lia.
Qed.

Lemma numbered_names n l : (numbered n l).*2 = name <$> l.
Proof.
  revert n. induction l as [|m l IH]; intros n; cbn; [done|]. by rewrite IH.
Qed.

Section DeleteSessionFacts.
Context (db : UnicodeDB) (ADMIN_IDS : gset Z).

(** C8.  An admin reaches page [p >= 1], by a /list message (no argument
    stands for page 1) or by a button (Previous, Next, Confirm: the
    update carries no message then and the listing is edited in place),
    and the store and the transport answer.  The page is the slice of
    the name-sorted collection from [skip = (p - 1) * PAGE_SIZE], at most
    PAGE_SIZE long, numbered from [skip + 1]; it is cached with [p].
    Previous is offered iff [p > 1], Next iff [skip + PAGE_SIZE < total].
    With 25 records, page 1 is records 1 to 10 with Next only, page 3 is
    records 21 to 25 with Previous only. *)
Theorem list_movies_page w update args p :
  effective_user update ∈ ADMIN_IDS ->
  is_Some (message update) \/ is_Some (callback_query update) ->
  match args with a :: _ => py_int db a | [] => Some 1 end = Some p ->
  1 <= p ->
  db_faults w = [] ->
  tx_faults w = [] ->
  let skip := (p - 1) * PAGE_SIZE in
  let total := Z.of_nat (length (collection w)) in
  let sorted := sort_by_name (collection w) in
  let shown := take (Z.to_nat PAGE_SIZE) (drop (Z.to_nat skip) sorted) in
  let w' := exec (list_movies db ADMIN_IDS update args) w in
  outcome (list_movies db ADMIN_IDS update args) w = Ok tt /\
  (Sorted name_le sorted /\ sorted ≡ₚ collection w) /\
  delete_sessions w' !! effective_user update
    = Some {| page := p; movies := shown; selected := None |} /\
  (exists previous next,
     sent w' = sent w ++
       [ (Listing (match shown with
                   | [] => None
                   | _ => Some (total, numbered (skip + 1) shown)
                   end) previous next, true) ] /\
     (numbered (skip + 1) shown).*1 = seqZ (skip + 1) (Z.of_nat (length shown)) /\
     (numbered (skip + 1) shown).*2 = name <$> shown /\
     (previous = if 1 <? p then Some (p - 1) else None) /\
     (next = if skip + PAGE_SIZE <? total then Some (p + 1) else None) /\
     (is_Some previous <-> 1 < p) /\
     (is_Some next <-> skip + PAGE_SIZE < total) /\
     (total = 25 -> p = 1 ->
        shown = take 10 sorted /\ length shown = 10%nat /\
        (numbered (skip + 1) shown).*1 = seqZ 1 10 /\
        previous = None /\ next = Some 2) /\
     (total = 25 -> p = 3 ->
        shown = drop 20 sorted /\ length shown = 5%nat /\
        (numbered (skip + 1) shown).*1 = seqZ 21 5 /\
        previous = Some 2 /\ next = None)).
Proof.
  intros Hadmin Hupd Ha Hp Hdb Htx skip total sorted shown w'.
  assert (Hlen : length sorted = length (collection w)).
  { apply Permutation_length, sort_by_name_permutation. }
  subst w'. destruct w as [us ds col snt el fr dbf txf]. cbn in Hdb, Htx. subst dbf txf.
  unfold list_movies. rewrite bool_decide_eq_true_2 by done. cbn [negb].
  destruct args as [|a rest];
    [injection Ha as Ha; replace (mret 1 : M Z) with (mret p : M Z) by (by rewrite Ha)
    |rewrite Ha].
  all: destruct (message update) as [m|] eqn:Hm;
    [|destruct (callback_query update) as [q|] eqn:Hq;
      [|by destruct Hupd as [[? ?]|[? ?]]]].
  all: run_monad; cbn.
  all: fold skip; destruct (Z.ltb_spec skip 0) as [Hneg|_];
    [unfold skip, PAGE_SIZE in Hneg; lia|].
  all: cbn; fold sorted; change (take 10 (drop (Z.to_nat skip) sorted)) with shown.
  all: split; [done|].
  all: split; [split; [apply sort_by_name_sorted | apply sort_by_name_permutation]|].
  all: split; [by rewrite lookup_insert_eq|].
  all: eexists _, _; split; [reflexivity|].
  all: split; [apply numbered_numbers|]; split; [apply numbered_names|].
  all: split; [reflexivity|]; split; [reflexivity|].
  all: fold total.
  all: split; [destruct (Z.ltb_spec 1 p) as [Hlt|Hge]; split; intros Hx;
          try done; try lia; by destruct Hx|].
  all: split; [destruct (Z.ltb_spec (skip + PAGE_SIZE) total) as [Hlt|Hge]; split; intros Hx;
          try done; try lia; by destruct Hx|].
  all: cbn in Hlen; unfold total in *; cbn [collection] in *.
  all: split; intros Htot ->.
  all: try (assert (shown = take 10 sorted) as Hshown by reflexivity;
    assert (length shown = 10%nat) as Hl by (rewrite Hshown, length_take; lia);
    split; [done|]; split; [done|]; rewrite numbered_numbers, Hl;
    split; [done|]; split; [done|];
    unfold skip, PAGE_SIZE;
    by destruct (Z.ltb_spec ((1 - 1) * 10 + 10) (Z.of_nat (length col))); [|lia]).
  all: assert (shown = drop 20 sorted) as Hshown
    by (change shown with (take 10 (drop 20 sorted)); apply take_ge; rewrite length_drop; lia).
  all: assert (length shown = 5%nat) as Hl by (rewrite Hshown, length_drop; lia).
  all: split; [done|]; split; [done|]; rewrite numbered_numbers, Hl.
  all: split; [done|]; split; [done|].
  all: unfold skip, PAGE_SIZE.
  all: by destruct (Z.ltb_spec ((3 - 1) * 10 + 10) (Z.of_nat (length col))); [lia|].
Qed.

(** What [delete_by_number] does with a text, for an admin with a cached
    page and a transport that delivers. *)
Lemma delete_by_number_cases w update m t session :
  effective_user update ∈ ADMIN_IDS ->
  message update = Some m ->
  text m = Some t ->
  t <> [] ->
  delete_sessions w !! effective_user update = Some session ->
  tx_faults w = [] ->
  let user := effective_user update in
  let w' := exec (delete_by_number db ADMIN_IDS update) w in
  let res := outcome (delete_by_number db ADMIN_IDS update) w in
  if isdigit db (strip_ws db t) then
    match py_int db (strip_ws db t) with
    | Some n =>
        if (1 <=? n) && (n <=? Z.of_nat (length (movies session))) then
          exists movie,
            movies session !! Z.to_nat (n - 1) = Some movie /\
            delete_sessions w' = <[user := {| page := page session;
                                              movies := movies session;
                                              selected := Some movie |}]> (delete_sessions w) /\
            sent w' = sent w ++ [(ConfirmDelete movie (page session), true)]
        else
          delete_sessions w' = delete_sessions w /\
          sent w' = sent w ++ [(InvalidNumber, true)]
    | None => res = Raised ValueError /\ w' = w
    end
  else
    delete_sessions w' = delete_sessions w /\
    sent w' = sent w ++ [(ValidNumberPlease, true)].
Proof.
  intros Hadmin Hm Ht Hne Hs Htx user w' res. subst user w' res.
  destruct w as [us ds col snt el fr dbf txf]. cbn in Hs, Htx. subst txf.
  unfold delete_by_number. rewrite bool_decide_eq_true_2 by done. cbn [negb].
  rewrite Hm, Ht. destruct t as [|c t]; [done|].
  run_monad. rewrite Hs. cbn beta iota.
  destruct (isdigit db (strip_ws db (c :: t))); cbn [negb].
  2:{ rewrite Hm. by cbn. }
  destruct (py_int db (strip_ws db (c :: t))) as [n|]; [|done].
  destruct (Z.ltb_spec (n - 1) 0) as [Hlo|Hlo]; cbn [orb].
  { destruct (Z.leb_spec 1 n); [lia|]. cbn [andb]. rewrite Hm. by cbn. }
  destruct (Z.leb_spec 1 n); [|lia]. cbn [andb].
  destruct (Z.leb_spec (Z.of_nat (length (movies session))) (n - 1)) as [Hhi|Hhi].
  { destruct (Z.leb_spec n (Z.of_nat (length (movies session)))); [lia|].
    rewrite Hm. by cbn. }
  destruct (Z.leb_spec n (Z.of_nat (length (movies session)))); [|lia].
  destruct (movies session !! Z.to_nat (n - 1)) as [movie|] eqn:Hmv.
  2:{ apply lookup_ge_None in Hmv. lia. }
  cbn. rewrite Hm. cbn. eauto.
Qed.

End DeleteSessionFacts.

Lemma list_movies_page_witness :
  (1 : Z) ∈ ({[ 1 ]} : gset Z) /\
  py_int unicode_excerpt (lit "3") = Some 3 /\
  delete_sessions
    (exec (list_movies unicode_excerpt {[ 1 ]} (button_update 1 1 (page_data 3)) [lit "3"])
       library) !! 1
  = Some {| page := 3;
            movies := take 10 (drop 20 (sort_by_name twenty_five_movies));
            selected := None |}.
Proof.
  split; [by apply elem_of_singleton|]. split; [vm_compute; reflexivity|].
  apply (list_movies_page unicode_excerpt {[ 1 ]} library
           (button_update 1 1 (page_data 3)) [lit "3"] 3).
  - by apply elem_of_singleton.
  - right. eexists. reflexivity.
  - vm_compute. reflexivity.
  - lia.
  - reflexivity.
  - reflexivity.
Defined.

(** Page 3 of the library, as cached: "Movie 20" to "Movie 24". *)
Lemma library_page_3_names :
  (fun s => name <$> movies s) <$> (delete_sessions library_page_3 !! 1)
  = Some [ lit "Movie 20"; lit "Movie 21"; lit "Movie 22"; lit "Movie 23"; lit "Movie 24" ].
Proof. vm_compute. reflexivity. Qed.

(** "2" selects the second record of the cached page. *)
Lemma second_of_page_3_selected :
  let w := exec (delete_by_number unicode_excerpt {[ 1 ]} (text_update 1 (lit " 2 ")))
             library_page_3 in
  (fun s => name <$> selected s) <$> (delete_sessions w !! 1)
  = Some (Some (lit "Movie 21")).
Proof. vm_compute. reflexivity. Qed.

(** C7 at the failing input.  The admin has page 3 cached and sends the
    superscript two, U+00B2.  [isdigit] accepts it, [int] does not: the
    handler raises ValueError, no message is sent, nothing is selected. *)
Lemma superscript_two_raises :
  let update := text_update 1 [ 178%N ] in
  isdigit unicode_excerpt [ 178%N ] = true /\
  py_int unicode_excerpt [ 178%N ] = None /\
  outcome (delete_by_number unicode_excerpt {[ 1 ]} update) library_page_3
  = Raised ValueError /\
  exec (delete_by_number unicode_excerpt {[ 1 ]} update) library_page_3 = library_page_3.
Proof.
  cbv zeta. split; [reflexivity|]. split; [reflexivity|].
  split; vm_compute; reflexivity.
Qed.

(** * Properties of the normaliser *)

Section NormalizerFacts.
Context (db : UnicodeDB).

(** ** re.sub *)

Lemma re_sub_from_drop m repl k s :
  re_sub_from m repl k s = re_sub m repl (drop k s).
Proof.
  revert k. induction s as [|c s IH]; intros [|k]; cbn; auto.
Qed.

Lemma re_sub_match m repl c s n :
  m (c :: s) = Some (S n) ->
  re_sub m repl (c :: s) = repl ++ re_sub m repl (drop n s).
Proof. intros H. unfold re_sub at 1. cbn. rewrite H. by rewrite re_sub_from_drop. Qed.

Lemma re_sub_no_match m repl c s :
  m (c :: s) = None \/ m (c :: s) = Some O ->
  re_sub m repl (c :: s) = c :: re_sub m repl s.
Proof. intros [H|H]; unfold re_sub; cbn; by rewrite H. Qed.

(** What is put in and what is kept both satisfy [P]. *)
Lemma re_sub_from_Forall (P : N -> Prop) m repl k s :
  Forall P repl -> Forall P s -> Forall P (re_sub_from m repl k s).
Proof.
  intros Hr. revert k. induction s as [|c s IH]; intros k Hs; cbn; [done|].
  apply Forall_cons in Hs as [Hc Hs].
  destruct k; [|by apply IH].
  destruct (m (c :: s)) as [[|n]|].
  - constructor; auto.
  - apply Forall_app. auto.
  - constructor; auto.
Qed.

(** ** Runs and strips *)

Lemma drop_class_run p s : drop (class_run p s) s = lstrip p s.
Proof. induction s as [|c s IH]; cbn; [done|]. by destruct (p c). Qed.

Lemma m_plus_hit p c s : p c = true -> m_plus p (c :: s) = Some (S (class_run p s)).
Proof. intros H. unfold m_plus. cbn. by rewrite H. Qed.

Lemma m_plus_miss p c s : p c = false -> m_plus p (c :: s) = None.
Proof. intros H. unfold m_plus. cbn. by rewrite H. Qed.

(** A greedy [[...]+] replaced: the two equations of the scan. *)
Lemma re_sub_plus_hit p repl c s :
  p c = true ->
  re_sub (m_plus p) repl (c :: s) = repl ++ re_sub (m_plus p) repl (lstrip p s).
Proof.
  intros H. rewrite (re_sub_match _ _ _ _ _ (m_plus_hit p c s H)).
  by rewrite drop_class_run.
Qed.

Lemma re_sub_plus_miss p repl c s :
  p c = false ->
  re_sub (m_plus p) repl (c :: s) = c :: re_sub (m_plus p) repl s.
Proof. intros H. apply re_sub_no_match. left. by apply m_plus_miss. Qed.

Lemma lstrip_suffix p s : suffix (lstrip p s) s.
Proof.
  induction s as [|c s IH]; cbn; [done|].
  destruct (p c); [by apply suffix_cons_r | done].
Qed.

Lemma lstrip_length p s : (length (lstrip p s) <= length s)%nat.
Proof. apply suffix_length, lstrip_suffix. Qed.

Lemma rstrip_prefix p s : prefix (rstrip p s) s.
Proof.
  induction s as [|c s IH]; cbn; [done|].
  destruct (rstrip p s) as [|d r] eqn:E.
  - destruct (p c); [apply prefix_nil | apply prefix_cons, prefix_nil].
  - by apply prefix_cons.
Qed.

Lemma lstrip_Forall (P : N -> Prop) p s : Forall P s -> Forall P (lstrip p s).
Proof.
  intros H. destruct (lstrip_suffix p s) as [k Hk]. rewrite Hk in H.
  by apply Forall_app in H as [_ H].
Qed.

Lemma rstrip_Forall (P : N -> Prop) p s : Forall P s -> Forall P (rstrip p s).
Proof.
  intros H. destruct (rstrip_prefix p s) as [k Hk]. rewrite Hk in H.
  by apply Forall_app in H as [H _].
Qed.

Lemma strip_Forall (P : N -> Prop) p s : Forall P s -> Forall P (strip p s).
Proof. intros H. by apply rstrip_Forall, lstrip_Forall. Qed.

(** What a replaced [[...]+] keeps is outside the class. *)
Lemma re_sub_plus_Forall (Q : N -> Prop) p repl s :
  Forall Q repl ->
  Forall (fun c => p c = false -> Q c) s ->
  Forall Q (re_sub (m_plus p) repl s).
Proof.
  intros Hr. unfold re_sub. generalize 0%nat.
  induction s as [|c s IH]; intros k Hs; cbn; [done|].
  apply Forall_cons in Hs as [Hc Hs].
  destruct k; [|by apply IH].
  destruct (p c) eqn:Hp.
  - rewrite m_plus_hit by done. apply Forall_app. auto.
  - rewrite m_plus_miss by done. constructor; auto.
Qed.

(** ** The pieces of a match are pieces of the subject *)

Lemma four_digits_spec s y r :
  four_digits db s = Some (y, r) ->
  s = y ++ r /\ length y = 4%nat /\ Forall (fun c => re_d db c = true) y.
Proof.
  unfold four_digits. destruct s as [|a [|b [|c [|d s]]]]; try done.
  destruct (re_d db a) eqn:Ha; [|done]. destruct (re_d db b) eqn:Hb; [|done].
  destruct (re_d db c) eqn:Hc; [|done]. destruct (re_d db d) eqn:Hd; [|done].
  cbn. intros [= <- <-]. repeat split; auto.
Qed.

Lemma imatch_spec p s r :
  imatch p s = Some r ->
  s = take (length p) s ++ r /\ length (take (length p) s) = length p /\
  Forall2 (fun a c => ieq a c = true) p (take (length p) s).
Proof.
  revert s. induction p as [|a p IH]; intros s; cbn.
  - intros [= ->]. by repeat split.
  - destruct s as [|c s]; [done|]. destruct (ieq a c) eqn:E; [|done].
    intros H. apply IH in H as (H1 & H2 & H3). cbn.
    split; [by rewrite <- H1|]. split; [by rewrite H2|]. by constructor.
Qed.

Lemma imatch_exact p x :
  Forall2 (fun a c => ieq a c = true) p x -> imatch p x = Some [].
Proof. induction 1 as [|a c p x Hac ? IH']; cbn; [done|]. by rewrite Hac. Qed.

Lemma m_language_spec ls s x :
  m_language ls s = Some x ->
  exists l, l ∈ ls /\ x = take (length l) s /\ imatch l x = Some [] /\
            is_Some (imatch l s).
Proof.
  induction ls as [|l ls IH]; cbn; [done|].
  destruct (imatch l s) as [r|] eqn:E.
  - intros [= <-]. exists l. split; [apply elem_of_cons; by left|].
    split; [done|]. split; [|done].
    apply imatch_spec in E as (_ & _ & Hall). by apply imatch_exact.
  - intros H. apply IH in H as (l' & ? & ?). exists l'.
    split; [apply elem_of_cons; by right | done].
Qed.

Lemma m_language_Forall (P : N -> Prop) ls s x :
  m_language ls s = Some x -> Forall P s -> Forall P x.
Proof.
  intros H Hs. apply m_language_spec in H as (l & _ & -> & _).
  by apply Forall_take.
Qed.

(** The shape of a match of [[\s_]*\(?(\d{4})\)?[\s_]*(...)?]. *)
Lemma m_year_spec s y l :
  m_year db s = Some (y, l) ->
  exists paren r,
    lstrip (is_us_ws db) s = paren ++ y ++ r /\
    (paren = [] \/ paren = [40%N]) /\
    length y = 4%nat /\ Forall (fun c => re_d db c = true) y /\
    l = m_language languages
          (lstrip (is_us_ws db)
             (match r with
              | c :: r' => if (c =? 41)%N then r' else r
              | [] => r
              end)).
Proof.
  unfold m_year. set (s1 := lstrip (is_us_ws db) s).
  destruct s1 as [|c r1] eqn:E1.
  { cbn. done. }
  destruct (c =? 40)%N eqn:Hc.
  - apply N.eqb_eq in Hc as ->.
    destruct (four_digits db r1) as [[y' r']|] eqn:E4.
    + intros [= <- <-]. apply four_digits_spec in E4 as (-> & ? & ?).
      exists [40%N], r'. by repeat split; auto.
    + destruct (four_digits db (40%N :: r1)) as [[y' r']|] eqn:E5; [|done].
      intros [= <- <-]. apply four_digits_spec in E5 as (-> & ? & ?).
      exists [], r'. by repeat split; auto.
  - destruct (four_digits db (c :: r1)) as [[y' r']|] eqn:E5; [|done].
    intros [= <- <-]. apply four_digits_spec in E5 as (-> & ? & ?).
    exists [], r'. by repeat split; auto.
Qed.

Lemma m_year_Forall (P : N -> Prop) s y l :
  m_year db s = Some (y, l) -> Forall P s ->
  Forall P y /\ forall x, l = Some x -> Forall P x.
Proof.
  intros H Hs. apply m_year_spec in H as (paren & r & E & _ & _ & _ & ->).
  apply (lstrip_Forall _ (is_us_ws db)) in Hs. rewrite E in Hs.
  apply Forall_app in Hs as [_ Hs]. apply Forall_app in Hs as [Hy Hr].
  split; [done|]. intros x Hx. eapply m_language_Forall; [exact Hx|].
  apply lstrip_Forall. destruct r as [|c r]; [done|].
  destruct (c =? 41)%N; [|done]. by apply Forall_cons in Hr as [_ ?].
Qed.

(** The shape of a match of the whole pattern: the title is the
    shortest prefix after which the rest matches. *)
Lemma search_title_spec s t y l :
  search_title db s = Some (t, y, l) ->
  exists rest,
    s = t ++ rest /\ m_year db rest = Some (y, l) /\ (10%N ∉ t) /\
    forall j, (j < length t)%nat -> m_year db (drop j s) = None.
Proof.
  revert t. induction s as [|c s IH]; intros t; cbn.
  - done.
  - destruct (m_year db (c :: s)) as [[y' l']|] eqn:E.
    + intros [= <- <- <-]. exists (c :: s).
      split; [done|]. split; [done|]. split; [apply not_elem_of_nil|].
      cbn. lia.
    + destruct (c =? 10)%N eqn:Hc; [done|].
      destruct (search_title db s) as [[[t' y'] l']|] eqn:Es; [|done].
      intros [= <- <- <-].
      destruct (IH t' eq_refl) as (rest & -> & Hy & Hnl & Hmin).
      exists rest. split; [done|]. split; [done|]. split.
      * apply not_elem_of_cons. split; [|done]. intros <-. by rewrite N.eqb_refl in Hc.
      * intros [|j] Hj; cbn; [done|]. apply Hmin. cbn in Hj. lia.
Qed.

Lemma search_title_Forall (P : N -> Prop) s t y l :
  search_title db s = Some (t, y, l) -> Forall P s ->
  Forall P t /\ Forall P y /\ forall x, l = Some x -> Forall P x.
Proof.
  intros H Hs. apply search_title_spec in H as (rest & -> & Hy & _).
  apply Forall_app in Hs as [Ht Hr]. split; [done|].
  by eapply m_year_Forall.
Qed.

Lemma lit_paren_open : lit " (" = [32%N; 40%N].
Proof. reflexivity. Qed.

Lemma lit_paren_close : lit ") " = [41%N; 32%N].
Proof. reflexivity. Qed.

Lemma format_name_Forall (P : N -> Prop) t y l :
  P 32%N -> P 40%N -> P 41%N ->
  Forall P t -> Forall P y -> (forall x, l = Some x -> Forall P x) ->
  Forall P (format_name db t y l).
Proof.
  intros H32 H40 H41 Ht Hy Hl. unfold format_name, collapse_ws, re_sub.
  apply re_sub_from_Forall; [by repeat constructor|].
  apply strip_Forall. rewrite lit_paren_open, lit_paren_close.
  apply Forall_app. split; [by apply strip_Forall|].
  apply Forall_app. split; [by repeat constructor|].
  apply Forall_app. split; [by apply strip_Forall|].
  apply Forall_app. split; [by repeat constructor|].
  destruct l as [x|]; [apply strip_Forall; auto | done].
Qed.

(** ** Steps 3 to 5 produce ASCII *)

Lemma sub_non_ascii_ascii s : all_ascii (sub_non_ascii s).
Proof.
  apply re_sub_plus_Forall; [done|].
  apply Forall_forall. intros c _ H. by apply negb_false_iff in H.
Qed.

Lemma step4_ascii s : all_ascii (step4 db s).
Proof.
  unfold step4, sub_underscores. apply strip_Forall.
  apply re_sub_from_Forall; [by repeat constructor|]. apply sub_non_ascii_ascii.
Qed.

Lemma step5_ascii s : all_ascii (step5 db s).
Proof.
  unfold step5, sub_tags. apply strip_Forall.
  apply re_sub_from_Forall; [by repeat constructor|]. apply step4_ascii.
Qed.

(** C9.  Whatever the input, every character of the result is ASCII. *)
Theorem clean_filename_ascii s :
  Forall (fun c => (c <= 127)%N) (clean_filename db s).
Proof.
  apply (Forall_impl (fun c => is_ascii c = true)).
  2:{ intros c H. by apply N.leb_le in H. }
  unfold clean_filename. pose proof (step5_ascii s) as H5.
  destruct (search_title db (step5 db s)) as [[[t y] l]|] eqn:E.
  - destruct (search_title_Forall _ _ _ _ _ E H5) as (Ht & Hy & Hl).
    by apply format_name_Forall.
  - by apply strip_Forall.
Qed.

(** C5, as amended.  When the pattern does not match, the result is the
    outcome of step 5, that is after the tags are removed, with the
    separators stripped at both ends. *)
Theorem clean_filename_no_match s :
  search_title db (step5 db s) = None ->
  clean_filename db s = strip_sep (step5 db s).
Proof. intros H. unfold clean_filename. by rewrite H. Qed.

End NormalizerFacts.

(** C5, as the specification states it, fails on "Movie HDRip": the
    pattern does not match, and the result is not the outcome of step 4
    without its trailing separators. *)
Lemma no_match_returns_step5 :
  search_title unicode_excerpt (step5 unicode_excerpt (lit "Movie HDRip")) = None /\
  rstrip is_sep (step4 unicode_excerpt (lit "Movie HDRip")) = lit "Movie HDRip" /\
  clean_filename unicode_excerpt (lit "Movie HDRip") = lit "Movie" /\
  clean_filename unicode_excerpt (lit "Movie HDRip")
  <> rstrip is_sep (step4 unicode_excerpt (lit "Movie HDRip")).
Proof. repeat split; vm_compute; congruence. Qed.

Lemma clean_filename_no_match_witness :
  search_title unicode_excerpt (step5 unicode_excerpt (lit "Movie HDRip")) = None /\
  clean_filename unicode_excerpt (lit "Movie HDRip")
  = strip_sep (step5 unicode_excerpt (lit "Movie HDRip")).
Proof.
  split; [vm_compute; reflexivity|].
  apply (clean_filename_no_match unicode_excerpt (lit "Movie HDRip")).
  vm_compute. reflexivity.
Defined.

(** ** Strips *)

Section StripFacts.
Context (p : N -> bool).

Lemma lstrip_keep c s : p c = false -> lstrip p (c :: s) = c :: s.
Proof. intros H. cbn. by rewrite H. Qed.

Lemma lstrip_head c s : head (lstrip p s) = Some c -> p c = false.
Proof.
  induction s as [|d s IH]; cbn; [done|].
  destruct (p d) eqn:E; [done|]. cbn. by intros [= <-].
Qed.

Lemma lstrip_app a b : lstrip p a <> [] -> lstrip p (a ++ b) = lstrip p a ++ b.
Proof.
  induction a as [|c a IH]; cbn; [done|].
  destruct (p c); [done|]. done.
Qed.

Lemma lstrip_all a b : Forall (fun c => p c = true) a -> lstrip p (a ++ b) = lstrip p b.
Proof. induction 1 as [|c a Hc _ IH]; cbn; [done|]. by rewrite Hc. Qed.

Lemma rstrip_snoc_keep a c : p c = false -> rstrip p (a ++ [c]) = a ++ [c].
Proof.
  intros H. induction a as [|d a IH]; cbn.
  - by rewrite H.
  - rewrite IH. by destruct a.
Qed.

Lemma rstrip_snoc_drop a c : p c = true -> rstrip p (a ++ [c]) = rstrip p a.
Proof.
  intros H. induction a as [|d a IH]; cbn.
  - by rewrite H.
  - by rewrite IH.
Qed.

Lemma rstrip_keep s c : last s = Some c -> p c = false -> rstrip p s = s.
Proof.
  intros Hl Hc. destruct s as [|d s _] using rev_ind; [done|].
  rewrite last_snoc in Hl. injection Hl as ->. by apply rstrip_snoc_keep.
Qed.

Lemma rstrip_last s c : last (rstrip p s) = Some c -> p c = false.
Proof.
  induction s as [|d s IH] using rev_ind; [done|].
  destruct (p d) eqn:E.
  - by rewrite rstrip_snoc_drop.
  - rewrite rstrip_snoc_keep, last_snoc by done. by intros [= <-].
Qed.

Lemma rstrip_idem s : rstrip p (rstrip p s) = rstrip p s.
Proof.
  destruct (last (rstrip p s)) as [c|] eqn:E.
  - eapply rstrip_keep; [done|]. by eapply rstrip_last.
  - apply last_None in E. by rewrite E.
Qed.

Lemma rstrip_head s c : head s = Some c -> p c = false -> head (rstrip p s) = Some c.
Proof.
  destruct s as [|d s]; [done|]. cbn. intros [= ->] Hc.
  destruct (rstrip p s); [by rewrite Hc | done].
Qed.

Lemma strip_keep_head s c :
  head s = Some c -> p c = false -> strip p s = rstrip p s.
Proof.
  intros Hh Hc. unfold strip. destruct s as [|d s]; [done|].
  cbn in Hh. injection Hh as ->. by rewrite lstrip_keep.
Qed.

Lemma strip_head s c : head (strip p s) = Some c -> p c = false.
Proof.
  unfold strip. intros H.
  destruct (lstrip p s) as [|d r] eqn:E; [done|].
  assert (p d = false) as Hd by (apply (lstrip_head d s); by rewrite E).
  rewrite (rstrip_head _ d) in H by done. by injection H as <-.
Qed.

Lemma strip_last s c : last (strip p s) = Some c -> p c = false.
Proof. apply rstrip_last. Qed.

Lemma strip_idem s : strip p (strip p s) = strip p s.
Proof.
  destruct (strip p s) as [|c r] eqn:E; [done|].
  rewrite <- E. rewrite (strip_keep_head _ c).
  - unfold strip. apply rstrip_idem.
  - by rewrite E.
  - apply (strip_head s). by rewrite E.
Qed.

End StripFacts.

(** ** A collapsed run *)

Section SqueezeFacts.
Context (p : N -> bool) (x : N).
Hypothesis Hx : p x = true.

Local Abbreviation squeeze := (re_sub (m_plus p) [x]).

Lemma squeeze_nil : squeeze [] = [].
Proof. reflexivity. Qed.

Lemma lstrip_snoc a c :
  p c = false -> exists a', lstrip p (a ++ [c]) = a' ++ [c] /\ (length a' <= length a)%nat.
Proof.
  intros Hc. induction a as [|e a (a' & Ea & Hlen)]; cbn.
  - rewrite Hc. exists []. by split.
  - destruct (p e).
    + exists a'. split; [done | lia].
    + exists (e :: a). by split.
Qed.

(** Runs do not cross a boundary behind a character outside the class. *)
Lemma squeeze_app_last a c b :
  p c = false -> squeeze ((a ++ [c]) ++ b) = squeeze (a ++ [c]) ++ squeeze b.
Proof.
  intros Hc. remember (length a) as n eqn:Hn.
  revert a Hn. induction n as [n IH] using lt_wf_ind. intros a ->.
  destruct a as [|d a]; cbn [app].
  - by rewrite !re_sub_plus_miss by done.
  - destruct (p d) eqn:Hd.
    + rewrite !re_sub_plus_hit by done.
      destruct (lstrip_snoc a c Hc) as (a' & Ea & Hlen).
      rewrite lstrip_app by (rewrite Ea; by destruct a').
      rewrite Ea.
      rewrite (IH (length a')) by (cbn; try lia; done). by rewrite app_assoc.
    + rewrite !re_sub_plus_miss by done. cbn. f_equal.
      apply (IH (length a)); cbn; [lia | done].
Qed.

(** Nor one in front of such a character. *)
Lemma squeeze_app_head a c b :
  p c = false -> squeeze (a ++ c :: b) = squeeze a ++ c :: squeeze b.
Proof.
  intros Hc. remember (length a) as n eqn:Hn.
  revert a Hn. induction n as [n IH] using lt_wf_ind. intros a ->.
  destruct a as [|d a]; cbn [app]; [by rewrite re_sub_plus_miss|].
  destruct (p d) eqn:Hd.
  - rewrite !re_sub_plus_hit by done.
    assert (lstrip p (a ++ c :: b) = lstrip p a ++ c :: b) as ->.
    { clear IH. induction a as [|e a IHa]; cbn; [by rewrite Hc|]. by destruct (p e). }
    rewrite (IH (length (lstrip p a))); [by rewrite app_assoc | | done].
    pose proof (lstrip_length p a). cbn. lia.
  - rewrite !re_sub_plus_miss by done. cbn. f_equal.
    apply (IH (length a)); cbn; [lia | done].
Qed.

Lemma squeeze_snoc a c : p c = false -> squeeze (a ++ [c]) = squeeze a ++ [c].
Proof.
  intros Hc. by rewrite squeeze_app_head.
Qed.

Lemma squeeze_head s c : head s = Some c -> p c = false -> head (squeeze s) = Some c.
Proof.
  destruct s as [|d s]; [done|]. intros [= ->] Hc. by rewrite re_sub_plus_miss.
Qed.

Lemma squeeze_last s c : last s = Some c -> p c = false -> last (squeeze s) = Some c.
Proof.
  destruct s as [|d s _] using rev_ind; [done|].
  rewrite last_snoc. intros [= ->] Hc. by rewrite squeeze_snoc, last_snoc.
Qed.

Lemma squeeze_nil_inv s : squeeze s = [] -> s = [].
Proof.
  destruct s as [|c s]; [done|]. destruct (p c) eqn:Hc.
  - by rewrite re_sub_plus_hit.
  - by rewrite re_sub_plus_miss.
Qed.

(** What is left has no two characters of the class in a row. *)
Lemma squeeze_no_pair s :
  forall i a b, squeeze s !! i = Some a -> squeeze s !! S i = Some b ->
                ~ (p a = true /\ p b = true).
Proof.
  remember (length s) as n eqn:Hn.
  revert s Hn. induction n as [n IH] using lt_wf_ind. intros s ->.
  destruct s as [|c s]; [done|].
  destruct (p c) eqn:Hc.
  - rewrite re_sub_plus_hit by done. cbn [app].
    pose proof (lstrip_length p s) as Hl.
    intros [|i] a b; cbn.
    + intros [= <-] Hb [_ Hpb].
      destruct (lstrip p s) as [|d r] eqn:E; [done|].
      assert (p d = false) as Hd by (apply (lstrip_head p d s); by rewrite E).
      rewrite re_sub_plus_miss in Hb by done. cbn in Hb. congruence.
    + apply (IH (length (lstrip p s))); [cbn; lia | done].
  - rewrite re_sub_plus_miss by done.
    intros [|i] a b; cbn.
    + intros [= <-] _ [Hpa _]. congruence.
    + apply (IH (length s)); [cbn; lia | done].
Qed.

End SqueezeFacts.

(** ** The year pattern *)

Section SearchFacts.
Context (db : UnicodeDB).

Lemma re_d_not_paren c : re_d db c = true -> c <> 40%N.
Proof. intros H ->. done. Qed.

Lemma re_d_not_space c : re_d db c = true -> c <> 32%N.
Proof. intros H ->. done. Qed.

Lemma four_digits_intro y r :
  length y = 4%nat -> Forall (fun c => re_d db c = true) y ->
  four_digits db (y ++ r) = Some (y, r).
Proof.
  intros Hlen Hy. destruct y as [|a [|b [|c [|d [|]]]]]; try done.
  repeat (apply Forall_cons in Hy as [? Hy]).
  cbn. by rewrite !H, H0, H1, H2.
Qed.

Lemma m_year_intro s paren y r :
  lstrip (is_us_ws db) s = paren ++ y ++ r ->
  paren = [] \/ paren = [40%N] ->
  length y = 4%nat -> Forall (fun c => re_d db c = true) y ->
  m_year db s = Some (y, after_year db r).
Proof.
  intros E Hp Hlen Hy. unfold m_year. rewrite E.
  destruct Hp as [-> | ->]; cbn [app].
  - destruct y as [|a y']; [done|].
    assert (a <> 40%N) as Ha.
    { apply re_d_not_paren. by apply Forall_cons in Hy as [? _]. }
    cbn [app]. apply N.eqb_neq in Ha. rewrite Ha.
    change (a :: y' ++ r) with ((a :: y') ++ r).
    by rewrite four_digits_intro.
  - rewrite N.eqb_refl. by rewrite four_digits_intro.
Qed.

Lemma m_year_elim s y l :
  m_year db s = Some (y, l) ->
  exists paren r,
    lstrip (is_us_ws db) s = paren ++ y ++ r /\
    (paren = [] \/ paren = [40%N]) /\
    length y = 4%nat /\ Forall (fun c => re_d db c = true) y /\
    l = after_year db r.
Proof. apply m_year_spec. Qed.

(** A match stays a match when the subject is extended. *)
Lemma m_year_app u v y l :
  m_year db u = Some (y, l) -> exists l', m_year db (u ++ v) = Some (y, l').
Proof.
  intros H. apply m_year_elim in H as (paren & r & E & Hp & Hlen & Hy & _).
  exists (after_year db (r ++ v)). apply (m_year_intro _ paren); try done.
  rewrite lstrip_app, E, <- !app_assoc; [done|].
  rewrite E. destruct paren, y; done.
Qed.

Lemma app_prefix_before (a p r b : str) x :
  a ++ x :: b = p ++ r -> x ∉ p -> exists r0, a = p ++ r0.
Proof.
  revert a. induction p as [|e p IH]; intros a E Hx; [by exists a|].
  destruct a as [|d a].
  - cbn in E. injection E as -> _. exfalso. apply Hx. by left.
  - cbn in E. injection E as -> E. apply IH in E as [r0 ->].
    + by exists r0.
    + intros ?. apply Hx. by right.
Qed.

(** A match that starts in a word and ends before the next space does
    not depend on what follows that space. *)
Lemma m_year_cut a c b y l :
  last a = Some c -> is_us_ws db c = false ->
  m_year db (a ++ 32%N :: b) = Some (y, l) ->
  forall b', exists l', m_year db (a ++ b') = Some (y, l').
Proof.
  intros Hl Hc H b'.
  assert (lstrip (is_us_ws db) a <> []) as Hne.
  { destruct a as [|d a _] using rev_ind; [done|].
    rewrite last_snoc in Hl. injection Hl as ->.
    destruct (lstrip_snoc (is_us_ws db) a c Hc) as (a' & -> & _). by destruct a'. }
  apply m_year_elim in H as (paren & r & E & Hp & Hlen & Hy & _).
  rewrite lstrip_app in E by done.
  rewrite app_assoc in E. apply app_prefix_before in E as [r0 E].
  - exists (after_year db (r0 ++ b')). apply (m_year_intro _ paren); try done.
    by rewrite lstrip_app, E, <- !app_assoc.
  - intros Hin. apply elem_of_app in Hin as [Hin | Hin].
    + destruct Hp as [-> | ->]; [by apply not_elem_of_nil in Hin|].
      by apply list_elem_of_singleton in Hin.
    + eapply Forall_forall in Hy; [|done]. by apply re_d_not_space in Hy.
Qed.

Lemma search_title_intro t rest y l :
  (10%N ∉ t) -> m_year db rest = Some (y, l) ->
  (forall j, (j < length t)%nat -> m_year db (drop j (t ++ rest)) = None) ->
  search_title db (t ++ rest) = Some (t, y, l).
Proof.
  induction t as [|c t IH]; intros Hnl Hy Hmin.
  - cbn [app]. destruct rest as [|d rest]; [by cbn in Hy|].
    cbn [search_title]. by rewrite Hy.
  - cbn [app search_title].
    pose proof (Hmin 0%nat ltac:(cbn; lia)) as H0. cbn in H0. rewrite H0.
    apply not_elem_of_cons in Hnl as [Hc Hnl].
    apply not_eq_sym, N.eqb_neq in Hc. rewrite Hc.
    rewrite IH; [done | done | done |].
    intros j Hj. apply (Hmin (S j)). cbn. lia.
Qed.

Lemma search_title_none s :
  (10%N ∉ s) ->
  search_title db s = None <-> forall j, m_year db (drop j s) = None.
Proof.
  induction s as [|c s IH]; intros Hnl.
  - cbn. split; [|done]. intros _ j. by destruct j.
  - apply not_elem_of_cons in Hnl as [Hc Hnl].
    apply not_eq_sym, N.eqb_neq in Hc.
    cbn [search_title]. rewrite Hc. specialize (IH Hnl).
    destruct (m_year db (c :: s)) as [[y l]|] eqn:E.
    + split; [done|]. intros H. specialize (H 0%nat). cbn in H. congruence.
    + destruct (search_title db s) as [[[t y] l]|].
      * split; [done|]. intros H. destruct IH as [_ IH].
        discriminate IH. intros j. apply (H (S j)).
      * split; [|done]. intros _ [|j]; [done|]. cbn. by apply IH.
Qed.

Lemma imatch_app p u v r :
  imatch p u = Some r -> imatch p (u ++ v) = Some (r ++ v).
Proof.
  revert u. induction p as [|a p IH]; intros u; cbn.
  - by intros [= ->].
  - destruct u as [|c u]; [done|]. cbn. destruct (ieq a c); [apply IH | done].
Qed.

Lemma m_language_idem ls s x :
  m_language ls s = Some x -> m_language ls x = Some x.
Proof.
  induction ls as [|l ls IH]; cbn; [done|].
  destruct (imatch l s) as [r|] eqn:E.
  - intros [= <-]. apply imatch_spec in E as (_ & Hlen & Hall).
    rewrite (imatch_exact _ _ Hall). f_equal.
    rewrite take_take. f_equal. lia.
  - intros H. destruct (imatch l x) as [r|] eqn:E'.
    + apply m_language_spec in H as (l' & _ & -> & _).
      apply (imatch_app _ _ (drop (length l') s)) in E'.
      rewrite take_drop in E'. congruence.
    + by apply IH.
Qed.

Lemma m_language_nil : m_language languages [] = None.
Proof. reflexivity. Qed.

End SearchFacts.

(** ** Characters *)

Ltac char_bounds :=
  intros;
  cbv [ascii_letter ascii_digit ascii_upper ascii_lower ascii_space ascii_alnum
       is_ascii is_sep lower ieq] in *;
  repeat match goal with
  | H : context [ (_ <=? _)%N ] |- _ => revert H
  | H : context [ (_ =? _)%N ] |- _ => revert H
  end;
  repeat match goal with
  | |- context [ (?a <=? ?b)%N ] => destruct (N.leb_spec a b)
  | |- context [ (?a =? ?b)%N ] => destruct (N.eqb_spec a b)
  end; cbn; intros; cbn in *; try done; try lia.

Lemma ieq_letter a c :
  ieq a c = true -> ascii_lower (lower a) = true -> ascii_letter c = true.
Proof. char_bounds. Qed.

Section CharFacts.
Context (db : UnicodeDB).

Lemma digit_ascii_digit c : is_ascii c = true -> re_d db c = true -> ascii_digit c = true.
Proof. unfold re_d, isdecimal. by intros ->. Qed.

Lemma ascii_digit_re_d c : ascii_digit c = true -> re_d db c = true.
Proof.
  intros H. unfold re_d, isdecimal.
  assert (is_ascii c = true) as -> by (revert H; char_bounds). done.
Qed.

Lemma ascii_digit_not_space c : ascii_digit c = true -> isspace db c = false.
Proof.
  intros H. unfold isspace.
  assert (is_ascii c = true) as -> by (revert H; char_bounds).
  revert H. char_bounds.
Qed.

Lemma ascii_letter_not_space c : ascii_letter c = true -> isspace db c = false.
Proof.
  intros H. unfold isspace.
  assert (is_ascii c = true) as -> by (revert H; char_bounds).
  revert H. char_bounds.
Qed.

Lemma ascii_letter_not_digit c : ascii_letter c = true -> re_d db c = false.
Proof.
  intros H. unfold re_d, isdecimal.
  assert (is_ascii c = true) as -> by (revert H; char_bounds).
  revert H. char_bounds.
Qed.

Lemma isspace_32 : isspace db 32 = true.
Proof. reflexivity. Qed.

Lemma sep_or_space c : is_sep c = false -> c <> 32%N.
Proof. by intros H ->. Qed.

Lemma language_letters x :
  is_language x -> x <> [] /\ Forall (fun c => ascii_letter c = true) x.
Proof.
  intros (l & Hl & Hm).
  assert (l <> [] /\ Forall (fun a => ascii_lower (lower a) = true) l) as [Hne Hlow].
  { unfold languages in Hl.
    repeat (apply elem_of_cons in Hl as [-> | Hl]; [split; [done | by vm_compute; repeat constructor]|]).
    by apply not_elem_of_nil in Hl. }
  clear Hl. revert x Hm Hne. induction Hlow as [|a l Ha _ IH]; intros x Hm Hne; [done|].
  cbn in Hm. destruct x as [|c x]; [done|].
  destruct (ieq a c) eqn:E; [|done].
  split; [done|]. constructor; [by eapply ieq_letter|].
  destruct l as [|b l]; [cbn in Hm; by injection Hm as ->|].
  by apply IH.
Qed.

End CharFacts.

(** ** The rebuilt name *)

Section FormatFacts.
Context (db : UnicodeDB).

Lemma squeeze_all_miss p x a b :
  Forall (fun c => p c = false) a ->
  re_sub (m_plus p) [x] (a ++ b) = a ++ re_sub (m_plus p) [x] b.
Proof.
  induction 1 as [|c a Hc _ IH]; [done|].
  cbn [app]. rewrite re_sub_plus_miss by done. by rewrite IH.
Qed.

Lemma collapse_ws_word a : Forall (fun c => isspace db c = false) a -> collapse_ws db a = a.
Proof.
  intros H. unfold collapse_ws. rewrite <- (app_nil_r a) at 1.
  rewrite squeeze_all_miss by done. by rewrite app_nil_r.
Qed.

Lemma only_spaces_strip p s : only_spaces db s -> only_spaces db (strip p s).
Proof. apply strip_Forall. Qed.

Lemma lstrip_app_keep p (a b : str) c :
  head a = Some c -> p c = false -> lstrip p (a ++ b) = a ++ b.
Proof. destruct a as [|d a]; [done|]. intros [= ->] Hc. cbn. by rewrite Hc. Qed.

(** The tail " (2021) Tamil" or " (2021)" is left alone by the final
    collapse. *)
Lemma collapse_ws_tail y l :
  Forall (fun c => ascii_digit c = true) y ->
  (forall x, l = Some x -> is_language x) ->
  collapse_ws db ([40%N] ++ y ++ [41%N] ++ match l with Some x => 32%N :: x | None => [] end)
  = [40%N] ++ y ++ [41%N] ++ match l with Some x => 32%N :: x | None => [] end.
Proof.
  intros Hy Hl. unfold collapse_ws. cbn [app].
  rewrite re_sub_plus_miss by done. f_equal.
  rewrite squeeze_all_miss.
  2:{ eapply Forall_impl; [exact Hy|]. intros c. apply ascii_digit_not_space. }
  f_equal. rewrite re_sub_plus_miss by done. f_equal.
  destruct l as [x|]; [|done].
  destruct (language_letters x (Hl x eq_refl)) as [Hne Hx].
  rewrite re_sub_plus_hit by done. cbn [app]. f_equal.
  assert (Forall (fun c => isspace db c = false) x) as Hx'.
  { eapply Forall_impl; [exact Hx|]. intros c. apply ascii_letter_not_space. }
  destruct x as [|c x]; [done|].
  rewrite lstrip_keep by (by apply Forall_cons in Hx' as [? _]).
  exact (collapse_ws_word _ Hx').
Qed.

Lemma strip_ws_digits y :
  Forall (fun c => ascii_digit c = true) y -> strip_ws db y = y.
Proof.
  intros Hy. unfold strip_ws, strip.
  destruct y as [|c y _] using rev_ind; [done|].
  apply Forall_app in Hy as [Hy Hc]. apply Forall_cons in Hc as [Hc _].
  assert (lstrip (isspace db) (y ++ [c]) = y ++ [c]) as ->.
  { destruct y as [|d y]; cbn.
    - by rewrite ascii_digit_not_space.
    - apply Forall_cons in Hy as [Hd _]. by rewrite ascii_digit_not_space. }
  apply rstrip_snoc_keep. by apply ascii_digit_not_space.
Qed.

Lemma strip_ws_language x : is_language x -> strip_ws db x = x.
Proof.
  intros H. destruct (language_letters x H) as [Hne Hx]. unfold strip_ws, strip.
  destruct x as [|c x _] using rev_ind; [done|].
  apply Forall_app in Hx as [Hx Hc]. apply Forall_cons in Hc as [Hc _].
  assert (lstrip (isspace db) (x ++ [c]) = x ++ [c]) as ->.
  { destruct x as [|d x]; cbn.
    - by rewrite ascii_letter_not_space.
    - apply Forall_cons in Hx as [Hd _]. by rewrite ascii_letter_not_space. }
  apply rstrip_snoc_keep. by apply ascii_letter_not_space.
Qed.

(** A stripped title of spaces and other characters has no white space
    at its ends. *)
Lemma strip_sep_ends t c :
  only_spaces db t ->
  head (strip_sep t) = Some c \/ last (strip_sep t) = Some c ->
  is_sep c = false /\ isspace db c = false.
Proof.
  intros Ht Hc.
  assert (is_sep c = false) as Hs.
  { destruct Hc as [Hc | Hc]; [by eapply strip_head | by eapply strip_last]. }
  split; [done|].
  assert (c ∈ strip_sep t) as Hin.
  { destruct Hc as [Hc | Hc].
    - destruct (strip_sep t); [done|]. injection Hc as ->. by left.
    - apply last_Some in Hc as [l' ->]. apply elem_of_app. right. by left. }
  apply (only_spaces_strip is_sep) in Ht.
  eapply Forall_forall in Ht; [|exact Hin].
  destruct (isspace db c) eqn:E; [|done].
  rewrite (Ht eq_refl) in Hs. by vm_compute in Hs.
Qed.

(** What [format_name] builds, once the strips and the collapse are
    worked out. *)
Lemma format_name_titled t y l :
  only_spaces db t ->
  Forall (fun c => ascii_digit c = true) y ->
  (forall x, l = Some x -> is_language x) ->
  format_name db t y l = titled (collapse_ws db (strip_sep t)) y l.
Proof.
  intros Ht Hy Hl. unfold format_name. cbv zeta.
  rewrite lit_paren_open, lit_paren_close.
  rewrite (strip_ws_digits y) by done.
  set (T := strip_sep t).
  set (L := match l with Some x => strip_ws db x | None => [] end).
  set (suf := match l with Some x => 32%N :: x | None => [] end).
  assert (rstrip (isspace db) ([40%N] ++ y ++ [41%N; 32%N] ++ L) = [40%N] ++ y ++ [41%N] ++ suf
          /\ forall a, rstrip (isspace db) (a ++ [32%N; 40%N] ++ y ++ [41%N; 32%N] ++ L)
                       = a ++ [32%N; 40%N] ++ y ++ [41%N] ++ suf) as [Hr0 Hr].
  { subst L suf. destruct l as [x|].
    - rewrite strip_ws_language by auto.
      destruct (language_letters x (Hl x eq_refl)) as [Hne Hx].
      destruct x as [|c x _] using rev_ind; [done|].
      apply Forall_app in Hx as [_ Hc]. apply Forall_cons in Hc as [Hc _].
      apply (ascii_letter_not_space db) in Hc.
      split; [|intros a].
      + replace ([40%N] ++ y ++ [41%N; 32%N] ++ x ++ [c])
          with (([40%N] ++ y ++ [41%N; 32%N] ++ x) ++ [c]) by (by rewrite <- !app_assoc).
        rewrite rstrip_snoc_keep by done. by rewrite <- !app_assoc.
      + replace (a ++ [32%N; 40%N] ++ y ++ [41%N; 32%N] ++ x ++ [c])
          with ((a ++ [32%N; 40%N] ++ y ++ [41%N; 32%N] ++ x) ++ [c]) by (by rewrite <- !app_assoc).
        rewrite rstrip_snoc_keep by done. by rewrite <- !app_assoc.
    - split; [|intros a].
      + replace ([40%N] ++ y ++ [41%N; 32%N] ++ [])
          with ((([40%N] ++ y) ++ [41%N]) ++ [32%N]) by (by rewrite <- !app_assoc).
        rewrite rstrip_snoc_drop by done. rewrite rstrip_snoc_keep by done.
        by rewrite <- !app_assoc.
      + replace (a ++ [32%N; 40%N] ++ y ++ [41%N; 32%N] ++ [])
          with (((a ++ [32%N; 40%N] ++ y) ++ [41%N]) ++ [32%N]) by (by rewrite <- !app_assoc).
        rewrite rstrip_snoc_drop by done. rewrite rstrip_snoc_keep by done.
        by rewrite <- !app_assoc. }
  subst suf. unfold strip_ws at 1. unfold strip.
  destruct (last T) as [d|] eqn:El.
  - destruct (strip_sep_ends t d Ht) as [_ Hd]; [by right|].
    pose proof El as El'. apply last_Some in El' as [T0 E].
    destruct (head T) as [c|] eqn:Eh; [|by rewrite E in Eh; destruct T0].
    destruct (strip_sep_ends t c Ht) as [_ Hc]; [by left|].
    rewrite (lstrip_app_keep _ _ _ c) by done.
    rewrite Hr. unfold titled.
    assert (collapse_ws db T <> []) as Hne.
    { intros E'. apply squeeze_nil_inv in E'. by rewrite E' in Eh. }
    destruct (collapse_ws db T) as [|e S'] eqn:EC; [done|]. rewrite <- EC.
    rewrite E. unfold collapse_ws at 1.
    rewrite (squeeze_app_last _ _ T0 d) by done.
    fold (collapse_ws db (T0 ++ [d])). rewrite <- !app_assoc. f_equal.
    cbn [app]. rewrite re_sub_plus_hit by done. cbn [app]. f_equal.
    rewrite lstrip_keep by done.
    pose proof (collapse_ws_tail y l Hy Hl) as Htail. cbn [app] in Htail.
    exact Htail.
  - apply last_None in El. rewrite El.
    replace (lstrip (isspace db) ([] ++ [32%N; 40%N] ++ y ++ [41%N; 32%N] ++ L))
      with ([40%N] ++ y ++ [41%N; 32%N] ++ L) by reflexivity.
    rewrite Hr0. rewrite collapse_ws_tail by done.
    by rewrite (collapse_ws_word []).
Qed.

End FormatFacts.

Section YearFacts.
Context (db : UnicodeDB).

Lemma sub_underscores_only_spaces s : only_spaces db (sub_underscores db s).
Proof.
  unfold sub_underscores. apply strip_Forall.
  apply re_sub_plus_Forall; [by repeat constructor|].
  apply Forall_forall. intros c _ Hc Hs.
  unfold is_us_ws, re_s in Hc. rewrite Hs in Hc. by rewrite orb_true_r in Hc.
Qed.

Lemma step5_only_spaces s : only_spaces db (step5 db s).
Proof.
  unfold step5, sub_tags. apply strip_Forall.
  apply re_sub_from_Forall; [by repeat constructor|].
  apply sub_underscores_only_spaces.
Qed.

Lemma no_double_space_intro s :
  (forall i a b, s !! i = Some a -> s !! S i = Some b -> ~ (a = 32%N /\ b = 32%N)) ->
  no_double_space s.
Proof.
  induction s as [|a s IH]; intros H; [done|].
  split.
  - destruct s as [|b s]; [done|]. by apply (H 0%nat).
  - apply IH. intros i. apply (H (S i)).
Qed.

Lemma collapse_ws_tidy t :
  only_spaces db t -> tidy db (collapse_ws db (strip_sep t)).
Proof.
  intros Ht. split; [|split].
  - apply re_sub_plus_Forall; [by repeat constructor|].
    apply Forall_forall. intros c _ Hc Hs. unfold re_s in Hc. congruence.
  - apply no_double_space_intro. intros i a b Ha Hb [-> ->].
    by apply (squeeze_no_pair (re_s db) 32%N eq_refl (strip_sep t) i 32%N 32%N).
  - split; intros c Hc.
    + destruct (head (strip_sep t)) as [d|] eqn:E.
      * destruct (strip_sep_ends db t d Ht) as [Hs Hw]; [by left|].
        unfold collapse_ws in Hc.
        rewrite (squeeze_head _ _ _ d) in Hc by done. by injection Hc as <-.
      * destruct (strip_sep t); [done | done].
    + destruct (last (strip_sep t)) as [d|] eqn:E.
      * destruct (strip_sep_ends db t d Ht) as [Hs Hw]; [by right|].
        unfold collapse_ws in Hc.
        rewrite (squeeze_last _ _ _ d) in Hc by done. by injection Hc as <-.
      * apply last_None in E. by rewrite E in Hc.
Qed.

(** The pieces of a match, on an ASCII subject. *)
Lemma search_title_pieces z t y l :
  all_ascii z -> only_spaces db z ->
  search_title db z = Some (t, y, l) ->
  only_spaces db t /\ length y = 4%nat /\
  Forall (fun c => ascii_digit c = true) y /\
  (forall x, l = Some x -> is_language x).
Proof.
  intros Ha Ho H.
  destruct (search_title_Forall db _ _ _ _ _ H Ha) as (_ & Hya & _).
  destruct (search_title_Forall db _ _ _ _ _ H Ho) as (Hto & _ & _).
  apply search_title_spec in H as (rest & -> & Hy & _).
  apply m_year_spec in Hy as (paren & r & _ & _ & Hlen & Hd & ->).
  split; [done|]. split; [done|]. split.
  - apply Forall_forall. intros c Hc.
    apply digit_ascii_digit with db.
    + by eapply Forall_forall in Hya.
    + by eapply Forall_forall in Hd.
  - intros x Hx. apply m_language_spec in Hx as (lang & ? & _ & ? & _).
    by exists lang.
Qed.

(** C4, as amended.  When the pattern matches with its language group,
    the result is "Title (Year) Language": the four digits, the
    language as the file name spells it, and in front the text before
    the year with the separators stripped at both ends and runs of
    white space collapsed; when nothing is left of that text the result
    is "(Year) Language". *)
Theorem clean_filename_with_language s t y l :
  search_title db (step5 db s) = Some (t, y, Some l) ->
  let title := collapse_ws db (strip_sep t) in
  clean_filename db s = titled title y (Some l) /\
  length y = 4%nat /\ Forall (fun c => ascii_digit c = true) y /\
  is_language l /\ tidy db title.
Proof.
  intros H title.
  destruct (search_title_pieces _ _ _ _ (step5_ascii db s) (step5_only_spaces s) H)
    as (Ht & Hlen & Hy & Hl).
  split; [|split; [done|]; split; [done|]; split; [by apply Hl|by apply collapse_ws_tidy]].
  unfold clean_filename. rewrite H. by apply format_name_titled.
Qed.

End YearFacts.

Lemma language_ends_in_letter x :
  is_language x -> exists c, last x = Some c /\ ascii_letter c = true.
Proof.
  intros H. destruct (language_letters x H) as [Hne Hx].
  destruct x as [|c x _] using rev_ind; [done|].
  exists c. rewrite last_snoc. split; [done|].
  apply Forall_app in Hx as [_ Hc]. by apply Forall_cons in Hc as [? _].
Qed.

Lemma title_year_language_last db out :
  title_year_language db out -> exists c, last out = Some c /\ ascii_letter c = true.
Proof.
  intros (title & year & language & -> & _ & _ & Hl & _).
  destruct (language_ends_in_letter _ Hl) as (c & Hc & Hletter).
  exists c. split; [|done].
  apply last_Some in Hc as [l' ->].
  rewrite !app_assoc. apply last_snoc.
Qed.

(** C4, as the specification states it, fails on "Tamil Movie 2021": the
    cleaned name holds a year and a language, the language is not behind
    the year, and the result has no language. *)
Lemma language_before_year :
  has_year unicode_excerpt (step5 unicode_excerpt (lit "Tamil Movie 2021")) = true /\
  has_language (step5 unicode_excerpt (lit "Tamil Movie 2021")) = true /\
  clean_filename unicode_excerpt (lit "Tamil Movie 2021") = lit "Tamil Movie (2021)" /\
  ~ title_year_language unicode_excerpt
      (clean_filename unicode_excerpt (lit "Tamil Movie 2021")).
Proof.
  split; [vm_compute; reflexivity|]. split; [vm_compute; reflexivity|].
  assert (clean_filename unicode_excerpt (lit "Tamil Movie 2021") = lit "Tamil Movie (2021)")
    as E by (vm_compute; reflexivity).
  split; [done|]. rewrite E. intros H.
  apply title_year_language_last in H as (c & Hc & Hletter).
  vm_compute in Hc. injection Hc as <-. by vm_compute in Hletter.
Qed.

Lemma clean_filename_with_language_witness :
  search_title unicode_excerpt (step5 unicode_excerpt (lit "Movie_Name-(2021)_tamil_HDRip.mkv"))
  = Some (lit "Movie Name-", lit "2021", Some (lit "tamil")) /\
  clean_filename unicode_excerpt (lit "Movie_Name-(2021)_tamil_HDRip.mkv")
  = lit "Movie Name (2021) tamil".
Proof.
  split; [vm_compute; reflexivity|].
  destruct (clean_filename_with_language unicode_excerpt
              (lit "Movie_Name-(2021)_tamil_HDRip.mkv")
              (lit "Movie Name-") (lit "2021") (lit "tamil")) as [E _].
  - vm_compute. reflexivity.
  - rewrite E. vm_compute. reflexivity.
Defined.

(** ** Clean titles *)

(** ** Patterns that find nothing *)

Lemma re_finds_cons m c s :
  re_finds m (c :: s) = false -> m (c :: s) = None /\ re_finds m s = false.
Proof. cbn. by destruct (m (c :: s)). Qed.

Lemma re_sub_id m repl s : re_finds m s = false -> re_sub m repl s = s.
Proof.
  induction s as [|c s IH]; [done|].
  intros [Hm Hs]%re_finds_cons.
  rewrite re_sub_no_match by auto. by rewrite IH.
Qed.

Lemma lstrip_id p s :
  (forall c, head s = Some c -> p c = false) -> lstrip p s = s.
Proof. destruct s as [|c s]; [done|]. intros H. cbn. by rewrite H. Qed.

Lemma rstrip_id p s :
  (forall c, last s = Some c -> p c = false) -> rstrip p s = s.
Proof.
  intros H. destruct (last s) as [c|] eqn:E.
  - eapply rstrip_keep; eauto.
  - apply last_None in E. by rewrite E.
Qed.

Lemma strip_id p s :
  (forall c, head s = Some c -> p c = false) ->
  (forall c, last s = Some c -> p c = false) -> strip p s = s.
Proof. intros Hh Hl. unfold strip. rewrite lstrip_id by done. by apply rstrip_id. Qed.

(** ** Brackets *)

Lemma bracket_body_closes s n : bracket_body s = Some n -> existsb (N.eqb 93) s = true.
Proof.
  revert n. induction s as [|c s IH]; intros n; cbn [bracket_body existsb]; [done|].
  rewrite (N.eqb_sym 93 c). destruct (c =? 93)%N; [done|]. cbn [orb].
  destruct (c =? 10)%N; [done|].
  destruct (bracket_body s) as [k|]; [|done]. intros _. by eapply IH.
Qed.

Lemma no_bracket_pair_no_match s :
  has_bracket_pair s = false -> re_finds m_bracket s = false.
Proof.
  induction s as [|c s IH]; [done|].
  cbn [has_bracket_pair re_finds m_bracket].
  destruct (c =? 91)%N eqn:E; cbn [andb orb option_map].
  - destruct (bracket_body s) as [n|] eqn:Eb; cbn [option_map].
    + by rewrite (bracket_body_closes _ _ Eb).
    + intros [_ H]%orb_false_elim. by apply IH.
  - apply IH.
Qed.

Lemma existsb_sublist (f : N -> bool) (a s : str) :
  sublist a s -> existsb f a = true -> existsb f s = true.
Proof.
  induction 1 as [|x a s _ IH|x a s _ IH]; cbn [existsb]; [done| |].
  - destruct (f x); [done|]. apply IH.
  - intros H. rewrite (IH H). apply orb_true_r.
Qed.

Lemma has_bracket_pair_sublist (a s : str) :
  sublist a s -> has_bracket_pair a = true -> has_bracket_pair s = true.
Proof.
  induction 1 as [|x a s Hs IH|x a s Hs IH]; cbn [has_bracket_pair]; [done| |].
  - intros [H | H]%orb_true_iff.
    + apply andb_true_iff in H as [-> H]. cbn [andb]. by rewrite (existsb_sublist _ _ _ Hs H).
    + rewrite (IH H). apply orb_true_r.
  - intros H. rewrite (IH H). apply orb_true_r.
Qed.

Lemma existsb_plain (b : str) :
  Forall (fun c => is_bracket c = false) b -> existsb (N.eqb 93) b = false.
Proof.
  induction 1 as [|c b Hc _ IH]; [done|]. cbn [existsb]. rewrite IH.
  unfold is_bracket in Hc. apply orb_false_elim in Hc as [_ Hc].
  by rewrite N.eqb_sym, Hc.
Qed.

Lemma has_bracket_pair_plain (b : str) :
  Forall (fun c => is_bracket c = false) b -> has_bracket_pair b = false.
Proof.
  induction 1 as [|c b Hc _ IH]; [done|]. cbn [has_bracket_pair]. rewrite IH.
  unfold is_bracket in Hc. apply orb_false_elim in Hc as [-> _]. done.
Qed.

Lemma has_bracket_pair_app_plain (a b : str) :
  Forall (fun c => is_bracket c = false) b ->
  has_bracket_pair (a ++ b) = has_bracket_pair a.
Proof.
  intros Hb. induction a as [|c a IH]; cbn [app has_bracket_pair].
  - by apply has_bracket_pair_plain.
  - rewrite IH. rewrite existsb_app, (existsb_plain b Hb). by rewrite orb_false_r.
Qed.

Lemma has_bracket_pair_map (f : N -> N) (s : str) :
  (forall c, c ∈ s -> (f c =? 91)%N = (c =? 91)%N /\ (f c =? 93)%N = (c =? 93)%N) ->
  has_bracket_pair (f <$> s) = has_bracket_pair s.
Proof.
  induction s as [|c s IH]; intros H; [done|]. cbn [fmap list_fmap has_bracket_pair].
  rewrite IH by (intros d Hd; apply H; by right).
  destruct (H c) as [-> _]; [by left|].
  f_equal. f_equal.
  assert (forall r : str, (forall c, c ∈ r -> (f c =? 93)%N = (c =? 93)%N) ->
            existsb (N.eqb 93) (f <$> r) = existsb (N.eqb 93) r) as Hex.
  { induction r as [|d r IHr]; intros Hr; [done|]. cbn [fmap list_fmap existsb].
    rewrite IHr by (intros e He; apply Hr; by right).
    rewrite (N.eqb_sym 93 (f d)), (N.eqb_sym 93 d). by rewrite Hr by (by left). }
  apply Hex. intros d Hd. apply H. by right.
Qed.

Section TagFacts.
Context (db : UnicodeDB).

Lemma tag_free_text x t a :
  tag_free db x = true -> t ∈ tags -> a ∈ tag_text t -> ieq a x = false.
Proof.
  intros [H _]%andb_true_iff Ht Ha.
  rewrite forallb_forall in H. apply list_elem_of_In, H in Ht.
  rewrite forallb_forall in Ht. apply list_elem_of_In, Ht in Ha.
  by apply negb_true_iff in Ha.
Qed.

Lemma tag_free_digit x : tag_free db x = true -> re_d db x = false.
Proof. intros [_ H]%andb_true_iff. by apply negb_true_iff in H. Qed.

Lemma tag_text_nonempty t : t ∈ tags -> tag_text t <> [].
Proof.
  intros Ht.
  assert (forallb (fun t => match tag_text t with [] => false | _ => true end) tags = true)
    as H by (vm_compute; reflexivity).
  rewrite forallb_forall in H. apply list_elem_of_In, H in Ht.
  by destruct (tag_text t).
Qed.

(** A match of the tag pattern holds the text of a tag. *)
Lemma m_one_tag_core t s n : m_one_tag db t s = Some n -> tag_core db t s = true.
Proof.
  unfold m_one_tag, tag_core. destruct (imatch (tag_text t) s) as [rest|]; [|done].
  destruct t as [x|x least]; [done|].
  destruct (decide (least <= class_run (re_d db) rest)%nat); [|done].
  intros _. by apply bool_decide_eq_true.
Qed.

Lemma m_alt_core ts s n :
  m_alt db ts s = Some n -> existsb (fun t => tag_core db t s) ts = true.
Proof.
  induction ts as [|t ts IH]; cbn [m_alt existsb]; [done|].
  destruct (m_one_tag db t s) as [k|] eqn:E.
  - intros _. by rewrite (m_one_tag_core _ _ _ E).
  - intros H. rewrite (IH H). apply orb_true_r.
Qed.

Lemma no_tag_text_no_match s :
  has_tag_text db s = false -> re_finds (m_tag db) s = false.
Proof.
  induction s as [|c s IH]; [intros _; vm_compute; reflexivity|].
  cbn [has_tag_text re_finds]. intros [H1 H2]%orb_false_elim.
  destruct (m_tag db (c :: s)) as [n|] eqn:E; [|by apply IH].
  apply m_alt_core in E. congruence.
Qed.

(** The text of a tag is found again when the subject grows. *)
Lemma class_run_app_le p (u v : str) : (class_run p u <= class_run p (u ++ v))%nat.
Proof. induction u as [|c u IH]; cbn; [lia|]. destruct (p c); lia. Qed.

Lemma tag_core_app t u v : tag_core db t u = true -> tag_core db t (u ++ v) = true.
Proof.
  unfold tag_core. destruct (imatch (tag_text t) u) as [rest|] eqn:E; [|done].
  rewrite (imatch_app _ _ v _ E). destruct t as [x|x least]; [done|].
  intros H%bool_decide_eq_true. apply bool_decide_eq_true.
  pose proof (class_run_app_le (re_d db) rest v). lia.
Qed.

Lemma has_tag_text_app_r u v : has_tag_text db u = true -> has_tag_text db (u ++ v) = true.
Proof.
  induction u as [|c u IH]; [done|]. cbn [has_tag_text app].
  intros [H | H]%orb_true_iff.
  - apply orb_true_iff. left. apply existsb_exists in H as (t & Ht & Hc).
    apply existsb_exists. exists t. split; [done|].
    by apply (tag_core_app t (c :: u) v).
  - rewrite (IH H). apply orb_true_r.
Qed.

Lemma has_tag_text_app_l u v : has_tag_text db v = true -> has_tag_text db (u ++ v) = true.
Proof.
  intros H. induction u as [|c u IH]; [done|]. cbn [has_tag_text app].
  rewrite IH. apply orb_true_r.
Qed.

(** It does not run over a character no tag is made of. *)
Lemma imatch_cut p u x b rest :
  Forall (fun a => ieq a x = false) p ->
  imatch p (u ++ x :: b) = Some rest ->
  exists rest', imatch p u = Some rest' /\ rest = rest' ++ x :: b.
Proof.
  intros Hp. revert u. induction Hp as [|a p Ha _ IH]; intros u; cbn [imatch].
  - intros [= <-]. by exists u.
  - destruct u as [|c u]; cbn [app].
    + by rewrite Ha.
    + destruct (ieq a c); [apply IH | done].
Qed.

Lemma class_run_app_stop p (u : str) x b :
  p x = false -> class_run p (u ++ x :: b) = class_run p u.
Proof.
  intros Hx. induction u as [|c u IH]; cbn; [by rewrite Hx|]. destruct (p c); [by rewrite IH | done].
Qed.

Lemma tag_core_cut t u x b :
  tag_free db x = true -> t ∈ tags ->
  tag_core db t (u ++ x :: b) = true -> tag_core db t u = true.
Proof.
  intros Hx Ht. unfold tag_core.
  destruct (imatch (tag_text t) (u ++ x :: b)) as [rest|] eqn:E; [|done].
  apply imatch_cut in E as (rest' & -> & ->).
  2:{ apply Forall_forall. intros a Ha. by eapply tag_free_text. }
  destruct t as [y|y least]; [done|].
  by rewrite class_run_app_stop by (by apply tag_free_digit).
Qed.

Lemma tag_core_at_free t x b :
  tag_free db x = true -> t ∈ tags -> tag_core db t (x :: b) = false.
Proof.
  intros Hx Ht. unfold tag_core.
  pose proof (tag_text_nonempty t Ht) as Hne.
  destruct (tag_text t) as [|a p] eqn:E; [done|]. cbn [imatch].
  rewrite (tag_free_text x t a Hx Ht); [done|]. rewrite E. by left.
Qed.

Lemma existsb_tags_false (f : tag -> bool) :
  (forall t, t ∈ tags -> f t = false) -> existsb f tags = false.
Proof.
  intros H. destruct (existsb f tags) eqn:E; [|done].
  apply existsb_exists in E as (t & Ht%list_elem_of_In & Hf).
  rewrite H in Hf; done.
Qed.

Lemma has_tag_text_split u x b :
  tag_free db x = true ->
  has_tag_text db (u ++ x :: b) = has_tag_text db u || has_tag_text db b.
Proof.
  intros Hx. induction u as [|c u IH]; cbn [app has_tag_text].
  - rewrite existsb_tags_false; [done|]. intros t Ht. by apply tag_core_at_free.
  - rewrite IH, orb_assoc.
    assert (existsb (fun t => tag_core db t (c :: u ++ x :: b)) tags
            = existsb (fun t => tag_core db t (c :: u)) tags) as ->; [|done].
    destruct (existsb (fun t => tag_core db t (c :: u)) tags) eqn:E.
    + apply existsb_exists in E as (t & Ht & Hc). apply existsb_exists.
      exists t. split; [done|]. by apply (tag_core_app t (c :: u) (x :: b)).
    + destruct (existsb (fun t => tag_core db t (c :: u ++ x :: b)) tags) eqn:E'; [|done].
      apply existsb_exists in E' as (t & Ht & Hc).
      apply (tag_core_cut t (c :: u) x b Hx) in Hc; [|by apply list_elem_of_In].
      assert (existsb (fun t => tag_core db t (c :: u)) tags = true); [|congruence].
      apply existsb_exists. eauto.
Qed.

Lemma has_tag_text_nil : has_tag_text db [] = false.
Proof. reflexivity. Qed.

(** A word without the text of a tag in it has none as a part. *)
Lemma has_tag_text_word (w : str) :
  Forall (fun c => tag_free db c = true) w -> has_tag_text db w = false.
Proof.
  induction 1 as [|c w Hc _ IH]; [done|].
  change (c :: w) with ([] ++ c :: w). by rewrite has_tag_text_split.
Qed.

End TagFacts.

Section SettledFacts.
Context (db : UnicodeDB).

Lemma clean_filename_finish s : clean_filename db s = finish db (step5 db s).
Proof. reflexivity. Qed.

Lemma not_junk_not_space c :
  is_ascii c = true -> is_prefix_junk db c = false -> isspace db c = false.
Proof.
  unfold is_prefix_junk, re_W, re_w, isalnum, isspace. intros ->.
  intros H. apply orb_false_elim in H as [H H95]. apply orb_false_elim in H as [_ H].
  apply negb_false_iff in H. rewrite H95, orb_false_r in H.
  revert H. char_bounds.
Qed.

Lemma not_junk_not_sep c :
  is_ascii c = true -> is_prefix_junk db c = false -> is_sep c = false.
Proof.
  unfold is_prefix_junk, re_W, re_w, isalnum. intros ->.
  intros H. apply orb_false_elim in H as [H H95]. apply orb_false_elim in H as [_ H].
  apply negb_false_iff in H. rewrite H95, orb_false_r in H.
  revert H H95. char_bounds.
Qed.

Lemma m_non_ascii_none s : all_ascii s -> re_finds m_non_ascii s = false.
Proof.
  induction 1 as [|c s Hc _ IH]; [done|]. cbn [re_finds].
  unfold m_non_ascii at 1. rewrite m_plus_miss by (by rewrite Hc). done.
Qed.

Lemma squeeze_spaces s :
  Forall (fun c => c <> 95%N) s -> ws_pair db s = false ->
  re_sub (m_plus (is_us_ws db)) [32%N] s = space_out db <$> s.
Proof.
  induction 1 as [|c s Hc Hs IH]; [done|]. cbn [ws_pair fmap list_fmap].
  intros [Hp Hw]%orb_false_elim. specialize (IH Hw).
  assert (is_us_ws db c = isspace db c) as Hus.
  { unfold is_us_ws, re_s. apply N.eqb_neq in Hc. by rewrite Hc. }
  unfold space_out at 1. destruct (isspace db c) eqn:E.
  - rewrite re_sub_plus_hit by done. cbn [app]. f_equal.
    destruct s as [|d s]; [done|]. cbn [andb] in Hp.
    rewrite lstrip_keep; [done|].
    apply Forall_cons in Hs as [Hd _]. unfold is_us_ws, re_s.
    apply N.eqb_neq in Hd. by rewrite Hd, Hp.
  - rewrite re_sub_plus_miss by done. by f_equal.
Qed.

Lemma ws_pair_single z : only_spaces db z -> no_double_space z -> ws_pair db z = false.
Proof.
  induction 1 as [|a z Ha Hz IH]; [done|]. cbn [no_double_space ws_pair].
  intros [Hab Hn]. rewrite (IH Hn), orb_false_r.
  destruct z as [|b z]; [done|].
  apply Forall_cons in Hz as [Hb _].
  destruct (isspace db a) eqn:Ea; [|done]. destruct (isspace db b) eqn:Eb; [|done].
  exfalso. apply Hab. auto.
Qed.

Lemma space_out_id z : only_spaces db z -> space_out db <$> z = z.
Proof.
  induction 1 as [|c z Hc _ IH]; [done|]. cbn. rewrite IH. f_equal.
  unfold space_out. destruct (isspace db c); [by rewrite Hc | done].
Qed.

(** Steps 1 to 5 leave a settled string as it is. *)
Lemma settled_steps z :
  settled db z ->
  sub_brackets z = z /\ sub_prefix db z = z /\ sub_non_ascii z = z /\
  sub_underscores db z = z /\ sub_tags db z = z.
Proof.
  intros (Ha & Hu & Ho & Hd & Hh & Hl & Ht & Hb).
  assert (strip_ws db z = z) as Hstrip.
  { apply strip_id.
    - intros c Hc. apply not_junk_not_space; [|by apply Hh].
      destruct z; [done|]. injection Hc as ->. by apply Forall_cons in Ha as [? _].
    - intros c Hc. destruct (isspace db c) eqn:E; [|done].
      exfalso. apply (Hl c Hc). eapply Forall_forall in Ho; [by apply Ho|].
      apply last_Some in Hc as [l' ->]. apply elem_of_app. right. by left. }
  split; [by apply re_sub_id, no_bracket_pair_no_match|].
  split; [by apply lstrip_id|].
  split; [by apply re_sub_id, m_non_ascii_none|].
  split.
  - unfold sub_underscores. rewrite squeeze_spaces by (by try apply ws_pair_single).
    by rewrite space_out_id.
  - unfold sub_tags. rewrite re_sub_id by (by apply no_tag_text_no_match). done.
Qed.

Lemma settled_step5 z : settled db z -> step5 db z = z.
Proof.
  intros H. destruct (settled_steps z H) as (E1 & E2 & E3 & E4 & E5).
  unfold step5, step4. by rewrite E1, E2, E3, E4, E5.
Qed.

Lemma settled_clean z : settled db z -> clean_filename db z = finish db z.
Proof. intros H. by rewrite clean_filename_finish, settled_step5. Qed.

End SettledFacts.

Lemma no_double_space_app_l (a b : str) : no_double_space (a ++ b) -> no_double_space a.
Proof.
  induction a as [|x a IH]; [done|]. cbn [app no_double_space].
  intros [H1 H2]. split; [|by apply IH].
  destruct a as [|y a]; [done|]. done.
Qed.

Lemma no_double_space_app_r (a b : str) : no_double_space (a ++ b) -> no_double_space b.
Proof.
  induction a as [|x a IH]; [done|]. cbn [app no_double_space]. intros [_ H]. by apply IH.
Qed.

Lemma no_double_space_strip p s : no_double_space s -> no_double_space (strip p s).
Proof.
  intros H. unfold strip.
  destruct (lstrip_suffix p s) as [k Hk]. rewrite Hk in H.
  apply no_double_space_app_r in H.
  destruct (rstrip_prefix p (lstrip p s)) as [k' Hk']. rewrite Hk' in H.
  by apply no_double_space_app_l in H.
Qed.

Lemma strip_infix p (s : str) : exists a b, s = a ++ strip p s ++ b.
Proof.
  unfold strip. destruct (lstrip_suffix p s) as [k Hk].
  destruct (rstrip_prefix p (lstrip p s)) as [k' Hk'].
  exists k, k'. by rewrite <- Hk', <- Hk.
Qed.

Lemma infix_sublist (a m b : str) : sublist m (a ++ m ++ b).
Proof. apply sublist_inserts_l, sublist_inserts_r. reflexivity. Qed.

Section CleanTitleFacts.
Context (db : UnicodeDB).

Lemma has_tag_text_infix (a m b : str) :
  has_tag_text db (a ++ m ++ b) = false -> has_tag_text db m = false.
Proof.
  intros H. destruct (has_tag_text db m) eqn:E; [|done].
  by rewrite has_tag_text_app_l in H by (by apply has_tag_text_app_r).
Qed.

Lemma tag_chars_not_space t a :
  t ∈ tags -> a ∈ tag_text t -> ascii_space (lower a) = false.
Proof.
  intros Ht Ha.
  assert (forallb (fun t => forallb (fun a => negb (ascii_space (lower a))) (tag_text t)) tags
          = true) as H by (vm_compute; reflexivity).
  rewrite forallb_forall in H. apply list_elem_of_In, H in Ht.
  rewrite forallb_forall in Ht. apply list_elem_of_In, Ht in Ha.
  by apply negb_true_iff in Ha.
Qed.

Lemma ascii_space_lower c : ascii_space c = true -> lower c = c.
Proof. char_bounds. Qed.

Lemma ieq_space_out a c :
  is_ascii c = true -> ascii_space (lower a) = false ->
  ieq a (space_out db c) = ieq a c.
Proof.
  intros Hc Ha. unfold space_out, isspace. rewrite Hc.
  destruct (ascii_space c) eqn:E; [|done].
  unfold ieq. rewrite (ascii_space_lower c E). change (lower 32) with 32%N.
  destruct (N.eqb_spec (lower a) 32) as [e|_].
  { rewrite e in Ha. done. }
  destruct (N.eqb_spec (lower a) c) as [e|_]; [|done].
  rewrite e in Ha. congruence.
Qed.

Lemma re_d_space_out c : is_ascii c = true -> re_d db (space_out db c) = re_d db c.
Proof.
  intros Hc. unfold space_out, isspace. rewrite Hc.
  destruct (ascii_space c) eqn:E; [|done].
  unfold re_d, isdecimal. rewrite Hc. cbn. revert E. char_bounds.
Qed.

Lemma imatch_space_out p u :
  Forall (fun a => ascii_space (lower a) = false) p -> all_ascii u ->
  imatch p (space_out db <$> u) = (fun r : str => space_out db <$> r) <$> imatch p u.
Proof.
  intros Hp. revert u. induction Hp as [|a p Ha _ IH]; intros u Hu; [done|].
  destruct u as [|c u]; [done|]. apply Forall_cons in Hu as [Hc Hu].
  cbn [fmap list_fmap imatch]. rewrite ieq_space_out by done.
  destruct (ieq a c); [by apply IH | done].
Qed.

Lemma class_run_space_out u :
  all_ascii u -> class_run (re_d db) (space_out db <$> u) = class_run (re_d db) u.
Proof.
  induction 1 as [|c u Hc _ IH]; [done|]. cbn [fmap list_fmap class_run].
  rewrite re_d_space_out by done. by rewrite IH.
Qed.

Lemma tag_core_space_out t u :
  t ∈ tags -> all_ascii u ->
  tag_core db t (space_out db <$> u) = tag_core db t u.
Proof.
  intros Ht Hu. unfold tag_core. rewrite imatch_space_out; [|by apply Forall_forall; intros a Ha; eapply tag_chars_not_space|done].
  destruct (imatch (tag_text t) u) as [rest|] eqn:E; [|done]. cbn [fmap option_fmap option_map].
  destruct t as [x|x least]; [done|].
  rewrite class_run_space_out; [done|].
  apply imatch_spec in E as (E & _). unfold all_ascii in Hu. rewrite E in Hu.
  by apply Forall_app in Hu as [_ ?].
Qed.

Lemma has_tag_text_space_out u :
  all_ascii u -> has_tag_text db (space_out db <$> u) = has_tag_text db u.
Proof.
  induction 1 as [|c u Hc Hu IH]; [done|]. cbn [fmap list_fmap has_tag_text].
  rewrite IH. f_equal.
  assert (forall ts, (forall t, t ∈ ts -> t ∈ tags) ->
            existsb (fun t => tag_core db t (space_out db c :: (space_out db <$> u))) ts
            = existsb (fun t => tag_core db t (c :: u)) ts) as Hex.
  { induction ts as [|t ts IHts]; intros Hts; [done|]. cbn [existsb].
    rewrite IHts by (intros t' Ht'; apply Hts; by right).
    f_equal. apply (tag_core_space_out t (c :: u)); [apply Hts; by left | by constructor]. }
  by apply Hex.
Qed.

Lemma clean_title_unfold s :
  clean_title db s = true ->
  has_tag_text db s = false /\ has_bracket_pair s = false /\ all_ascii s /\
  Forall (fun c => c <> 95%N) s /\
  (forall c, head s = Some c -> is_prefix_junk db c = false) /\
  ws_pair db s = false.
Proof.
  unfold clean_title. rewrite !andb_true_iff, !negb_true_iff.
  intros [[[[[H1 H2] H3] H4] H5] H6].
  split; [done|]. split; [done|].
  split; [by apply Forall_forall; intros c Hc%list_elem_of_In; rewrite forallb_forall in H3; apply H3|].
  split.
  - apply Forall_forall. intros c Hc%list_elem_of_In ->.
    assert (existsb (N.eqb 95) s = true); [|congruence].
    apply existsb_exists. exists 95%N. by split.
  - split; [|done]. intros c Hc. destruct s; [done|]. by injection Hc as ->.
Qed.

(** On a clean title the steps 1 to 5 turn each white-space character
    into a space and drop the last one if it is white space; the outcome
    is settled. *)
Lemma clean_title_step5 s :
  clean_title db s = true ->
  step5 db s = strip_ws db (space_out db <$> s) /\ settled db (step5 db s).
Proof.
  intros (Ht & Hb & Ha & Hu & Hh & Hw)%clean_title_unfold.
  set (m := space_out db <$> s). set (z := strip_ws db m).
  assert (step4 db s = z) as E4.
  { unfold step4, sub_brackets. rewrite (re_sub_id m_bracket) by (by apply no_bracket_pair_no_match).
    unfold sub_prefix. rewrite lstrip_id by done.
    unfold sub_non_ascii. rewrite re_sub_id by (by apply m_non_ascii_none).
    unfold sub_underscores. by rewrite squeeze_spaces. }
  assert (all_ascii m) as Ham.
  { apply Forall_fmap. eapply Forall_impl; [exact Ha|]. intros c Hc. cbn.
    unfold space_out. by destruct (isspace db c). }
  assert (only_spaces db m) as Hom.
  { apply Forall_fmap, Forall_forall. intros c _. cbn. unfold space_out.
    destruct (isspace db c) eqn:E; [done | congruence]. }
  assert (no_double_space m) as Hdm.
  { clear -Hw. subst m. induction s as [|a s IH]; [done|].
    cbn [ws_pair] in Hw. apply orb_false_elim in Hw as [Hab Hw].
    cbn [fmap list_fmap no_double_space]. split; [|by apply IH].
    destruct s as [|b s]; [done|]. cbn [fmap list_fmap]. intros [Ea Eb].
    unfold space_out in Ea, Eb.
    destruct (isspace db a) eqn:Ha; [|by rewrite Ea in Ha].
    destruct (isspace db b) eqn:Hb'; [done | by rewrite Eb in Hb']. }
  assert (settled db z) as Hz.
  { destruct (strip_infix (isspace db) m) as (k & k' & Ek). fold (strip_ws db m) in Ek. fold z in Ek.
    split; [by apply strip_Forall|].
    split.
    { apply strip_Forall, Forall_fmap. eapply Forall_impl; [exact Hu|]. intros c Hc. cbn.
      unfold space_out. by destruct (isspace db c). }
    split; [by apply strip_Forall|].
    split; [by apply no_double_space_strip|].
    split.
    { intros c Hc. destruct s as [|d s]; [done|].
      assert (is_prefix_junk db d = false) as Hd by (by apply Hh).
      assert (isspace db d = false) as Hsd.
      { apply not_junk_not_space; [|done]. by apply Forall_cons in Ha as [? _]. }
      assert (head z = Some d) as Hz.
      { subst z m. cbn [fmap list_fmap]. unfold space_out at 1. rewrite Hsd.
        unfold strip_ws, strip. rewrite lstrip_keep by done. by apply rstrip_head. }
      congruence. }
    split.
    { intros c Hc ->. apply strip_last in Hc. done. }
    split.
    { apply (has_tag_text_infix k z k'). rewrite <- Ek. subst m.
      by rewrite has_tag_text_space_out. }
    destruct (has_bracket_pair z) eqn:E; [|done].
    apply (has_bracket_pair_sublist z m) in E; [|rewrite Ek; apply infix_sublist].
    subst m. rewrite has_bracket_pair_map in E; [congruence|].
    intros c Hc. eapply Forall_forall in Ha; [|exact Hc]. cbn in Ha.
    unfold space_out, isspace. rewrite Ha.
    destruct (ascii_space c) eqn:Es; [|done]. revert Es. char_bounds. }
  split; [|unfold step5; rewrite E4; by destruct (settled_steps db z Hz) as (_ & _ & _ & _ & ->)].
  unfold step5. rewrite E4. by destruct (settled_steps db z Hz) as (_ & _ & _ & _ & ->).
Qed.

End CleanTitleFacts.

Lemma titled_Forall (P : N -> Prop) T y l :
  P 32%N -> P 40%N -> P 41%N ->
  Forall P T -> Forall P y -> (forall x, l = Some x -> Forall P x) ->
  Forall P (titled T y l).
Proof.
  intros H32 H40 H41 HT Hy Hl. unfold titled.
  apply Forall_app. split.
  { destruct T; [done|]. apply Forall_app. split; [done | by repeat constructor]. }
  apply Forall_app. split; [by repeat constructor|].
  apply Forall_app. split; [done|].
  apply Forall_app. split; [by repeat constructor|].
  destruct l as [x|]; [|done]. constructor; auto.
Qed.

Section IdempotenceFacts.
Context (db : UnicodeDB).

Lemma collapse_ws_id u : only_spaces db u -> no_double_space u -> collapse_ws db u = u.
Proof.
  unfold collapse_ws.
  induction 1 as [|c u Hc Hu IH]; [done|]. cbn [no_double_space].
  intros [Hab Hn]. specialize (IH Hn).
  destruct (isspace db c) eqn:E.
  - rewrite re_sub_plus_hit by done. cbn [app].
    assert (c = 32%N) as -> by (by apply Hc). f_equal.
    destruct u as [|d u]; [done|].
    rewrite lstrip_keep; [done|].
    apply Forall_cons in Hu as [Hd _].
    destruct (re_s db d) eqn:Ed; [|done].
    exfalso. apply Hab. split; [done|]. by apply Hd.
  - rewrite re_sub_plus_miss by done. by f_equal.
Qed.

Lemma collapse_ws_no_double u : no_double_space (collapse_ws db u).
Proof.
  apply no_double_space_intro. intros i a b Ha Hb [-> ->].
  by apply (squeeze_no_pair (re_s db) 32%N eq_refl u i 32%N 32%N).
Qed.

Lemma settled_no_newline z : only_spaces db z -> 10%N ∉ z.
Proof.
  intros H Hin. eapply Forall_forall in H; [|exact Hin].
  by specialize (H eq_refl).
Qed.

Lemma ascii_digit_plain c :
  ascii_digit c = true ->
  is_ascii c = true /\ c <> 95%N /\ is_bracket c = false /\
  is_prefix_junk db c = false /\ is_us_ws db c = false /\ c <> 32%N.
Proof.
  intros H.
  assert (is_ascii c = true) as Ha by (revert H; char_bounds).
  split; [done|]. split; [intros ->; done|].
  split; [unfold is_bracket; revert H; char_bounds|].
  split.
  { unfold is_prefix_junk, re_W, re_w, isalnum. rewrite Ha. unfold ascii_alnum. rewrite H.
    cbn. revert H. char_bounds. }
  split; [|intros ->; done].
  unfold is_us_ws, re_s, isspace. rewrite Ha. revert H. char_bounds.
Qed.

Lemma ascii_letter_plain c :
  ascii_letter c = true ->
  is_ascii c = true /\ c <> 95%N /\ is_bracket c = false /\
  is_us_ws db c = false /\ c <> 32%N.
Proof.
  intros H.
  assert (is_ascii c = true) as Ha by (revert H; char_bounds).
  split; [done|]. split; [intros ->; done|].
  split; [unfold is_bracket; revert H; char_bounds|].
  split; [|intros ->; done].
  unfold is_us_ws, re_s, isspace. rewrite Ha. revert H. char_bounds.
Qed.

Lemma tag_free_32 : tag_free db 32 = true.
Proof. vm_compute. reflexivity. Qed.
Lemma tag_free_40 : tag_free db 40 = true.
Proof. vm_compute. reflexivity. Qed.
Lemma tag_free_41 : tag_free db 41 = true.
Proof. vm_compute. reflexivity. Qed.

(** The year and the language of a match are parts of the subject. *)
Lemma search_title_infix z t y l :
  search_title db z = Some (t, y, l) ->
  (exists a b, z = a ++ y ++ b) /\
  (forall x, l = Some x -> exists a b, z = a ++ x ++ b) /\
  (forall x, l = Some x -> m_language languages x = Some x).
Proof.
  intros H. apply search_title_spec in H as (rest & -> & Hy & _).
  apply m_year_spec in Hy as (paren & r & E & _ & _ & _ & ->).
  destruct (lstrip_suffix (is_us_ws db) rest) as [k Hk]. rewrite E in Hk.
  split; [|split].
  - exists (t ++ k ++ paren), r. rewrite Hk. by rewrite <- !app_assoc.
  - intros x Hx. apply m_language_spec in Hx as (lang & _ & -> & _).
    set (r1 := match r with [] => r | c :: r' => if (c =? 41)%N then r' else r end) in *.
    assert (exists k1, r = k1 ++ r1) as [k1 Hr1].
    { subst r1. destruct r as [|c r']; [by exists []|].
      destruct (c =? 41)%N; [by exists [c] | by exists []]. }
    destruct (lstrip_suffix (is_us_ws db) r1) as [k2 Hk2].
    exists (t ++ k ++ paren ++ y ++ k1 ++ k2), (drop (length lang) (lstrip (is_us_ws db) r1)).
    rewrite Hk, Hr1. rewrite Hk2 at 1. rewrite <- !app_assoc.
    do 6 f_equal. by rewrite take_drop.
  - intros x Hx. by eapply m_language_idem.
Qed.

(** What follows the year in a rebuilt name is read back as it was
    written. *)
Lemma after_year_suffix l :
  (forall x, l = Some x -> is_language x /\ m_language languages x = Some x) ->
  after_year db (41%N :: match l with Some x => 32%N :: x | None => [] end) = l.
Proof.
  intros Hl. unfold after_year. rewrite N.eqb_refl.
  destruct l as [x|]; [|done].
  destruct (Hl x eq_refl) as [Hx Hm].
  destruct (language_letters x Hx) as [Hne Hall].
  destruct x as [|c x]; [done|].
  apply Forall_cons in Hall as [Hc _].
  destruct (ascii_letter_plain c Hc) as (_ & _ & _ & Hus & _).
  change (lstrip (is_us_ws db) (32%N :: c :: x)) with (lstrip (is_us_ws db) (c :: x)).
  by rewrite lstrip_keep.
Qed.

Lemma has_tag_text_tail y l :
  has_tag_text db y = false ->
  (forall x, l = Some x -> has_tag_text db x = false) ->
  has_tag_text db (y ++ 41%N :: match l with Some x => 32%N :: x | None => [] end) = false.
Proof.
  intros Hy Hl. rewrite has_tag_text_split by apply tag_free_41. rewrite Hy. cbn [orb].
  destruct l as [x|]; [|done].
  change (32%N :: x) with ([] ++ 32%N :: x).
  rewrite has_tag_text_split by apply tag_free_32. by apply Hl.
Qed.

End IdempotenceFacts.

Section Idempotence.
Context (db : UnicodeDB).

Lemma settled_head z c :
  settled db z -> head z = Some c ->
  is_prefix_junk db c = false /\ is_sep c = false /\ isspace db c = false.
Proof.
  intros (Ha & _ & _ & _ & Hh & _) Hc.
  assert (is_ascii c = true) as Hac.
  { destruct z; [done|]. injection Hc as ->. by apply Forall_cons in Ha as [? _]. }
  split; [by apply Hh|].
  split; [apply (not_junk_not_sep db) | apply (not_junk_not_space db)]; auto.
Qed.

(** Without a year: the stripped name is settled, has no year either,
    and is stripped. *)
Lemma clean_again_no_year z :
  settled db z -> search_title db z = None ->
  clean_filename db (strip_sep z) = strip_sep z.
Proof.
  intros Hz Hnone.
  pose proof Hz as (Ha & Hu & Ho & Hd & Hh & Hl & Ht & Hb).
  assert (strip_sep z = rstrip is_sep z) as Eo.
  { destruct z as [|c z']; [done|].
    destruct (settled_head _ c Hz eq_refl) as (_ & Hs & _).
    by apply (strip_keep_head _ _ c). }
  destruct (rstrip_prefix is_sep z) as [k Hk]. rewrite <- Eo in Hk.
  set (out := strip_sep z) in *.
  assert (settled db out) as Hout.
  { split; [by apply strip_Forall|]. split; [by apply strip_Forall|].
    split; [by apply strip_Forall|]. split; [by apply no_double_space_strip|].
    split.
    { intros c Hc. apply Hh. rewrite Hk. by destruct out. }
    split.
    { intros c Hc ->. by apply strip_last in Hc. }
    split.
    { apply (has_tag_text_infix db [] out k). cbn [app]. by rewrite <- Hk. }
    destruct (has_bracket_pair out) eqn:E; [|done].
    apply (has_bracket_pair_sublist out z) in E; [congruence|].
    rewrite Hk. by apply sublist_inserts_r. }
  rewrite settled_clean by done. unfold finish.
  assert (search_title db out = None) as ->.
  { apply search_title_none; [by apply (settled_no_newline db), strip_Forall|].
    intros j. destruct (m_year db (drop j out)) as [[y l]|] eqn:E; [|done].
    exfalso. destruct (decide (j <= length out)%nat) as [Hj|Hj].
    - apply (m_year_app db _ k) in E as [l' E].
      rewrite <- drop_app_le, <- Hk in E by done.
      pose proof (proj1 (search_title_none db z (settled_no_newline db z Ho)) Hnone j) as Hj'.
      congruence.
    - rewrite drop_ge in E by lia. done. }
  apply strip_idem.
Qed.

(** With a year: the rebuilt name is read back as it was built. *)
Lemma clean_again_year z t y l :
  settled db z -> search_title db z = Some (t, y, l) ->
  clean_filename db (format_name db t y l) = format_name db t y l.
Proof.
  intros Hz Hsome.
  pose proof Hz as (Ha & Hu & Ho & Hd & Hh & Hl & Ht & Hb).
  destruct (search_title_pieces db z t y l Ha Ho Hsome) as (Hto & Hlen & Hy & Hlang).
  destruct (search_title_infix db z t y l Hsome) as ((ya & yb & Ey) & Hlx & Hlm).
  pose proof Hsome as (rest & Ez & Hyear & _ & Hmin)%search_title_spec.
  set (T := strip_sep t).
  assert (Forall (fun c => is_ascii c = true) t /\ Forall (fun c => c <> 95%N) t
          /\ no_double_space t) as (Hta & Htu & Htd).
  { rewrite Ez in Ha, Hu, Hd. apply Forall_app in Ha as [? _]. apply Forall_app in Hu as [? _].
    by apply no_double_space_app_l in Hd. }
  assert (only_spaces db T /\ no_double_space T) as [HTo HTd].
  { split; [by apply strip_Forall | by apply no_double_space_strip]. }
  assert (format_name db t y l = titled T y l) as Eout.
  { rewrite format_name_titled by done. fold T. by rewrite collapse_ws_id. }
  rewrite Eout.
  (* the facts about the year and the language *)
  assert (has_tag_text db y = false) as Hty.
  { apply (has_tag_text_infix db ya y yb). by rewrite <- Ey. }
  assert (forall x, l = Some x -> has_tag_text db x = false) as Htl.
  { intros x Hx. destruct (Hlx x Hx) as (xa & xb & Ex).
    apply (has_tag_text_infix db xa x xb). by rewrite <- Ex. }
  assert (forall x, l = Some x -> Forall (fun c => ascii_letter c = true) x) as Hletters.
  { intros x Hx. by apply language_letters, Hlang. }
  assert (after_year db (41%N :: match l with Some x => 32%N :: x | None => [] end) = l)
    as Hafter.
  { apply after_year_suffix. intros x Hx. split; [by apply Hlang | by apply Hlm]. }
  set (suf := match l with Some x => 32%N :: x | None => [] end) in *.
  assert (forall P : N -> Prop, P 32%N -> P 40%N -> P 41%N ->
            (forall c, ascii_digit c = true -> P c) ->
            (forall c, ascii_letter c = true -> P c) ->
            Forall P ([40%N] ++ y ++ [41%N] ++ suf)) as Hplain.
  { intros P H32 H40 H41 Hdig Hlet.
    apply Forall_app. split; [by repeat constructor|].
    apply Forall_app. split; [eapply Forall_impl; [exact Hy | done]|].
    apply Forall_app. split; [by repeat constructor|].
    subst suf. destruct l as [x|]; [|done]. constructor; [done|].
    eapply Forall_impl; [by apply Hletters | done]. }
  assert (Forall (fun c => is_bracket c = false) ([40%N] ++ y ++ [41%N] ++ suf)) as Hnb.
  { apply Hplain; try done.
    - intros c Hc. by destruct (ascii_digit_plain db c Hc) as (_ & _ & ? & _).
    - intros c Hc. by destruct (ascii_letter_plain db c Hc) as (_ & _ & ? & _). }
  assert (forall c, last ([40%N] ++ y ++ [41%N] ++ suf) = Some c -> c <> 32%N) as Hlast.
  { intros c. subst suf. destruct l as [x|].
    - destruct (language_letters x (Hlang x eq_refl)) as [Hne Hx].
      destruct x as [|d x _] using rev_ind; [done|].
      replace ([40%N] ++ y ++ [41%N] ++ 32%N :: x ++ [d])
        with (([40%N] ++ y ++ [41%N] ++ 32%N :: x) ++ [d]) by (by rewrite <- !app_assoc).
      rewrite last_snoc. intros [= <-].
      apply Forall_app in Hx as [_ Hx]. apply Forall_cons in Hx as [Hx _].
      by destruct (ascii_letter_plain db d Hx) as (_ & _ & _ & _ & ?).
    - rewrite app_nil_r, app_assoc, last_snoc. by intros [= <-]. }
  assert (m_year db (y ++ [41%N] ++ suf) = Some (y, l)) as Hyear0.
  { transitivity (Some (y, after_year db (41%N :: suf))); [|by rewrite Hafter].
    apply (m_year_intro db _ []); [|by left|done|].
    - cbn [app]. apply lstrip_id. intros c Hc.
      destruct y as [|d y']; [done|]. injection Hc as ->.
      apply Forall_cons in Hy as [Hd' _].
      by destruct (ascii_digit_plain db c Hd') as (_ & _ & _ & _ & ? & _).
    - eapply Forall_impl; [exact Hy|]. intros c. apply ascii_digit_re_d. }
  assert (m_year db ([32%N; 40%N] ++ y ++ [41%N] ++ suf) = Some (y, l)) as Hyear1.
  { transitivity (Some (y, after_year db (41%N :: suf))); [|by rewrite Hafter].
    apply (m_year_intro db _ [40%N]); [done|by right|done|].
    eapply Forall_impl; [exact Hy|]. intros c. apply ascii_digit_re_d. }
  destruct T as [|c0 T'] eqn:ET.
  - (* nothing is left of the title: "(2021) Tamil" *)
    set (o := y ++ [41%N] ++ suf).
    change (titled [] y l) with (40%N :: o).
    assert (settled db o) as Ho'.
    { subst o.
      assert (forall P : N -> Prop, P 32%N -> P 40%N -> P 41%N ->
                (forall c, ascii_digit c = true -> P c) ->
                (forall c, ascii_letter c = true -> P c) ->
                Forall P (y ++ [41%N] ++ suf)) as Hplain'.
      { intros P ? ? ? ? ?. by apply (Forall_app P [40%N]), Hplain. }
      split.
      { apply Hplain'; try done.
        - intros c Hc. by destruct (ascii_digit_plain db c Hc).
        - intros c Hc. by destruct (ascii_letter_plain db c Hc). }
      split.
      { apply Hplain'; try done.
        - intros c Hc. by destruct (ascii_digit_plain db c Hc) as (_ & ? & _).
        - intros c Hc. by destruct (ascii_letter_plain db c Hc) as (_ & ? & _). }
      split.
      { apply Hplain'; try done.
        - intros c Hc Hs. by rewrite ascii_digit_not_space in Hs.
        - intros c Hc Hs. by rewrite ascii_letter_not_space in Hs. }
      split.
      { apply (no_double_space_app_r [40%N]).
        pose proof (collapse_ws_no_double db
          (strip_ws db (strip_sep t ++ lit " (" ++ strip_ws db y ++ lit ") "
                        ++ match l with Some x => strip_ws db x | None => [] end))) as Hn.
        change (no_double_space (format_name db t y l)) in Hn.
        rewrite Eout in Hn. exact Hn. }
      split.
      { intros c Hc. destruct y as [|d y']; [done|]. injection Hc as ->.
        apply Forall_cons in Hy as [Hd' _].
        by destruct (ascii_digit_plain db c Hd') as (_ & _ & _ & ? & _). }
      split.
      { intros c Hc. apply Hlast. cbn [app]. cbn [app] in Hc.
        destruct (y ++ 41%N :: suf) eqn:E'; [by destruct y | done]. }
      split; [by apply has_tag_text_tail|].
      apply has_bracket_pair_plain. apply Hplain'; try done.
      - intros c Hc. by destruct (ascii_digit_plain db c Hc) as (_ & _ & ? & _).
      - intros c Hc. by destruct (ascii_letter_plain db c Hc) as (_ & _ & ? & _). }
    destruct (settled_steps db o Ho') as (_ & _ & E3 & E4 & E5).
    assert (step5 db (40%N :: o) = o) as E5'.
    { unfold step5, step4, sub_brackets.
      rewrite (re_sub_id m_bracket)
        by (apply no_bracket_pair_no_match, has_bracket_pair_plain; exact Hnb).
      assert (sub_prefix db (40%N :: o) = o) as ->.
      { unfold sub_prefix.
        change (lstrip (is_prefix_junk db) (40%N :: o)) with (lstrip (is_prefix_junk db) o).
        apply lstrip_id. by destruct Ho' as (_ & _ & _ & _ & ? & _). }
      by rewrite E3, E4, E5. }
    rewrite clean_filename_finish, E5'. unfold finish.
    change o with ([] ++ y ++ [41%N] ++ suf).
    rewrite (search_title_intro db [] _ y l); [|apply not_elem_of_nil|done|cbn; lia].
    rewrite format_name_titled; [done|done|done|done].
  - (* "Title (2021) Tamil" *)
    assert (exists G, t = T ++ G /\ head t = Some c0 /\ is_prefix_junk db c0 = false) as (G & EG & Hht & Hj0).
    { destruct t as [|c t'] eqn:Et; [done|].
      assert (head z = Some c) as Hhz by (by rewrite Ez).
      destruct (settled_head z c Hz Hhz) as (Hj & Hs & Hw).
      assert (T = rstrip is_sep (c :: t')) as ET'.
      { subst T. by apply (strip_keep_head _ _ c). }
      destruct (rstrip_prefix is_sep (c :: t')) as [G HG].
      exists G. rewrite ET'. split; [done|].
      assert (head (rstrip is_sep (c :: t')) = Some c) as Hh' by (by apply rstrip_head).
      rewrite <- ET', ET in Hh'. injection Hh' as ->. done. }
    rewrite ET in EG.
    destruct (last (c0 :: T')) as [d0|] eqn:Elast; [|by apply last_None in Elast].
    assert (is_sep d0 = false /\ isspace db d0 = false) as [Hd0s Hd0w].
    { apply (strip_sep_ends db t d0 Hto). right. fold T. by rewrite ET. }
    assert (is_us_ws db d0 = false) as Hd0u.
    { unfold is_us_ws, re_s. rewrite Hd0w, orb_false_r.
      apply N.eqb_neq. intros ->. done. }
    set (W := [40%N] ++ y ++ [41%N] ++ suf).
    set (out := (c0 :: T') ++ [32%N] ++ W).
    assert (titled (c0 :: T') y l = out) as Etitled.
    { unfold titled. by rewrite <- !app_assoc. }
    rewrite Etitled.
    assert (Forall (fun c => is_ascii c = true) (c0 :: T') /\
            Forall (fun c => c <> 95%N) (c0 :: T')) as [HTa HTu].
    { rewrite <- ET. subst T. split; by apply strip_Forall. }
    assert (settled db out) as Hout.
    { subst out. split.
      { apply Forall_app. split; [done|]. apply (Forall_app _ [32%N]). split; [by repeat constructor|].
        apply Hplain; try done.
        - intros c Hc. by destruct (ascii_digit_plain db c Hc).
        - intros c Hc. by destruct (ascii_letter_plain db c Hc). }
      split.
      { apply Forall_app. split; [done|]. apply (Forall_app _ [32%N]). split; [by repeat constructor|].
        apply Hplain; try done.
        - intros c Hc. by destruct (ascii_digit_plain db c Hc) as (_ & ? & _).
        - intros c Hc. by destruct (ascii_letter_plain db c Hc) as (_ & ? & _). }
      split.
      { apply Forall_app. split; [done|]. apply (Forall_app _ [32%N]). split; [by repeat constructor|].
        apply Hplain; try done.
        - intros c Hc Hs. by rewrite ascii_digit_not_space in Hs.
        - intros c Hc Hs. by rewrite ascii_letter_not_space in Hs. }
      split.
      { pose proof (collapse_ws_no_double db
          (strip_ws db (strip_sep t ++ lit " (" ++ strip_ws db y ++ lit ") "
                        ++ match l with Some x => strip_ws db x | None => [] end))) as Hn.
        change (no_double_space (format_name db t y l)) in Hn.
        rewrite Eout in Hn. unfold titled in Hn. rewrite <- !app_assoc in Hn. exact Hn. }
      split.
      { intros c Hc. cbn in Hc. by injection Hc as <-. }
      split.
      { intros c Hc. apply Hlast.
        rewrite app_assoc in Hc. subst W.
        destruct ([40%N] ++ y ++ [41%N] ++ suf) as [|w W'] eqn:EW; [done|].
        rewrite last_app_cons in Hc. done. }
      split.
      { change ((c0 :: T') ++ [32%N] ++ W) with ((c0 :: T') ++ 32%N :: W).
        rewrite has_tag_text_split by apply tag_free_32.
        apply orb_false_intro.
        - apply (has_tag_text_infix db [] (c0 :: T') (G ++ rest)). cbn [app].
          change (c0 :: T' ++ G ++ rest) with ((c0 :: T') ++ G ++ rest).
          by rewrite app_assoc, <- EG, <- Ez.
        - subst W. change ([40%N] ++ y ++ [41%N] ++ suf) with ([] ++ 40%N :: (y ++ 41%N :: suf)).
          rewrite has_tag_text_split by apply tag_free_40. cbn [orb has_tag_text].
          by apply has_tag_text_tail. }
      rewrite has_bracket_pair_app_plain.
      - destruct (has_bracket_pair (c0 :: T')) eqn:E; [|done].
        apply (has_bracket_pair_sublist _ z) in E; [congruence|].
        rewrite Ez, EG, <- app_assoc. by apply sublist_inserts_r.
      - apply (Forall_app _ [32%N]). split; [by repeat constructor|].
        apply Hplain; try done.
        + intros c Hc. by destruct (ascii_digit_plain db c Hc) as (_ & _ & ? & _).
        + intros c Hc. by destruct (ascii_letter_plain db c Hc) as (_ & _ & ? & _). }
    rewrite settled_clean by done. unfold finish. subst out.
    rewrite (search_title_intro db (c0 :: T') _ y l).
    + rewrite format_name_titled by (by try (rewrite <- ET; apply strip_Forall)).
      assert (strip_sep (c0 :: T') = c0 :: T') as ->.
      { rewrite <- ET. unfold T, strip_sep. apply strip_idem. }
      rewrite collapse_ws_id by first [done | by rewrite <- ET]. exact Etitled.
    + first [ by apply (settled_no_newline db)
            | rewrite <- ET; by apply (settled_no_newline db) ].
    + exact Hyear1.
    + intros j Hj.
      rewrite drop_app_le by lia.
      destruct (m_year db (drop j (c0 :: T') ++ [32%N] ++ W)) as [[y' l']|] eqn:E; [|done].
      exfalso.
      assert (last (drop j (c0 :: T')) = Some d0) as Hld.
      { apply last_Some in Elast as [T0 E0]. rewrite E0.
        rewrite E0, length_app in Hj. cbn in Hj.
        rewrite drop_app_le by lia. apply last_snoc. }
      destruct (m_year_cut db _ d0 W y' l' Hld Hd0u E (G ++ rest)) as [l'' E''].
      assert (z = (c0 :: T') ++ G ++ rest) as Ez' by (by rewrite Ez, EG, <- app_assoc).
      rewrite <- drop_app_le, <- Ez' in E'' by lia.
      rewrite Hmin in E''; [done|]. rewrite EG, length_app. lia.
Qed.

(** "No tags" read by the letters.  On a title that holds the text of no
    tag (not even inside a longer word), no '[' followed by a ']', only
    ASCII, no underscore, no leading non-word character and no two
    white-space characters in a row, cleaning twice gives what cleaning
    once gives. *)
Lemma clean_title_idempotent s :
  clean_title db s = true ->
  clean_filename db (clean_filename db s) = clean_filename db s.
Proof.
  intros [_ Hz]%clean_title_step5.
  rewrite (clean_filename_finish db s). unfold finish.
  destruct (search_title db (step5 db s)) as [[[t y] l]|] eqn:E.
  - by eapply clean_again_year.
  - by apply clean_again_no_year.
Qed.

End Idempotence.

(** ** The tag pattern when the subject grows or changes its spaces *)

Lemma rstrip_dropped p s :
  exists k, s = rstrip p s ++ k /\ Forall (fun c => p c = true) k.
Proof.
  induction s as [|c s (k & Hk & Hp)]; [by exists []|].
  cbn [rstrip]. destruct (rstrip p s) as [|d r] eqn:E.
  - cbn [app] in Hk. subst k. destruct (p c) eqn:Ec.
    + exists (c :: s). split; [done|]. by constructor.
    + exists s. by split.
  - exists k. split; [|done]. cbn [app]. by rewrite Hk at 1.
Qed.

Lemma re_finds_grow m (a k : str) :
  (forall u, m u <> None -> m (u ++ k) <> None) ->
  re_finds m a = true -> re_finds m (a ++ k) = true.
Proof.
  intros Hm. induction a as [|c a IH].
  - cbn [re_finds app]. destruct (m []) eqn:E; [|done]. intros _.
    specialize (Hm [] ltac:(congruence)). cbn [app] in Hm.
    destruct k as [|d k]; cbn [re_finds]; [by rewrite E|]. by destruct (m (d :: k)).
  - cbn [re_finds app]. destruct (m (c :: a)) eqn:E.
    + intros _. specialize (Hm (c :: a) ltac:(congruence)). cbn [app] in Hm.
      by destruct (m (c :: a ++ k)).
    + intros H. rewrite (IH H). by destruct (m (c :: a ++ k)).
Qed.

Lemma class_run_le p (s : str) : (class_run p s <= length s)%nat.
Proof. induction s as [|c s IH]; cbn; [lia|]. destruct (p c); lia. Qed.

Section TagPatternFacts.
Context (db : UnicodeDB).

Lemma re_W_newline : re_W db 10 = true.
Proof. reflexivity. Qed.

Lemma ascii_space_re_W c : is_ascii c = true -> isspace db c = true -> re_W db c = true.
Proof.
  unfold isspace, re_W, re_w, isalnum. intros ->. char_bounds.
Qed.

Lemma ascii_space_not_digit c : is_ascii c = true -> isspace db c = true -> re_d db c = false.
Proof.
  unfold isspace, re_d, isdecimal. intros ->. char_bounds.
Qed.

Lemma m_tag_end_grow r c k :
  re_W db c = true -> m_tag_end db r <> None -> m_tag_end db (r ++ c :: k) <> None.
Proof.
  intros Hc. destruct r as [|d r]; cbn [app m_tag_end].
  - by rewrite Hc.
  - destruct (re_W db d) eqn:Ed; [done|].
    destruct r as [|e r]; cbn [at_dollar app].
    + destruct (N.eqb_spec d 10) as [->|_]; [|done]. by rewrite re_W_newline in Ed.
    + done.
Qed.

Lemma m_digits_then_end_grow least j r c k :
  (j <= length r)%nat -> re_W db c = true ->
  m_digits_then_end db least j r <> None ->
  m_digits_then_end db least j (r ++ c :: k) <> None.
Proof.
  intros Hj Hc. induction j as [|j IH]; cbn [m_digits_then_end].
  - rewrite !drop_0. intros H.
    destruct (m_tag_end db r) eqn:E; [|done].
    destruct (m_tag_end db (r ++ c :: k)) eqn:E'; [done|].
    exfalso. by apply (m_tag_end_grow r c k Hc); [rewrite E|].
  - rewrite drop_app_le by done. intros H.
    destruct (m_tag_end db (drop (S j) r ++ c :: k)) eqn:E'; [done|].
    destruct (m_tag_end db (drop (S j) r)) eqn:E.
    + exfalso. by apply (m_tag_end_grow (drop (S j) r) c k Hc); [rewrite E|].
    + destruct (decide (least <= j)%nat); [|done]. apply IH; [lia | done].
Qed.

Lemma m_one_tag_grow t u c k :
  re_W db c = true -> re_d db c = false ->
  m_one_tag db t u <> None -> m_one_tag db t (u ++ c :: k) <> None.
Proof.
  intros Hc Hd. unfold m_one_tag.
  destruct (imatch (tag_text t) u) as [rest|] eqn:E; [|done].
  rewrite (imatch_app _ _ (c :: k) _ E).
  destruct t as [x|x least].
  - destruct (m_tag_end db rest) eqn:E1; [|done]. intros _.
    destruct (m_tag_end db (rest ++ c :: k)) eqn:E2; [done|].
    exfalso. by apply (m_tag_end_grow rest c k Hc); [rewrite E1|].
  - rewrite class_run_app_stop by done.
    destruct (decide (least <= class_run (re_d db) rest)%nat); [|done].
    destruct (m_digits_then_end db least (class_run (re_d db) rest) rest) eqn:E1; [|done].
    intros _.
    destruct (m_digits_then_end db least (class_run (re_d db) rest) (rest ++ c :: k)) eqn:E2;
      [done|].
    exfalso. apply (m_digits_then_end_grow least (class_run (re_d db) rest) rest c k);
      [apply class_run_le | done | by rewrite E1 | done].
Qed.

Lemma m_tag_grow u c k :
  re_W db c = true -> re_d db c = false ->
  m_tag db u <> None -> m_tag db (u ++ c :: k) <> None.
Proof.
  intros Hc Hd. unfold m_tag. induction tags as [|t ts IH]; cbn [m_alt]; [done|].
  destruct (m_one_tag db t u) eqn:E.
  - intros _. destruct (m_one_tag db t (u ++ c :: k)) eqn:E'; [done|].
    exfalso. by apply (m_one_tag_grow t u c k Hc Hd); [rewrite E|].
  - intros H. destruct (m_one_tag db t (u ++ c :: k)); [done | by apply IH].
Qed.

(** A tag that the pattern finds is found again when white space
    follows the subject. *)
Lemma re_finds_tag_grow a k :
  Forall (fun c => is_ascii c = true /\ isspace db c = true) k ->
  re_finds (m_tag db) a = true -> re_finds (m_tag db) (a ++ k) = true.
Proof.
  intros Hk. destruct k as [|c k]; [by rewrite app_nil_r|].
  apply Forall_cons in Hk as [[Ha Hs] _].
  apply re_finds_grow. intros u.
  apply m_tag_grow; [by apply ascii_space_re_W | by apply ascii_space_not_digit].
Qed.

Lemma re_W_space_out c : is_ascii c = true -> re_W db (space_out db c) = re_W db c.
Proof.
  intros Hc. unfold space_out. destruct (isspace db c) eqn:E; [|done].
  rewrite (ascii_space_re_W c Hc E). reflexivity.
Qed.

Lemma m_tag_end_space_out r :
  all_ascii r -> m_tag_end db (space_out db <$> r) = m_tag_end db r.
Proof.
  intros Hr. destruct r as [|c r]; [done|]. apply Forall_cons in Hr as [Hc _].
  cbn [fmap list_fmap m_tag_end]. rewrite re_W_space_out by done.
  destruct (re_W db c) eqn:E; [done|].
  assert (space_out db c = c) as ->.
  { unfold space_out. destruct (isspace db c) eqn:Es; [|done].
    by rewrite (ascii_space_re_W c Hc Es) in E. }
  by destruct r.
Qed.

Lemma m_digits_then_end_space_out least j r :
  all_ascii r ->
  m_digits_then_end db least j (space_out db <$> r) = m_digits_then_end db least j r.
Proof.
  intros Hr. induction j as [|j IH]; cbn [m_digits_then_end].
  - rewrite !drop_0. by rewrite m_tag_end_space_out.
  - rewrite <- fmap_drop, m_tag_end_space_out by (by apply Forall_drop).
    by rewrite IH.
Qed.

Lemma m_one_tag_space_out t u :
  t ∈ tags -> all_ascii u -> m_one_tag db t (space_out db <$> u) = m_one_tag db t u.
Proof.
  intros Ht Hu. unfold m_one_tag.
  rewrite imatch_space_out;
    [|by apply Forall_forall; intros a Ha; eapply tag_chars_not_space|done].
  destruct (imatch (tag_text t) u) as [rest|] eqn:E; [|done].
  cbn [fmap option_fmap option_map].
  assert (all_ascii rest) as Hrest.
  { apply imatch_spec in E as (E & _). unfold all_ascii in Hu. rewrite E in Hu.
    by apply Forall_app in Hu as [_ ?]. }
  destruct t as [x|x least].
  - by rewrite m_tag_end_space_out.
  - rewrite class_run_space_out by done. by rewrite m_digits_then_end_space_out.
Qed.

Lemma m_tag_space_out u : all_ascii u -> m_tag db (space_out db <$> u) = m_tag db u.
Proof.
  intros Hu. unfold m_tag.
  assert (forall ts, (forall t, t ∈ ts -> t ∈ tags) ->
            m_alt db ts (space_out db <$> u) = m_alt db ts u) as H.
  { induction ts as [|t ts IH]; intros Hts; [done|]. cbn [m_alt].
    rewrite m_one_tag_space_out by (by try (apply Hts; left)).
    rewrite IH by (intros t' Ht'; apply Hts; by right). done. }
  by apply H.
Qed.

Lemma re_finds_tag_space_out u :
  all_ascii u -> re_finds (m_tag db) (space_out db <$> u) = re_finds (m_tag db) u.
Proof.
  induction 1 as [|c u Hc Hu IH]; [done|].
  cbn [fmap list_fmap re_finds].
  change (space_out db c :: (space_out db <$> u)) with (space_out db <$> (c :: u)).
  rewrite m_tag_space_out by (by constructor). by rewrite IH.
Qed.

End TagPatternFacts.

Section SpacedFacts.
Context (db : UnicodeDB).

Lemma spaced_head z c :
  spaced db z -> head z = Some c ->
  is_prefix_junk db c = false /\ is_sep c = false /\ isspace db c = false.
Proof.
  intros (Ha & _ & _ & _ & Hh & _) Hc.
  assert (is_ascii c = true) as Hac.
  { destruct z; [done|]. injection Hc as ->. by apply Forall_cons in Ha as [? _]. }
  split; [by apply Hh|].
  split; [apply (not_junk_not_sep db) | apply (not_junk_not_space db)]; auto.
Qed.

(** Steps 2 to 4 leave a spaced string as it is. *)
Lemma spaced_steps z :
  spaced db z ->
  sub_prefix db z = z /\ sub_non_ascii z = z /\ sub_underscores db z = z /\ strip_ws db z = z.
Proof.
  intros (Ha & Hu & Ho & Hd & Hh & Hl).
  assert (strip_ws db z = z) as Hstrip.
  { apply strip_id.
    - intros c Hc. apply not_junk_not_space; [|by apply Hh].
      destruct z; [done|]. injection Hc as ->. by apply Forall_cons in Ha as [? _].
    - intros c Hc. destruct (isspace db c) eqn:E; [|done].
      exfalso. apply (Hl c Hc). eapply Forall_forall in Ho; [by apply Ho|].
      apply last_Some in Hc as [l' ->]. apply elem_of_app. right. by left. }
  split; [by apply lstrip_id|].
  split; [by apply re_sub_id, m_non_ascii_none|].
  split; [|done].
  unfold sub_underscores. rewrite squeeze_spaces by (by try apply ws_pair_single).
  by rewrite space_out_id.
Qed.

(** So do steps 1 and 5 when their patterns find nothing in it. *)
Lemma spaced_step5 z :
  spaced db z -> re_finds (m_tag db) z = false -> re_finds m_bracket z = false ->
  step5 db z = z.
Proof.
  intros Hz Ht Hb. destruct (spaced_steps z Hz) as (E2 & E3 & E4 & Es).
  unfold step5, step4, sub_brackets. rewrite (re_sub_id m_bracket) by done.
  rewrite E2, E3, E4. unfold sub_tags. by rewrite re_sub_id.
Qed.

Lemma already_clean_unfold s :
  already_clean db s = true ->
  re_finds (m_tag db) s = false /\ re_finds m_bracket s = false /\ all_ascii s /\
  Forall (fun c => c <> 95%N) s /\
  (forall c, head s = Some c -> is_prefix_junk db c = false) /\
  ws_pair db s = false.
Proof.
  unfold already_clean. rewrite !andb_true_iff, !negb_true_iff.
  intros [[[[[H1 H2] H3] H4] H5] H6].
  split; [done|]. split; [done|].
  split; [by apply Forall_forall; intros c Hc%list_elem_of_In; rewrite forallb_forall in H3; apply H3|].
  split.
  - apply Forall_forall. intros c Hc%list_elem_of_In ->.
    assert (existsb (N.eqb 95) s = true); [|congruence].
    apply existsb_exists. exists 95%N. by split.
  - split; [|done]. intros c Hc. destruct s; [done|]. by injection Hc as ->.
Qed.

(** On an already-clean title the steps 1 to 5 turn each white-space
    character into a space and drop the last one if it is white space;
    the tag pattern finds nothing in the outcome. *)
Lemma already_clean_step5 s :
  already_clean db s = true ->
  step5 db s = strip_ws db (space_out db <$> s) /\
  spaced db (step5 db s) /\ re_finds (m_tag db) (step5 db s) = false.
Proof.
  intros (Ht & Hb & Ha & Hu & Hh & Hw)%already_clean_unfold.
  set (m := space_out db <$> s). set (z := strip_ws db m).
  assert (step4 db s = z) as E4.
  { unfold step4, sub_brackets. rewrite (re_sub_id m_bracket) by done.
    unfold sub_prefix. rewrite lstrip_id by done.
    unfold sub_non_ascii. rewrite re_sub_id by (by apply m_non_ascii_none).
    unfold sub_underscores. by rewrite squeeze_spaces. }
  assert (all_ascii m) as Ham.
  { apply Forall_fmap. eapply Forall_impl; [exact Ha|]. intros c Hc. cbn.
    unfold space_out. by destruct (isspace db c). }
  assert (only_spaces db m) as Hom.
  { apply Forall_fmap, Forall_forall. intros c _. cbn. unfold space_out.
    destruct (isspace db c) eqn:E; [done | congruence]. }
  assert (no_double_space m) as Hdm.
  { clear -Hw. subst m. induction s as [|a s IH]; [done|].
    cbn [ws_pair] in Hw. apply orb_false_elim in Hw as [Hab Hw].
    cbn [fmap list_fmap no_double_space]. split; [|by apply IH].
    destruct s as [|b s]; [done|]. cbn [fmap list_fmap]. intros [Ea Eb].
    unfold space_out in Ea, Eb.
    destruct (isspace db a) eqn:Ha; [|by rewrite Ea in Ha].
    destruct (isspace db b) eqn:Hb'; [done | by rewrite Eb in Hb']. }
  assert (z = rstrip (isspace db) m) as Ez.
  { destruct s as [|d s]; [done|].
    assert (isspace db d = false) as Hsd.
    { apply not_junk_not_space; [|by apply Hh]. by apply Forall_cons in Ha as [? _]. }
    subst z m. cbn [fmap list_fmap]. unfold space_out at 1 3. rewrite Hsd.
    by apply (strip_keep_head _ _ d). }
  assert (spaced db z) as Hz.
  { split; [by apply strip_Forall|].
    split.
    { apply strip_Forall, Forall_fmap. eapply Forall_impl; [exact Hu|]. intros c Hc. cbn.
      unfold space_out. by destruct (isspace db c). }
    split; [by apply strip_Forall|].
    split; [by apply no_double_space_strip|].
    split.
    { intros c Hc. destruct s as [|d s]; [done|].
      assert (is_prefix_junk db d = false) as Hd by (by apply Hh).
      assert (isspace db d = false) as Hsd.
      { apply not_junk_not_space; [|done]. by apply Forall_cons in Ha as [? _]. }
      assert (head z = Some d) as Hz.
      { subst z m. cbn [fmap list_fmap]. unfold space_out at 1. rewrite Hsd.
        unfold strip_ws, strip. rewrite lstrip_keep by done. by apply rstrip_head. }
      congruence. }
    intros c Hc ->. apply strip_last in Hc. done. }
  assert (re_finds (m_tag db) z = false) as Htz.
  { destruct (re_finds (m_tag db) z) eqn:E; [|done]. exfalso.
    destruct (rstrip_dropped (isspace db) m) as (k & Hk & Hp). rewrite <- Ez in Hk.
    apply (re_finds_tag_grow db z k) in E.
    - rewrite <- Hk in E. subst m. rewrite re_finds_tag_space_out in E by done. congruence.
    - apply Forall_forall. intros c Hc. split; [|by eapply Forall_forall in Hp].
      eapply Forall_forall in Ham; [exact Ham|]. rewrite Hk. apply elem_of_app. by right. }
  assert (step5 db s = z) as E5.
  { unfold step5. rewrite E4. unfold sub_tags. rewrite re_sub_id by done.
    by destruct (spaced_steps z Hz) as (_ & _ & _ & ->). }
  rewrite E5. done.
Qed.

(** Without a year: the stripped name is spaced, has no year either,
    and is stripped. *)
Lemma read_again_no_year z :
  spaced db z -> search_title db z = None ->
  re_finds (m_tag db) (strip_sep z) = false ->
  re_finds m_bracket (strip_sep z) = false ->
  clean_filename db (strip_sep z) = strip_sep z.
Proof.
  intros Hz Hnone Htag Hbr.
  pose proof Hz as (Ha & Hu & Ho & Hd & Hh & Hl).
  assert (strip_sep z = rstrip is_sep z) as Eo.
  { destruct z as [|c z']; [done|].
    destruct (spaced_head _ c Hz eq_refl) as (_ & Hs & _).
    by apply (strip_keep_head _ _ c). }
  destruct (rstrip_prefix is_sep z) as [k Hk]. rewrite <- Eo in Hk.
  set (out := strip_sep z) in *.
  assert (spaced db out) as Hout.
  { split; [by apply strip_Forall|]. split; [by apply strip_Forall|].
    split; [by apply strip_Forall|]. split; [by apply no_double_space_strip|].
    split.
    { intros c Hc. apply Hh. rewrite Hk. by destruct out. }
    intros c Hc ->. by apply strip_last in Hc. }
  rewrite clean_filename_finish, spaced_step5 by done. unfold finish.
  assert (search_title db out = None) as ->.
  { apply search_title_none; [by apply (settled_no_newline db), strip_Forall|].
    intros j. destruct (m_year db (drop j out)) as [[y l]|] eqn:E; [|done].
    exfalso. destruct (decide (j <= length out)%nat) as [Hj|Hj].
    - apply (m_year_app db _ k) in E as [l' E].
      rewrite <- drop_app_le, <- Hk in E by done.
      pose proof (proj1 (search_title_none db z (settled_no_newline db z Ho)) Hnone j) as Hj'.
      congruence.
    - rewrite drop_ge in E by lia. done. }
  apply strip_idem.
Qed.

(** With a year: the rebuilt name is read back as it was built. *)
Lemma read_again_year z t y l :
  spaced db z -> search_title db z = Some (t, y, l) ->
  re_finds (m_tag db) (format_name db t y l) = false ->
  re_finds m_bracket (format_name db t y l) = false ->
  clean_filename db (format_name db t y l) = format_name db t y l.
Proof.
  intros Hz Hsome Htag Hbr.
  pose proof Hz as (Ha & Hu & Ho & Hd & Hh & Hl).
  destruct (search_title_pieces db z t y l Ha Ho Hsome) as (Hto & Hlen & Hy & Hlang).
  destruct (search_title_infix db z t y l Hsome) as (_ & _ & Hlm).
  pose proof Hsome as (rest & Ez & Hyear & _ & Hmin)%search_title_spec.
  set (T := strip_sep t).
  assert (Forall (fun c => is_ascii c = true) t /\ Forall (fun c => c <> 95%N) t
          /\ no_double_space t) as (Hta & Htu & Htd).
  { rewrite Ez in Ha, Hu, Hd. apply Forall_app in Ha as [? _]. apply Forall_app in Hu as [? _].
    by apply no_double_space_app_l in Hd. }
  assert (only_spaces db T /\ no_double_space T) as [HTo HTd].
  { split; [by apply strip_Forall | by apply no_double_space_strip]. }
  assert (format_name db t y l = titled T y l) as Eout.
  { rewrite format_name_titled by done. fold T. by rewrite collapse_ws_id. }
  rewrite Eout in Htag, Hbr |- *.
  assert (forall x, l = Some x -> Forall (fun c => ascii_letter c = true) x) as Hletters.
  { intros x Hx. by apply language_letters, Hlang. }
  assert (after_year db (41%N :: match l with Some x => 32%N :: x | None => [] end) = l)
    as Hafter.
  { apply after_year_suffix. intros x Hx. split; [by apply Hlang | by apply Hlm]. }
  set (suf := match l with Some x => 32%N :: x | None => [] end) in *.
  assert (forall P : N -> Prop, P 32%N -> P 40%N -> P 41%N ->
            (forall c, ascii_digit c = true -> P c) ->
            (forall c, ascii_letter c = true -> P c) ->
            Forall P ([40%N] ++ y ++ [41%N] ++ suf)) as Hplain.
  { intros P H32 H40 H41 Hdig Hlet.
    apply Forall_app. split; [by repeat constructor|].
    apply Forall_app. split; [eapply Forall_impl; [exact Hy | done]|].
    apply Forall_app. split; [by repeat constructor|].
    subst suf. destruct l as [x|]; [|done]. constructor; [done|].
    eapply Forall_impl; [by apply Hletters | done]. }
  assert (forall c, last ([40%N] ++ y ++ [41%N] ++ suf) = Some c -> c <> 32%N) as Hlast.
  { intros c. subst suf. destruct l as [x|].
    - destruct (language_letters x (Hlang x eq_refl)) as [Hne Hx].
      destruct x as [|d x _] using rev_ind; [done|].
      replace ([40%N] ++ y ++ [41%N] ++ 32%N :: x ++ [d])
        with (([40%N] ++ y ++ [41%N] ++ 32%N :: x) ++ [d]) by (by rewrite <- !app_assoc).
      rewrite last_snoc. intros [= <-].
      apply Forall_app in Hx as [_ Hx]. apply Forall_cons in Hx as [Hx _].
      by destruct (ascii_letter_plain db d Hx) as (_ & _ & _ & _ & ?).
    - rewrite app_nil_r, app_assoc, last_snoc. by intros [= <-]. }
  assert (m_year db (y ++ [41%N] ++ suf) = Some (y, l)) as Hyear0.
  { transitivity (Some (y, after_year db (41%N :: suf))); [|by rewrite Hafter].
    apply (m_year_intro db _ []); [|by left|done|].
    - cbn [app]. apply lstrip_id. intros c Hc.
      destruct y as [|d y']; [done|]. injection Hc as ->.
      apply Forall_cons in Hy as [Hd' _].
      by destruct (ascii_digit_plain db c Hd') as (_ & _ & _ & _ & ? & _).
    - eapply Forall_impl; [exact Hy|]. intros c. apply ascii_digit_re_d. }
  assert (m_year db ([32%N; 40%N] ++ y ++ [41%N] ++ suf) = Some (y, l)) as Hyear1.
  { transitivity (Some (y, after_year db (41%N :: suf))); [|by rewrite Hafter].
    apply (m_year_intro db _ [40%N]); [done|by right|done|].
    eapply Forall_impl; [exact Hy|]. intros c. apply ascii_digit_re_d. }
  destruct T as [|c0 T'] eqn:ET.
  - (* nothing is left of the title: "(2021) Tamil" *)
    set (o := y ++ [41%N] ++ suf).
    change (titled [] y l) with (40%N :: o) in Htag, Hbr |- *.
    assert (spaced db o) as Ho'.
    { subst o.
      assert (forall P : N -> Prop, P 32%N -> P 40%N -> P 41%N ->
                (forall c, ascii_digit c = true -> P c) ->
                (forall c, ascii_letter c = true -> P c) ->
                Forall P (y ++ [41%N] ++ suf)) as Hplain'.
      { intros P ? ? ? ? ?. by apply (Forall_app P [40%N]), Hplain. }
      split.
      { apply Hplain'; try done.
        - intros c Hc. by destruct (ascii_digit_plain db c Hc).
        - intros c Hc. by destruct (ascii_letter_plain db c Hc). }
      split.
      { apply Hplain'; try done.
        - intros c Hc. by destruct (ascii_digit_plain db c Hc) as (_ & ? & _).
        - intros c Hc. by destruct (ascii_letter_plain db c Hc) as (_ & ? & _). }
      split.
      { apply Hplain'; try done.
        - intros c Hc Hs. by rewrite ascii_digit_not_space in Hs.
        - intros c Hc Hs. by rewrite ascii_letter_not_space in Hs. }
      split.
      { apply (no_double_space_app_r [40%N]).
        pose proof (collapse_ws_no_double db
          (strip_ws db (strip_sep t ++ lit " (" ++ strip_ws db y ++ lit ") "
                        ++ match l with Some x => strip_ws db x | None => [] end))) as Hn.
        change (no_double_space (format_name db t y l)) in Hn.
        rewrite Eout in Hn. exact Hn. }
      split.
      { intros c Hc. destruct y as [|d y']; [done|]. injection Hc as ->.
        apply Forall_cons in Hy as [Hd' _].
        by destruct (ascii_digit_plain db c Hd') as (_ & _ & _ & ? & _). }
      intros c Hc. apply Hlast. cbn [app]. cbn [app] in Hc.
      destruct (y ++ 41%N :: suf) eqn:E'; [by destruct y | done]. }
    destruct (spaced_steps o Ho') as (_ & E3 & E4 & Es).
    apply re_finds_cons in Htag as [_ Htag].
    assert (step5 db (40%N :: o) = o) as E5'.
    { unfold step5, step4, sub_brackets. rewrite (re_sub_id m_bracket) by done.
      assert (sub_prefix db (40%N :: o) = o) as ->.
      { unfold sub_prefix.
        change (lstrip (is_prefix_junk db) (40%N :: o)) with (lstrip (is_prefix_junk db) o).
        apply lstrip_id. by destruct Ho' as (_ & _ & _ & _ & ? & _). }
      rewrite E3, E4. unfold sub_tags. by rewrite re_sub_id. }
    rewrite clean_filename_finish, E5'. unfold finish.
    change o with ([] ++ y ++ [41%N] ++ suf).
    rewrite (search_title_intro db [] _ y l); [|apply not_elem_of_nil|done|cbn; lia].
    rewrite format_name_titled; [done|done|done|done].
  - (* "Title (2021) Tamil" *)
    assert (exists G, t = T ++ G /\ head t = Some c0 /\ is_prefix_junk db c0 = false)
      as (G & EG & Hht & Hj0).
    { destruct t as [|c t'] eqn:Et; [done|].
      assert (head z = Some c) as Hhz by (by rewrite Ez).
      destruct (spaced_head z c Hz Hhz) as (Hj & Hs & Hw).
      assert (T = rstrip is_sep (c :: t')) as ET'.
      { subst T. by apply (strip_keep_head _ _ c). }
      destruct (rstrip_prefix is_sep (c :: t')) as [G HG].
      exists G. rewrite ET'. split; [done|].
      assert (head (rstrip is_sep (c :: t')) = Some c) as Hh' by (by apply rstrip_head).
      rewrite <- ET', ET in Hh'. injection Hh' as ->. done. }
    rewrite ET in EG.
    destruct (last (c0 :: T')) as [d0|] eqn:Elast; [|by apply last_None in Elast].
    assert (is_sep d0 = false /\ isspace db d0 = false) as [Hd0s Hd0w].
    { apply (strip_sep_ends db t d0 Hto). right. fold T. by rewrite ET. }
    assert (is_us_ws db d0 = false) as Hd0u.
    { unfold is_us_ws, re_s. rewrite Hd0w, orb_false_r.
      apply N.eqb_neq. intros ->. done. }
    set (W := [40%N] ++ y ++ [41%N] ++ suf).
    set (out := (c0 :: T') ++ [32%N] ++ W).
    assert (titled (c0 :: T') y l = out) as Etitled.
    { unfold titled. by rewrite <- !app_assoc. }
    rewrite Etitled in Htag, Hbr |- *.
    assert (Forall (fun c => is_ascii c = true) (c0 :: T') /\
            Forall (fun c => c <> 95%N) (c0 :: T')) as [HTa HTu].
    { rewrite <- ET. subst T. split; by apply strip_Forall. }
    assert (spaced db out) as Hout.
    { subst out. split.
      { apply Forall_app. split; [done|]. apply (Forall_app _ [32%N]). split; [by repeat constructor|].
        apply Hplain; try done.
        - intros c Hc. by destruct (ascii_digit_plain db c Hc).
        - intros c Hc. by destruct (ascii_letter_plain db c Hc). }
      split.
      { apply Forall_app. split; [done|]. apply (Forall_app _ [32%N]). split; [by repeat constructor|].
        apply Hplain; try done.
        - intros c Hc. by destruct (ascii_digit_plain db c Hc) as (_ & ? & _).
        - intros c Hc. by destruct (ascii_letter_plain db c Hc) as (_ & ? & _). }
      split.
      { apply Forall_app. split; [done|]. apply (Forall_app _ [32%N]). split; [by repeat constructor|].
        apply Hplain; try done.
        - intros c Hc Hs. by rewrite ascii_digit_not_space in Hs.
        - intros c Hc Hs. by rewrite ascii_letter_not_space in Hs. }
      split.
      { pose proof (collapse_ws_no_double db
          (strip_ws db (strip_sep t ++ lit " (" ++ strip_ws db y ++ lit ") "
                        ++ match l with Some x => strip_ws db x | None => [] end))) as Hn.
        change (no_double_space (format_name db t y l)) in Hn.
        rewrite Eout in Hn. unfold titled in Hn. rewrite <- !app_assoc in Hn. exact Hn. }
      split.
      { intros c Hc. cbn in Hc. by injection Hc as <-. }
      intros c Hc. apply Hlast.
      rewrite app_assoc in Hc. subst W.
      destruct ([40%N] ++ y ++ [41%N] ++ suf) as [|w W'] eqn:EW; [done|].
      rewrite last_app_cons in Hc. done. }
    rewrite clean_filename_finish, spaced_step5 by done. unfold finish. subst out.
    rewrite (search_title_intro db (c0 :: T') _ y l).
    + rewrite format_name_titled by (by try (rewrite <- ET; apply strip_Forall)).
      assert (strip_sep (c0 :: T') = c0 :: T') as ->.
      { rewrite <- ET. unfold T, strip_sep. apply strip_idem. }
      rewrite collapse_ws_id by first [done | by rewrite <- ET]. exact Etitled.
    + first [ by apply (settled_no_newline db)
            | rewrite <- ET; by apply (settled_no_newline db) ].
    + exact Hyear1.
    + intros j Hj.
      rewrite drop_app_le by lia.
      destruct (m_year db (drop j (c0 :: T') ++ [32%N] ++ W)) as [[y' l']|] eqn:E; [|done].
      exfalso.
      assert (last (drop j (c0 :: T')) = Some d0) as Hld.
      { apply last_Some in Elast as [T0 E0]. rewrite E0.
        rewrite E0, length_app in Hj. cbn in Hj.
        rewrite drop_app_le by lia. apply last_snoc. }
      destruct (m_year_cut db _ d0 W y' l' Hld Hd0u E (G ++ rest)) as [l'' E''].
      assert (z = (c0 :: T') ++ G ++ rest) as Ez' by (by rewrite Ez, EG, <- app_assoc).
      rewrite <- drop_app_le, <- Ez' in E'' by lia.
      rewrite Hmin in E''; [done|]. rewrite EG, length_app. lia.
Qed.

(** C6, as amended.  An already-clean title: no step from 1 to 5 finds
    anything to remove in it (no match of the tag pattern, no match of
    the bracket pattern, ASCII only, no underscore, no leading non-word
    character, no two white-space characters in a row).  If the tag
    pattern and the bracket pattern find nothing in its cleaned name
    either, cleaning twice gives what cleaning once gives. *)
Theorem clean_filename_idempotent s :
  already_clean db s = true ->
  re_finds (m_tag db) (clean_filename db s) = false ->
  re_finds m_bracket (clean_filename db s) = false ->
  clean_filename db (clean_filename db s) = clean_filename db s.
Proof.
  intros (_ & Hz & _)%already_clean_step5.
  rewrite (clean_filename_finish db s). unfold finish.
  destruct (search_title db (step5 db s)) as [[[t y] l]|] eqn:E.
  - by apply (read_again_year (step5 db s)).
  - by apply read_again_no_year.
Qed.

End SpacedFacts.

(** C6, as the specification states it, fails on "MovieHD2021".  The
    title is already clean: HD is neither a word nor the end of one
    there, the tag pattern does not match and no step from 1 to 5
    changes anything.  The first cleaning separates the year, and the
    second one then finds the tag HD at the end of the title. *)
Lemma tag_inside_word :
  already_clean unicode_excerpt (lit "MovieHD2021") = true /\
  step5 unicode_excerpt (lit "MovieHD2021") = lit "MovieHD2021" /\
  clean_filename unicode_excerpt (lit "MovieHD2021") = lit "MovieHD (2021)" /\
  clean_filename unicode_excerpt (lit "MovieHD (2021)") = lit "Movie (2021)" /\
  clean_filename unicode_excerpt (clean_filename unicode_excerpt (lit "MovieHD2021"))
  <> clean_filename unicode_excerpt (lit "MovieHD2021").
Proof. repeat split; vm_compute; congruence. Qed.

(** The same with a bracket pair the bracket pattern does not match,
    because of the line break in it. *)
Lemma bracket_across_lines :
  already_clean unicode_excerpt (lit "a[b" ++ [10%N] ++ lit "c] 2021") = true /\
  clean_filename unicode_excerpt (lit "a[b" ++ [10%N] ++ lit "c] 2021") = lit "a[b c] (2021)" /\
  clean_filename unicode_excerpt (lit "a[b c] (2021)") = lit "a (2021)".
Proof. repeat split; vm_compute; congruence. Qed.

(** The theorem at "Camera 2021 Hindi": the letters of the tag CAM begin
    the title, and the tag pattern finds nothing before or after the
    cleaning. *)
Lemma clean_filename_idempotent_witness :
  already_clean unicode_excerpt (lit "Camera 2021 Hindi") = true /\
  clean_title unicode_excerpt (lit "Camera 2021 Hindi") = false /\
  clean_filename unicode_excerpt (lit "Camera 2021 Hindi") = lit "Camera (2021) Hindi" /\
  clean_filename unicode_excerpt (clean_filename unicode_excerpt (lit "Camera 2021 Hindi"))
  = clean_filename unicode_excerpt (lit "Camera 2021 Hindi").
Proof.
  split; [vm_compute; reflexivity|]. split; [vm_compute; reflexivity|].
  split; [vm_compute; reflexivity|].
  apply (clean_filename_idempotent unicode_excerpt (lit "Camera 2021 Hindi"));
    vm_compute; reflexivity.
Defined.

(** "Bombay 2021" holds the letters of the tag MB, inside a word: it is
    already clean, and stays so. *)
Lemma letters_of_a_tag_inside_a_word :
  already_clean unicode_excerpt (lit "Bombay 2021") = true /\
  clean_title unicode_excerpt (lit "Bombay 2021") = false /\
  clean_filename unicode_excerpt (lit "Bombay 2021") = lit "Bombay (2021)" /\
  re_finds (m_tag unicode_excerpt) (lit "Bombay (2021)") = false /\
  re_finds m_bracket (lit "Bombay (2021)") = false /\
  clean_filename unicode_excerpt (lit "Bombay (2021)") = lit "Bombay (2021)".
Proof. repeat split; vm_compute; reflexivity. Qed.

(** * More on the upload session *)

Section UploadRuns.
Context (db : UnicodeDB) (STORAGE_GROUP_ID SEARCH_GROUP_ID : Z) (ADMIN_IDS : gset Z).

Local Abbreviation check := (check_and_save_movie SEARCH_GROUP_ID).
Local Abbreviation step' := (step db STORAGE_GROUP_ID SEARCH_GROUP_ID ADMIN_IDS).
Local Abbreviation run' := (run db STORAGE_GROUP_ID SEARCH_GROUP_ID ADMIN_IDS).

Lemma complete_record_stored s r :
  complete s = true -> record_of s r -> stored_complete r.
Proof.
  unfold complete, record_of, stored_complete.
  intros Hc (Hn & Hd & Hi).
  apply andb_true_iff in Hc as [Hc Hname]. apply andb_true_iff in Hc as [Hf Him].
  rewrite Hd, Hi. rewrite Hn in Hname.
  split; [by destruct (files s)|]. split; [by destruct (image s)|].
  by destruct (name r).
Qed.

Lemma step_appends w o :
  exists added, collection (step' w o) = collection w ++ added /\
                Forall stored_complete added /\ (length added <= 1)%nat.
Proof.
  destruct (step_cases db STORAGE_GROUP_ID SEARCH_GROUP_ID ADMIN_IDS w o)
    as [[Hcol _] | (s & r & Hc & Hr & Hcol)].
  - exists []. rewrite Hcol, app_nil_r. split; [done|]. split; [constructor | cbn; lia].
  - exists [r]. split; [done|]. split; [|cbn; lia].
    constructor; [by eapply complete_record_stored | constructor].
Qed.

Lemma run_cons w o ops : run' w (o :: ops) = run' (step' w o) ops.
Proof. reflexivity. Qed.

Lemma run_appends w ops :
  exists added,
    collection (run' w ops) = collection w ++ added /\
    Forall stored_complete added /\ (length added <= length ops)%nat.
Proof.
  revert w. induction ops as [|o ops IH]; intros w.
  - exists []. cbn. rewrite app_nil_r. split; [done|]. split; [constructor | lia].
  - rewrite run_cons.
    destruct (IH (step' w o)) as (b & Eb & Hb & Lb).
    destruct (step_appends w o) as (a & Ea & Ha & La).
    exists (a ++ b). rewrite Eb, Ea, app_assoc. split; [done|].
    split; [by apply Forall_app|]. rewrite length_app. cbn. lia.
Qed.

Lemma check_frame user update w v :
  v <> user ->
  upload_sessions (exec (check user update) w) !! v = upload_sessions w !! v.
Proof.
  intros Hv.
  destruct (check_and_save_movie_effects SEARCH_GROUP_ID user update w)
    as [[_ ->] | (s & r & _ & _ & _ & _ & [-> | ->])]; try done.
  by rewrite lookup_delete_ne.
Qed.

Ltac frame_check v :=
  match goal with
  | |- context [ (check_and_save_movie ?sg ?u ?upd ?wm).2 ] =>
      let HC := fresh "HC" in
      pose proof (check_frame u upd wm v) as HC;
      unfold exec in HC;
      cbn [upload_sessions delete_sessions collection sent errors_logged fresh
           db_faults tx_faults set_upload set_delete set_collection set_sent
           set_errors_logged set_fresh set_db_faults set_tx_faults] in HC;
      rewrite HC by done
  | _ => idtac
  end.

Lemma step_frame w o v :
  v <> user_of o ->
  upload_sessions (step' w o) !! v = upload_sessions w !! v.
Proof.
  intros Hv.
  destruct w as [us ds col snt el fr dbf txf].
  destruct o as [u f raw|u f pw ph|u|u|u t];
    unfold step, handle, update_of, message_update, button_update; cbn [user_of] in Hv.
  - unfold add_movie.
    cbn [effective_chat effective_user message document doc_file_name doc_file_id].
    rewrite bool_decide_eq_true_2 by done. cbn [negb].
    run_monad.
    destruct (us !! u) as [s0|] eqn:Hs0; rewrite ?Hs0, ?lookup_insert_eq; cbn [default].
    all: destruct (bool_decide (u ∈ ADMIN_IDS)) eqn:Hadm; cbn.
    all: destruct txf as [|[] txf]; cbn.
    all: frame_check v.
    all: rewrite ?lookup_insert_ne by done; rewrite ?Hs0; by rewrite ?lookup_insert_ne by done.
  - unfold add_movie.
    cbn [effective_chat effective_user message document photo largest_photo_from
         photo_file_id photo_width photo_height].
    rewrite bool_decide_eq_true_2 by done. cbn [negb].
    run_monad.
    destruct (us !! u) as [s0|] eqn:Hs0; rewrite ?Hs0, ?lookup_insert_eq; cbn [default].
    all: destruct (bool_decide (u ∈ ADMIN_IDS)) eqn:Hadm; cbn.
    all: try destruct (awaiting_name_edit s0) eqn:Haw; cbn.
    all: destruct txf as [|[] txf]; cbn.
    all: frame_check v.
    all: rewrite ?lookup_insert_ne by done; rewrite ?Hs0; by rewrite ?lookup_insert_ne by done.
  - unfold name_decision_handler. cbn [callback_query effective_user].
    rewrite ?data_edit, ?data_continue_edit, ?data_continue.
    run_monad. cbn.
    destruct txf as [|[] [|[] txf]]; cbn.
    all: destruct (us !! u) as [s0|] eqn:Hs0; cbn.
    all: rewrite ?lookup_insert_ne by done; rewrite ?Hs0; by rewrite ?lookup_insert_ne by done.
  - unfold name_decision_handler. cbn [callback_query effective_user].
    rewrite ?data_edit, ?data_continue_edit, ?data_continue.
    run_monad. cbn.
    destruct txf as [|[] [|[] txf]]; cbn.
    all: destruct (us !! u) as [s0|] eqn:Hs0; cbn.
    all: frame_check v.
    all: rewrite ?lookup_insert_ne by done; rewrite ?Hs0; by rewrite ?lookup_insert_ne by done.
  - unfold text_handler. cbn [effective_chat effective_user message text].
    rewrite bool_decide_eq_true_2 by done. cbn [negb].
    run_monad.
    destruct (us !! u) as [s0|] eqn:Hs0; cbn; [|done].
    destruct (awaiting_name_edit s0) eqn:Haw; cbn; [|done].
    destruct txf as [|[] txf]; cbn.
    all: frame_check v.
    all: rewrite ?lookup_insert_ne by done; rewrite ?Hs0; by rewrite ?lookup_insert_ne by done.
Qed.

(** X1.  A run of operations never removes or alters a stored record; what
    it adds are complete records, at most one per operation. *)
Theorem run_appends_complete_records w ops :
  exists added,
    collection (run db STORAGE_GROUP_ID SEARCH_GROUP_ID ADMIN_IDS w ops) = collection w ++ added /\
    Forall stored_complete added /\ (length added <= length ops)%nat.
Proof. apply run_appends. Qed.

(** X2.  The operations of the other users do not touch a user's
    session. *)
Theorem other_users_leave_session w ops v :
  Forall (fun o => user_of o <> v) ops ->
  upload_sessions (run db STORAGE_GROUP_ID SEARCH_GROUP_ID ADMIN_IDS w ops) !! v = upload_sessions w !! v.
Proof.
  intros H. revert w. induction H as [|o ops Ho _ IH]; intros w; [done|].
  rewrite run_cons, IH. by apply step_frame.
Qed.

(** X3.  A session that was there before a run and is gone after it has
    been stored: the collection has grown. *)
Theorem session_gone_means_stored w ops u :
  is_Some (upload_sessions w !! u) ->
  upload_sessions (run db STORAGE_GROUP_ID SEARCH_GROUP_ID ADMIN_IDS w ops) !! u = None ->
  exists r added, collection (run db STORAGE_GROUP_ID SEARCH_GROUP_ID ADMIN_IDS w ops) = collection w ++ r :: added.
Proof.
  revert w. induction ops as [|o ops IH]; intros w Hs Hn.
  - cbn in Hn. rewrite Hn in Hs. by destruct Hs.
  - rewrite run_cons in *.
    destruct (upload_sessions (step' w o) !! u) as [s1|] eqn:E.
    + destruct (IH (step' w o)) as (r & b & Eb); [by rewrite E | done |].
      destruct (step_appends w o) as (a & Ea & _ & _).
      rewrite Eb, Ea, <- app_assoc.
      destruct a as [|r' a]; cbn; eauto.
    + destruct (session_destroyed_only_on_insert db STORAGE_GROUP_ID SEARCH_GROUP_ID
                  ADMIN_IDS w o u Hs E) as (r & Er).
      destruct (run_appends (step' w o) ops) as (b & Eb & _ & _).
      exists r, b. by rewrite Eb, Er, <- app_assoc.
Qed.

End UploadRuns.

Section Persistence.
Context (db : UnicodeDB) (STORAGE_GROUP_ID SEARCH_GROUP_ID : Z) (ADMIN_IDS : gset Z).

Local Abbreviation check := (check_and_save_movie SEARCH_GROUP_ID).
Local Abbreviation step' := (step db STORAGE_GROUP_ID SEARCH_GROUP_ID ADMIN_IDS).

Lemma complete_named s :
  complete s = true -> movie_name s = Some (default [] (movie_name s)).
Proof.
  unfold complete. intros Hc.
  destruct (movie_name s) as [[|]|]; cbn in *; rewrite ?andb_false_r in Hc; done.
Qed.

Ltac enter_check Hs Hc :=
  unfold check_and_save_movie, db_ok, complete in *; run_monad;
  rewrite Hs; cbn beta iota; rewrite Hc; cbn [negb]; run_monad; cbn.

Lemma check_persists user update w s :
  upload_sessions w !! user = Some s ->
  complete s = true ->
  db_ok w = true ->
  tx_faults w = [] ->
  is_Some (message update) ->
  let w' := exec (check user update) w in
  exists r,
    record_of s r /\ movie_id r = fresh w /\
    collection w' = collection w ++ [r] /\
    upload_sessions w' = delete user (upload_sessions w) /\
    sent w' = sent w ++
      (MovieAdded (sanitize_unicode (name r)), true) ::
      (if bool_decide (SEARCH_GROUP_ID = 0) then []
       else [ (Preview (movie_id r) (sanitize_unicode (name r)) (preview_photo r), true) ]) /\
    errors_logged w' = errors_logged w /\
    outcome (check user update) w = Ok tt /\
    db_faults w' = drop 1 (db_faults w) /\
    tx_faults w' = [].
Proof.
  intros Hs Hc Hdb Htx [m Hm] w'. subst w'.
  pose proof (complete_named s Hc) as Hn.
  destruct w as [us ds col snt el fr dbf txf]. cbn in Hs, Htx, Hdb. subst txf.
  enter_check Hs Hc.
  destruct dbf as [|[] dbf]; try done; cbn.
  all: rewrite Hm; cbn.
  all: destruct (bool_decide (SEARCH_GROUP_ID = 0)); cbn.
  all: (exists {| movie_id := fr; name := default [] (movie_name s); documents := files s; movie_image := image s; oid := S fr |}); split; [split; [exact Hn | by split]|].
  all: cbn; rewrite <- ?app_assoc; by repeat split.
Qed.

(** X4.  A complete session, a store that accepts and a transport that
    delivers: the record of the session is stored under a fresh id, the
    user is told, the preview goes to the search group (if one is
    configured), and the session is removed. *)
Theorem complete_session_persisted user update w s :
  upload_sessions w !! user = Some s ->
  complete s = true ->
  db_ok w = true ->
  tx_faults w = [] ->
  is_Some (message update) ->
  let w' := exec (check user update) w in
  exists r,
    record_of s r /\ movie_id r = fresh w /\
    collection w' = collection w ++ [r] /\
    upload_sessions w' = delete user (upload_sessions w) /\
    sent w' = sent w ++
      (MovieAdded (sanitize_unicode (name r)), true) ::
      (if bool_decide (SEARCH_GROUP_ID = 0) then []
       else [ (Preview (movie_id r) (sanitize_unicode (name r)) (preview_photo r), true) ]) /\
    errors_logged w' = errors_logged w /\
    outcome (check user update) w = Ok tt.
Proof.
  intros Hs Hc Hdb Htx Hm w'.
  destruct (check_persists user update w s Hs Hc Hdb Htx Hm)
    as (r & ? & ? & ? & ? & ? & ? & ? & _).
  exists r. subst w'. tauto.
Qed.

(** X5.  The preview cannot be sent.  The failure is logged and nothing
    else changes: the record is stored, the user has been told, the
    session is removed, the handler returns. *)
Theorem preview_failure_is_swallowed user update w s rest :
  upload_sessions w !! user = Some s ->
  complete s = true ->
  db_ok w = true ->
  is_Some (message update) ->
  SEARCH_GROUP_ID <> 0 ->
  tx_faults w = true :: false :: rest ->
  let w' := exec (check user update) w in
  exists r,
    record_of s r /\
    collection w' = collection w ++ [r] /\
    upload_sessions w' = delete user (upload_sessions w) /\
    sent w' = sent w ++
      [ (MovieAdded (sanitize_unicode (name r)), true);
        (Preview (movie_id r) (sanitize_unicode (name r)) (preview_photo r), false) ] /\
    errors_logged w' = S (errors_logged w) /\
    outcome (check user update) w = Ok tt.
Proof.
  intros Hs Hc Hdb [m Hm] Hsg Htx w'. subst w'.
  pose proof (complete_named s Hc) as Hn.
  destruct w as [us ds col snt el fr dbf txf]. cbn in Hs, Htx, Hdb. subst txf.
  enter_check Hs Hc.
  rewrite (bool_decide_eq_false_2 _ Hsg).
  destruct dbf as [|[] dbf]; try done; cbn.
  all: rewrite Hm; cbn.
  all: (exists {| movie_id := fr; name := default [] (movie_name s); documents := files s; movie_image := image s; oid := S fr |}); split; [split; [exact Hn | by split]|].
  all: cbn; rewrite <- ?app_assoc; by repeat split.
Qed.

(** X6.  The store accepts the record but the confirmation cannot be
    sent.  The handler takes this for a failed insert: the record stays
    in the collection, the session stays too, the failure is logged and
    the user is told the movie was not added. *)
Theorem lost_confirmation_keeps_record_and_session user update w s rest :
  upload_sessions w !! user = Some s ->
  complete s = true ->
  db_ok w = true ->
  is_Some (message update) ->
  tx_faults w = false :: rest ->
  let w' := exec (check user update) w in
  exists r delivered,
    record_of s r /\
    collection w' = collection w ++ [r] /\
    upload_sessions w' = upload_sessions w /\
    sent w' = sent w ++
      [ (MovieAdded (sanitize_unicode (name r)), false); (FailedToAdd, delivered) ] /\
    errors_logged w' = S (errors_logged w).
Proof.
  intros Hs Hc Hdb [m Hm] Htx w'. subst w'.
  pose proof (complete_named s Hc) as Hn.
  destruct w as [us ds col snt el fr dbf txf]. cbn in Hs, Htx, Hdb. subst txf.
  enter_check Hs Hc.
  destruct dbf as [|[] dbf]; try done; cbn.
  all: rewrite Hm; cbn.
  all: destruct rest as [|[] rest]; cbn.
  all: (exists {| movie_id := fr; name := default [] (movie_name s); documents := files s; movie_image := image s; oid := S fr |}); eexists; split; [split; [exact Hn | by split]|].
  all: cbn; rewrite <- ?app_assoc; by repeat split.
Qed.

(** X7.  The store refuses the record and the update carries a message.
    Neither the collection nor the sessions change; the failure is
    logged and the user is told, and the handler raises only if that
    notice cannot be sent either. *)
Theorem refused_insert_keeps_session user update w s :
  upload_sessions w !! user = Some s ->
  complete s = true ->
  db_ok w = false ->
  is_Some (message update) ->
  let w' := exec (check user update) w in
  collection w' = collection w /\
  upload_sessions w' = upload_sessions w /\
  errors_logged w' = S (errors_logged w) /\
  exists delivered,
    sent w' = sent w ++ [ (FailedToAdd, delivered) ] /\
    outcome (check user update) w
    = if delivered then Ok tt else Raised NetworkError.
Proof.
  intros Hs Hc Hdb [m Hm] w'. subst w'.
  destruct w as [us ds col snt el fr dbf txf]. cbn in Hs, Hdb.
  enter_check Hs Hc.
  destruct dbf as [|[] dbf]; try done; cbn.
  rewrite Hm; cbn.
  destruct txf as [|[] txf]; cbn.
  all: repeat split; eexists; by split.
Qed.

(** X8.  The file of an admin is never stored by its own arrival: the
    session takes the file and the bot asks for Edit or Continue. *)
Theorem admin_document_waits_for_decision w u f raw :
  u ∈ ADMIN_IDS ->
  let w' := step' w (ReceiveDocument u f raw) in
  collection w' = collection w /\
  upload_sessions w' !! u
  = after_mutation db (ReceiveDocument u f raw) (upload_sessions w !! u) /\
  exists delivered,
    sent w' = sent w ++
      [ (DetectedName (sanitize_unicode (clean_filename db raw)), delivered) ].
Proof.
  intros Hadm w'. subst w'.
  destruct w as [us ds col snt el fr dbf txf].
  unfold step, handle, update_of, message_update, add_movie.
  cbn [effective_chat effective_user message document doc_file_name doc_file_id].
  rewrite bool_decide_eq_true_2 by done. cbn [negb].
  rewrite (bool_decide_eq_true_2 _ Hadm).
  run_monad.
  destruct (us !! u) as [s0|] eqn:Hs0; rewrite ?Hs0, ?lookup_insert_eq; cbn [default].
  all: destruct txf as [|[] txf]; cbn.
  all: rewrite ?lookup_insert_eq.
  all: split; [done|]; split; [done|]; by eexists.
Qed.

End Persistence.

(** The largest photo: one of those sent, and none is larger. *)
Lemma largest_photo_from_spec best l :
  largest_photo_from best l ∈ best :: l /\
  Forall (fun q => area q <= area (largest_photo_from best l)) (best :: l).
Proof.
  revert best. induction l as [|p l IH]; intros best; cbn [largest_photo_from].
  - split; [by left|]. constructor; [lia | constructor].
  - fold (area best). fold (area p).
    destruct (Z.ltb_spec (area best) (area p)) as [Hlt|Hge].
    + destruct (IH p) as [Hin Hall]. split; [by right|].
      apply Forall_cons in Hall as [Hp Hall].
      constructor; [lia|]. by constructor.
    + destruct (IH best) as [Hin Hall]. split.
      * apply elem_of_cons in Hin as [-> | Hin]; [by left | right; by right].
      * apply Forall_cons in Hall as [Hb Hall].
        constructor; [done|]. constructor; [lia | done].
Qed.

Section Photo.
Context (db : UnicodeDB) (STORAGE_GROUP_ID SEARCH_GROUP_ID : Z) (ADMIN_IDS : gset Z).

(** X9.  Of the sizes a photo message carries, the session keeps the
    largest by area; a record stored on that message has it as poster. *)
Theorem photo_message_keeps_largest w update m p ps :
  effective_chat update = STORAGE_GROUP_ID ->
  message update = Some m ->
  document m = None ->
  photo m = p :: ps ->
  let big := largest_photo_from p ps in
  let w' := exec (add_movie db STORAGE_GROUP_ID SEARCH_GROUP_ID ADMIN_IDS update) w in
  big ∈ p :: ps /\
  Forall (fun q => area q <= area big) (p :: ps) /\
  (forall s', upload_sessions w' !! effective_user update = Some s' ->
     image s' = Some (image_of big)) /\
  (forall r, r ∈ collection w' -> r ∈ collection w \/ movie_image r = Some (image_of big)).
Proof.
  intros Hchat Hm Hdoc Hph big w'.
  destruct (largest_photo_from_spec p ps) as [Hin Hall].
  split; [done|]. split; [done|]. subst w'.
  destruct w as [us ds col snt el fr dbf txf].
  unfold add_movie. rewrite (bool_decide_eq_true_2 _ Hchat). cbn [negb].
  rewrite Hm, Hdoc, Hph. fold big.
  set (u := effective_user update).
  run_monad. rewrite Hm.
  set (sess := {| files := _; image := Some _; movie_name := _; awaiting_name_edit := _ |}).
  assert (Hi : image sess = Some (image_of big)) by reflexivity.
  clearbody sess.
  destruct txf as [|[] txf]; cbn.
  all: match goal with
       | |- context [ if ?b then _ else _ ] => destruct b
       end.
  all: try match goal with
       | |- context [ (check_and_save_movie ?sg ?u ?upd ?wm).2 ] =>
           pose proof (check_and_save_movie_effects sg u upd wm) as HC;
           unfold exec in HC;
           cbn [upload_sessions collection set_upload set_sent set_tx_faults] in HC;
           rewrite lookup_insert_eq in HC;
           destruct HC as [[-> ->] | (s1 & r1 & [= <-] & _ & (_ & _ & Hr) & -> & [-> | ->])]
       end.
  all: run_monad.
  all: rewrite ?lookup_insert_eq, ?lookup_delete_eq.
  all: split; [intros s' Hs'; first [done | by injection Hs' as <-]|].
  all: intros r Hr'; rewrite ?elem_of_app, ?list_elem_of_singleton in Hr'.
  all: try (by left).
  all: destruct Hr' as [? | ->]; [by left | right; by rewrite Hr].
Qed.

End Photo.

(** * Properties of the list buttons *)

Lemma split_on_none sep (a : str) : sep ∉ a -> split_on sep a = [ a ].
Proof.
  induction a as [|c a IH]; intros H; [done|].
  apply not_elem_of_cons in H as [Hc Ha]. cbn.
  destruct (N.eqb_spec c sep) as [->|_]; [congruence|]. by rewrite IH.
Qed.

Lemma split_on_app sep (a b : str) :
  sep ∉ a -> split_on sep (a ++ sep :: b) = a :: split_on sep b.
Proof.
  induction a as [|c a IH]; intros H; cbn.
  - by rewrite N.eqb_refl.
  - apply not_elem_of_cons in H as [Hc Ha].
    destruct (N.eqb_spec c sep) as [->|_]; [congruence|]. by rewrite IH.
Qed.

Lemma startswith_app (p r : str) : startswith (p ++ r) p = true.
Proof. induction p as [|a p IH]; cbn; [done|]. by rewrite N.eqb_refl. Qed.

(** ** [str] and [int] *)

Lemma decimal_digits_digits fuel n :
  Forall (fun c => ascii_digit c = true) (decimal_digits fuel n).
Proof.
  revert n. induction fuel as [|fuel IH]; intros n; cbn [decimal_digits]; [constructor|].
  destruct (N.ltb_spec n 10).
  - constructor; [|constructor]. unfold ascii_digit.
    apply andb_true_iff. split; apply N.leb_le; lia.
  - apply Forall_app. split; [apply IH|]. constructor; [|constructor].
    assert (n mod 10 < 10)%N as Hm by (apply N.mod_upper_bound; lia).
    revert Hm. generalize (n mod 10)%N. intros x Hx. unfold ascii_digit.
    apply andb_true_iff. split; apply N.leb_le; lia.
Qed.

Lemma decimal_digits_nonempty fuel n : decimal_digits (S fuel) n <> [].
Proof.
  cbn [decimal_digits]. destruct (n <? 10)%N; [done|]. intros H. by apply app_eq_nil in H as [_ ?].
Qed.

Lemma py_str_chars p :
  Forall (fun c => ascii_digit c = true \/ c = 45%N) (py_str p).
Proof.
  unfold py_str. apply Forall_app. split.
  - destruct (p <? 0); constructor; [by right | constructor].
  - eapply Forall_impl; [apply decimal_digits_digits|]. intros c Hc. by left.
Qed.

Lemma py_str_no_colon p : 58%N ∉ py_str p.
Proof.
  intros H. pose proof (py_str_chars p) as Hall.
  rewrite Forall_forall in Hall. apply Hall in H as [H | H]; done.
Qed.

Section IntStr.
Context (db : UnicodeDB).

Lemma decimal_value_digit d : (d < 10)%N -> decimal_value db (48 + d) = Some d.
Proof.
  intros H. unfold decimal_value, is_ascii, ascii_digit.
  destruct (N.leb_spec (48 + d) 127); [|lia].
  destruct (N.leb_spec 48 (48 + d)); [|lia].
  destruct (N.leb_spec (48 + d) 57); [|lia]. cbn. f_equal. lia.
Qed.

Lemma decimal_digits_S fuel n :
  decimal_digits (S fuel) n
  = if (n <? 10)%N then [ (48 + n)%N ]
    else decimal_digits fuel (n / 10) ++ [ (48 + n mod 10)%N ].
Proof. reflexivity. Qed.

Lemma int_digits_decimal fuel n b r :
  (n < 10 ^ N.of_nat (S fuel))%N ->
  int_digits db 0 b (decimal_digits (S fuel) n ++ r) = int_digits db n true r.
Proof.
  revert n b r. induction fuel as [|fuel IH]; intros n b r Hn.
  - change (10 ^ N.of_nat 1)%N with 10%N in Hn. rewrite decimal_digits_S.
    destruct (N.ltb_spec n 10); [|lia]. cbn [app int_digits].
    rewrite decimal_value_digit by done. f_equal; lia.
  - rewrite decimal_digits_S. destruct (N.ltb_spec n 10) as [Hlt|Hge].
    + cbn [app int_digits]. rewrite decimal_value_digit by done. f_equal; lia.
    + rewrite <- app_assoc. rewrite IH.
      * cbn [app int_digits].
        assert (n mod 10 < 10)%N by (apply N.mod_upper_bound; lia).
        rewrite decimal_value_digit by done. f_equal.
        rewrite (N.div_mod n 10) at 3 by lia. lia.
      * apply N.Div0.div_lt_upper_bound.
        rewrite <- N.pow_succ_r'. by rewrite <- Nat2N.inj_succ.
Qed.

Lemma enough_digits a : (a < 10 ^ N.of_nat (S (N.to_nat (N.log2 a))))%N.
Proof.
  rewrite Nat2N.inj_succ, N2Nat.id.
  destruct (N.eq_dec a 0%N) as [->|Hne]; [done|].
  destruct (N.log2_spec a) as [_ Hlt]; [lia|].
  eapply N.lt_le_trans; [exact Hlt|].
  apply N.pow_le_mono_l. lia.
Qed.

(** [int(str(p))] is [p]. *)
Lemma py_int_py_str p : py_int db (py_str p) = Some p.
Proof.
  unfold py_int.
  assert (Hstrip : strip_ws db (py_str p) = py_str p).
  { apply strip_id.
    - intros c Hc.
      assert (c ∈ py_str p) as Hin.
      { destruct (py_str p); [done|]. injection Hc as ->. by left. }
      pose proof (py_str_chars p) as Hall. rewrite Forall_forall in Hall.
      destruct (Hall c Hin) as [Hd | ->]; [by apply ascii_digit_not_space | done].
    - intros c Hc.
      assert (c ∈ py_str p) as Hin.
      { apply last_Some in Hc as (l' & ->). apply elem_of_app. right. by left. }
      pose proof (py_str_chars p) as Hall. rewrite Forall_forall in Hall.
      destruct (Hall c Hin) as [Hd | ->]; [by apply ascii_digit_not_space | done]. }
  rewrite Hstrip. unfold py_str.
  set (a := Z.abs_N p). set (fuel := N.to_nat (N.log2 a)).
  pose proof (enough_digits a) as Ha. fold fuel in Ha.
  destruct (Z.ltb_spec p 0) as [Hneg|Hpos]; cbn [app].
  - change (45 =? 45)%N with true. cbn iota.
    rewrite <- (app_nil_r (decimal_digits _ _)), int_digits_decimal by done.
    cbn. f_equal. subst a. lia.
  - pose proof (decimal_digits_digits (S fuel) a) as Hd.
    destruct (decimal_digits (S fuel) a) as [|c r] eqn:E.
    { by apply decimal_digits_nonempty in E. }
    apply Forall_cons in Hd as [Hc _].
    assert ((c =? 45)%N = false) as ->.
    { apply N.eqb_neq. intros ->. done. }
    assert ((c =? 43)%N = false) as ->.
    { apply N.eqb_neq. intros ->. done. }
    rewrite <- E, <- (app_nil_r (decimal_digits _ _)), int_digits_decimal by done.
    cbn. f_equal. subst a. lia.
Qed.

End IntStr.

Ltac run_desk :=
  unfold desk_after, desk_outcome, answer, lift, say, fail, mbind, D_bind, mret, D_ret in *;
  cbn [fst snd world replies] in *.

Lemma remove_first_absent i l :
  Forall (fun r => oid r <> i) l -> remove_first i l = l.
Proof.
  induction 1 as [|r l Hr _ IH]; cbn; [done|].
  rewrite bool_decide_eq_false_2 by done. by rewrite IH.
Qed.

Lemma remove_first_other i l r :
  r ∈ l -> oid r <> i -> r ∈ remove_first i l.
Proof.
  induction l as [|x l IH]; cbn; [done|].
  intros [-> | Hin]%elem_of_cons Hne.
  - rewrite bool_decide_eq_false_2 by done. by left.
  - destruct (bool_decide (oid x = i)); [done|]. right. by apply IH.
Qed.

Lemma remove_first_sublist i l : sublist (remove_first i l) l.
Proof.
  induction l as [|x l IH]; cbn; [done|].
  destruct (bool_decide (oid x = i)); [by apply sublist_cons | by apply sublist_skip].
Qed.

Lemma remove_first_gone i l :
  NoDup (oid <$> l) -> Forall (fun r => oid r <> i) (remove_first i l).
Proof.
  induction l as [|x l IH]; cbn; [constructor|].
  intros [Hx Hl]%NoDup_cons.
  destruct (decide (oid x = i)) as [E|E].
  - rewrite bool_decide_eq_true_2 by done. subst i.
    apply Forall_forall. intros r Hr Heq. apply Hx.
    rewrite <- Heq. by apply list_elem_of_fmap_2.
  - rewrite bool_decide_eq_false_2 by done. constructor; [done | by apply IH].
Qed.

Lemma remove_first_length i l r :
  r ∈ l -> oid r = i -> length l = S (length (remove_first i l)).
Proof.
  induction l as [|x l IH]; cbn; [by intros ?%elem_of_nil|].
  intros Hin Hr. destruct (decide (oid x = i)) as [E|E].
  - by rewrite bool_decide_eq_true_2.
  - rewrite bool_decide_eq_false_2 by done. cbn. f_equal.
    apply elem_of_cons in Hin as [-> | Hin]; [done | by apply IH].
Qed.

Section ListFacts.
Context (db : UnicodeDB) (ADMIN_IDS : gset Z).

(** Listing reads the collection and leaves it as it is. *)
Lemma list_movies_collection update args w :
  collection (exec (list_movies db ADMIN_IDS update args) w) = collection w.
Proof.
  destruct w as [us ds col snt el fr dbf txf].
  unfold list_movies.
  destruct (bool_decide (effective_user update ∈ ADMIN_IDS)); cbn [negb]; [|done].
  run_monad.
  destruct args as [|a args]; cbn.
  2: destruct (py_int db a) as [p|]; cbn; [|done].
  all: destruct dbf as [|[] [|[] dbf]]; cbn.
  all: try done.
  all: match goal with |- context [ (?x <? 0) ] => destruct (x <? 0) end; cbn.
  all: try done.
  all: destruct (message update), (callback_query update); cbn.
  all: try done.
  all: destruct txf as [|[] txf]; cbn; done.
Qed.

(** What a listing leaves behind, for an admin, a page from 1 on, a
    store and a transport that answer. *)
Lemma list_movies_session w update a p :
  effective_user update ∈ ADMIN_IDS ->
  is_Some (message update) \/ is_Some (callback_query update) ->
  py_int db a = Some p ->
  1 <= p ->
  db_faults w = [] ->
  tx_faults w = [] ->
  let skip := (p - 1) * PAGE_SIZE in
  let shown := take (Z.to_nat PAGE_SIZE) (drop (Z.to_nat skip) (sort_by_name (collection w))) in
  let w' := exec (list_movies db ADMIN_IDS update [a]) w in
  delete_sessions w' = <[effective_user update :=
                           {| page := p; movies := shown; selected := None |}]>
                         (delete_sessions w) /\
  upload_sessions w' = upload_sessions w /\
  db_faults w' = [] /\ tx_faults w' = [] /\
  outcome (list_movies db ADMIN_IDS update [a]) w = Ok tt /\
  exists body previous next, sent w' = sent w ++ [ (Listing body previous next, true) ].
Proof.
  intros Hadmin Hm Ha Hp Hdb Htx skip shown w'. subst w'.
  destruct w as [us ds col snt el fr dbf txf]. cbn in Hdb, Htx. subst dbf txf.
  unfold list_movies. rewrite bool_decide_eq_true_2 by done. cbn [negb].
  rewrite Ha. run_monad. cbn.
  fold skip. destruct (Z.ltb_spec skip 0) as [Hneg|_]; [unfold skip, PAGE_SIZE in Hneg; lia|].
  cbn. fold shown.
  destruct Hm as [[m Hm] | [q Hq]].
  - rewrite Hm. cbn. repeat split. by eexists _, _, _.
  - rewrite Hq. destruct (message update); cbn; repeat split; by eexists _, _, _.
Qed.

(** X10.  A page number below 1.  The count is taken, the query is
    refused; the handler raises, says nothing, and the cached page of
    the admin stays as it was. *)
Theorem list_movies_refuses_page_below_one w update a args p :
  effective_user update ∈ ADMIN_IDS ->
  py_int db a = Some p ->
  p <= 0 ->
  let w' := exec (list_movies db ADMIN_IDS update (a :: args)) w in
  (outcome (list_movies db ADMIN_IDS update (a :: args)) w
   = if db_ok w then Raised ValueError else Raised PyMongoError) /\
  delete_sessions w' = delete_sessions w /\
  sent w' = sent w /\
  collection w' = collection w.
Proof.
  intros Hadmin Ha Hp w'. subst w'.
  destruct w as [us ds col snt el fr dbf txf].
  unfold list_movies, db_ok. rewrite bool_decide_eq_true_2 by done. cbn [negb].
  rewrite Ha. run_monad. cbn.
  destruct (Z.ltb_spec ((p - 1) * PAGE_SIZE) 0) as [_|Hge]; [|unfold PAGE_SIZE in Hge; lia].
  destruct dbf as [|[] dbf]; cbn; done.
Qed.

(** ** Numbers *)

Lemma int_digits_ascii acc b (s : str) :
  Forall (fun c => ascii_digit c = true) s ->
  s <> [] \/ b = true ->
  is_Some (int_digits db acc b s).
Proof.
  intros H. revert acc b. induction H as [|c s Hc _ IH]; intros acc b Hb; cbn.
  - destruct Hb as [? | ->]; [done | by eexists].
  - unfold decimal_value.
    assert (is_ascii c = true) as ->.
    { unfold is_ascii, ascii_digit in *. apply andb_true_iff in Hc as [_ Hc].
      apply N.leb_le in Hc. apply N.leb_le. lia. }
    rewrite Hc. apply IH. by right.
Qed.

Lemma py_int_ascii (s : str) :
  s <> [] ->
  Forall (fun c => ascii_digit c = true) s ->
  isdigit db s = true /\ exists n, py_int db s = Some n /\ 0 <= n.
Proof.
  intros Hne Hs. split.
  - unfold isdigit. destruct s as [|c s]; [done|].
    apply forallb_forall. intros x Hx. rewrite Forall_forall in Hs.
    apply list_elem_of_In, Hs in Hx. unfold isdigit_char.
    assert (is_ascii x = true) as ->; [|done].
    unfold is_ascii, ascii_digit in *. apply andb_true_iff in Hx as [_ Hx].
    apply N.leb_le in Hx. apply N.leb_le. lia.
  - unfold py_int. rewrite strip_ws_digits by done.
    destruct s as [|c s]; [done|].
    pose proof Hs as Hs'. apply Forall_cons in Hs' as [Hc _].
    assert ((c =? 45)%N = false) as -> by (apply N.eqb_neq; by intros ->).
    assert ((c =? 43)%N = false) as -> by (apply N.eqb_neq; by intros ->).
    destruct (int_digits_ascii 0%N false (c :: s) Hs) as [n Hn]; [by left|].
    rewrite Hn. cbn. exists (Z.of_N n). split; [done | lia].
Qed.

(** X11.  A text of ASCII digits, with white space around it or not, is
    always answered: the handler returns, having asked for confirmation
    or said that the number is not on the page. *)
Theorem ascii_number_is_answered w update m t session :
  effective_user update ∈ ADMIN_IDS ->
  message update = Some m ->
  text m = Some t ->
  strip_ws db t <> [] ->
  Forall (fun c => ascii_digit c = true) (strip_ws db t) ->
  delete_sessions w !! effective_user update = Some session ->
  tx_faults w = [] ->
  let w' := exec (delete_by_number db ADMIN_IDS update) w in
  outcome (delete_by_number db ADMIN_IDS update) w = Ok tt /\
  exists n,
    py_int db (strip_ws db t) = Some n /\
    ((1 <= n <= Z.of_nat (length (movies session)) /\
      exists movie, movies session !! Z.to_nat (n - 1) = Some movie /\
                    sent w' = sent w ++ [ (ConfirmDelete movie (page session), true) ])
     \/ (~ (1 <= n <= Z.of_nat (length (movies session))) /\
         sent w' = sent w ++ [ (InvalidNumber, true) ])).
Proof.
  intros Hadmin Hm Ht Hne Hdig Hs Htx w'. subst w'.
  destruct (py_int_ascii _ Hne Hdig) as [Hisd (n & Hn & Hpos)].
  destruct w as [us ds col snt el fr dbf txf]. cbn in Hs, Htx. subst txf.
  unfold delete_by_number. rewrite bool_decide_eq_true_2 by done. cbn [negb].
  rewrite Hm, Ht. destruct t as [|c t]; [done|].
  run_monad. rewrite Hs. cbn beta iota.
  rewrite Hisd, Hn. cbn [negb].
  destruct (Z.ltb_spec (n - 1) 0) as [Hlo|Hlo]; cbn [orb].
  { rewrite Hm. cbn. split; [done|]. exists n. split; [done|]. right. split; [lia | done]. }
  destruct (Z.leb_spec (Z.of_nat (length (movies session))) (n - 1)) as [Hhi|Hhi].
  { rewrite Hm. cbn. split; [done|]. exists n. split; [done|]. right. split; [lia | done]. }
  destruct (movies session !! Z.to_nat (n - 1)) as [movie|] eqn:Hmv.
  2:{ apply lookup_ge_None in Hmv. lia. }
  cbn. rewrite Hm. cbn. split; [done|]. exists n. split; [done|]. left.
  split; [lia|]. by exists movie.
Qed.

(** X12.  The numbers of a listing and the numbers that select.  From
    page 2 on the listing numbers its records from [skip + 1], and a
    selection counts from 1 within the page: every number the listing
    shows is answered as not on the page, and selects nothing. *)
Theorem listed_numbers_rejected_after_page_one w update a p update' m t n :
  effective_user update ∈ ADMIN_IDS ->
  is_Some (message update) \/ is_Some (callback_query update) ->
  py_int db a = Some p ->
  2 <= p ->
  db_faults w = [] ->
  tx_faults w = [] ->
  effective_user update' = effective_user update ->
  message update' = Some m ->
  text m = Some t ->
  isdigit db (strip_ws db t) = true ->
  py_int db (strip_ws db t) = Some n ->
  (p - 1) * PAGE_SIZE + 1 <= n ->
  let w1 := exec (list_movies db ADMIN_IDS update [a]) w in
  let w2 := exec (delete_by_number db ADMIN_IDS update') w1 in
  (exists shown,
     delete_sessions w1 !! effective_user update
     = Some {| page := p; movies := shown; selected := None |}) /\
  delete_sessions w2 = delete_sessions w1 /\
  sent w2 = sent w1 ++ [ (InvalidNumber, true) ].
Proof.
  intros Hadmin Hmsg Ha Hp Hdb Htx Hu Hm Ht Hisd Hn Hshown w1 w2.
  destruct (list_movies_session w update a p Hadmin Hmsg Ha ltac:(lia) Hdb Htx)
    as (Hds & _ & _ & Htx1 & _ & _).
  fold w1 in Hds, Htx1.
  set (shown := take (Z.to_nat PAGE_SIZE)
                  (drop (Z.to_nat ((p - 1) * PAGE_SIZE)) (sort_by_name (collection w)))) in *.
  assert (Hlen : (length shown <= 10)%nat).
  { subst shown. rewrite length_take. unfold PAGE_SIZE. lia. }
  assert (Hsess : delete_sessions w1 !! effective_user update'
                  = Some {| page := p; movies := shown; selected := None |}).
  { by rewrite Hu, Hds, lookup_insert_eq. }
  split; [exists shown; by rewrite <- Hu|].
  assert (t <> []) as Hne.
  { intros ->. by vm_compute in Hisd. }
  pose proof (delete_by_number_cases db ADMIN_IDS w1 update' m t _
                ltac:(by rewrite Hu) Hm Ht Hne Hsess Htx1) as H.
  cbv zeta in H. rewrite Hisd, Hn in H. cbn [movies] in H.
  unfold PAGE_SIZE in Hshown.
  destruct (Z.leb_spec 1 n); [|lia].
  destruct (Z.leb_spec n (Z.of_nat (length shown))); [lia|].
  exact H.
Qed.

End ListFacts.

Section ButtonFacts.
Context (db : UnicodeDB) (ADMIN_IDS : gset Z).
Context (oid_str : nat -> str) (ObjectId : str -> option nat).

Local Abbreviation router := (callback_router db ADMIN_IDS ObjectId).

Lemma list_movies_not_admin update args :
  effective_user update ∉ ADMIN_IDS ->
  list_movies db ADMIN_IDS update args = mret tt.
Proof. intros H. unfold list_movies. by rewrite bool_decide_eq_false_2. Qed.

Lemma page_data_split p : split_on 58 (page_data p) = [ lit "page"; py_str p ].
Proof.
  unfold page_data. change (lit "page:") with (lit "page" ++ [58%N]).
  rewrite <- app_assoc. cbn [app].
  rewrite split_on_app by (apply (bool_decide_unpack _); by vm_compute).
  by rewrite split_on_none by apply py_str_no_colon.
Qed.

Lemma confirm_data_split m p :
  58%N ∉ oid_str (oid m) ->
  split_on 58 (confirm_data oid_str m p) = [ lit "confirm_del"; oid_str (oid m); py_str p ].
Proof.
  intros H. unfold confirm_data.
  change (lit "confirm_del:") with (lit "confirm_del" ++ [58%N]).
  rewrite <- app_assoc. cbn [app].
  rewrite split_on_app by (apply (bool_decide_unpack _); by vm_compute).
  rewrite split_on_app by done.
  by rewrite split_on_none by apply py_str_no_colon.
Qed.

Lemma confirm_data_routes m p :
  startswith (confirm_data oid_str m p) (lit "page:") = false /\
  bool_decide (confirm_data oid_str m p = lit "ask_delete") = false /\
  startswith (confirm_data oid_str m p) (lit "confirm_del:") = true.
Proof.
  split; [reflexivity|]. split; [|apply startswith_app].
  by apply bool_decide_eq_false_2.
Qed.

(** X13.  The Previous and Next buttons.  A press is answered, and then
    the page the button names is listed, as by the list command with
    that number; the number survives the way through the text of the
    button. *)
Theorem page_button_lists_page update p d :
  callback_query update = Some (page_data p) ->
  py_int db (py_str p) = Some p /\
  router update d
  = (answer ;; lift (list_movies db ADMIN_IDS update [ py_str p ])) d.
Proof.
  intros Hq. split; [apply py_int_py_str|].
  unfold callback_router, paginate. rewrite Hq.
  unfold page_data at 1. rewrite startswith_app.
  rewrite page_data_split. cbn [lookup list_lookup].
  by rewrite py_int_py_str.
Qed.

(** X14.  The Confirm button.  Whoever presses it, admin or not, the
    record with the id in the button is deleted, and only that one, and
    the message is edited to say so.  A presser who is not an admin gets
    no listing, and no cached page changes. *)
Theorem confirm_button_deletes update d movie p :
  callback_query update = Some (confirm_data oid_str movie p) ->
  ObjectId (oid_str (oid movie)) = Some (oid movie) ->
  58%N ∉ oid_str (oid movie) ->
  db_ok (world d) = true ->
  tx_faults (world d) = [] ->
  let d' := desk_after (router update) d in
  collection (world d') = remove_first (oid movie) (collection (world d)) /\
  (forall r, r ∈ collection (world d) -> oid r <> oid movie -> r ∈ collection (world d')) /\
  (NoDup (oid <$> collection (world d)) -> movie ∉ collection (world d')) /\
  replies d' = replies d ++ [ (DeletedNotice, true) ] /\
  (effective_user update ∉ ADMIN_IDS ->
     delete_sessions (world d') = delete_sessions (world d) /\
     sent (world d') = sent (world d) ++ [ (CallbackAnswered, true) ] /\
     desk_outcome (router update) d = Done tt).
Proof.
  intros Hq Hid Hcolon Hdb Htx d'.
  assert (Hcol : collection (world d') = remove_first (oid movie) (collection (world d))
                 /\ replies d' = replies d ++ [ (DeletedNotice, true) ]
                 /\ (effective_user update ∉ ADMIN_IDS ->
                       delete_sessions (world d') = delete_sessions (world d) /\
                       sent (world d') = sent (world d) ++ [ (CallbackAnswered, true) ] /\
                       desk_outcome (router update) d = Done tt)).
  { subst d'. destruct d as [[us ds col snt el fr dbf txf] rp].
    cbn in Hdb, Htx. subst txf.
    unfold callback_router, confirm_number_delete. rewrite Hq.
    destruct (confirm_data_routes movie p) as (-> & -> & ->).
    rewrite (confirm_data_split movie p Hcolon), Hid.
    unfold delete_one, db_ok in *. cbn in Hdb.
    run_desk. run_monad. cbn.
    destruct dbf as [|[] dbf]; try done; cbn.
    all: destruct (decide (effective_user update ∈ ADMIN_IDS)) as [Hadm|Hadm].
    all: try (rewrite (list_movies_not_admin _ _ Hadm); unfold mret, M_ret; cbn;
              split; [done|]; split; [done|]; intros _; by repeat split).
    all: match goal with
         | |- context [ list_movies ?a ?b ?c ?e ?wm ] =>
             pose proof (list_movies_collection a b c e wm) as HL;
             unfold exec in HL; cbn [collection] in HL;
             destruct (list_movies a b c e wm) as [[[]|e'] w'] eqn:E; cbn in *
         end.
    all: split; [done|]; split; [done|]; intros Hna; done. }
  destruct Hcol as (Hcol & Hrep & Hna).
  split; [done|]. split; [|split; [|split; [done | done]]].
  - intros r Hr Hne. rewrite Hcol. by apply remove_first_other.
  - intros Hnd Hin. rewrite Hcol in Hin.
    pose proof (remove_first_gone (oid movie) _ Hnd) as Hall.
    rewrite Forall_forall in Hall. by apply (Hall movie Hin).
Qed.

(** X15.  The Confirm button pressed by an admin, with a store and a
    transport that answer: after the deletion the page is listed again
    from what is left, and that becomes the cached page, with nothing
    selected. *)
Theorem confirm_button_relists_for_admin update d movie p :
  callback_query update = Some (confirm_data oid_str movie p) ->
  ObjectId (oid_str (oid movie)) = Some (oid movie) ->
  58%N ∉ oid_str (oid movie) ->
  effective_user update ∈ ADMIN_IDS ->
  1 <= p ->
  db_faults (world d) = [] ->
  tx_faults (world d) = [] ->
  let d' := desk_after (router update) d in
  let left := remove_first (oid movie) (collection (world d)) in
  delete_sessions (world d') !! effective_user update
  = Some {| page := p;
            movies := take (Z.to_nat PAGE_SIZE)
                        (drop (Z.to_nat ((p - 1) * PAGE_SIZE)) (sort_by_name left));
            selected := None |} /\
  (exists body previous next,
     sent (world d') = sent (world d) ++
       [ (CallbackAnswered, true); (Listing body previous next, true) ]) /\
  desk_outcome (router update) d = Done tt.
Proof.
  intros Hq Hid Hcolon Hadmin Hp Hdb Htx d' left. subst d'.
  destruct d as [[us ds col snt el fr dbf txf] rp].
  cbn in Hdb, Htx. subst dbf txf.
  unfold callback_router, confirm_number_delete. rewrite Hq.
  destruct (confirm_data_routes movie p) as (-> & -> & ->).
  rewrite (confirm_data_split movie p Hcolon), Hid.
  unfold delete_one. run_desk. run_monad. cbn.
  match goal with
  | |- context [ list_movies ?a ?b ?c ?e ?wm ] =>
      pose proof (list_movies_session a b wm c (py_str p) p Hadmin) as HL;
      cbv zeta in HL; unfold exec, outcome in HL;
      cbn [collection delete_sessions sent db_faults tx_faults] in HL;
      destruct HL as (Hds & _ & _ & _ & Hout & (body & previous & next & Hsent));
        [ right; rewrite Hq; by eexists | apply py_int_py_str | done | done | done | ];
      destruct (list_movies a b c e wm) as [res w'] eqn:E; cbn in *
  end.
  subst res. cbn.
  split; [by rewrite Hds, lookup_insert_eq|].
  split; [|done]. exists body, previous, next. rewrite Hsent. by rewrite <- app_assoc.
Qed.

(** X16.  The Delete button and the numbers.  The button asks for a
    number between 1 and the length of the cached page and changes
    nothing; and those are the numbers [delete_by_number] then takes as
    a selection: any other number is answered as not on the page. *)
Theorem announced_range_is_accepted update d session update' m t n :
  callback_query update = Some (lit "ask_delete") ->
  delete_sessions (world d) !! effective_user update = Some session ->
  tx_faults (world d) = [] ->
  effective_user update' = effective_user update ->
  effective_user update' ∈ ADMIN_IDS ->
  message update' = Some m ->
  text m = Some t ->
  isdigit db (strip_ws db t) = true ->
  py_int db (strip_ws db t) = Some n ->
  let count := length (movies session) in
  let d' := desk_after (router update) d in
  let w2 := exec (delete_by_number db ADMIN_IDS update') (world d') in
  replies d' = replies d ++ [ (SendNumber count, true) ] /\
  collection (world d') = collection (world d) /\
  delete_sessions (world d') = delete_sessions (world d) /\
  (1 <= n <= Z.of_nat count ->
     exists movie,
       movies session !! Z.to_nat (n - 1) = Some movie /\
       delete_sessions w2 !! effective_user update
       = Some {| page := page session; movies := movies session; selected := Some movie |}) /\
  (~ (1 <= n <= Z.of_nat count) ->
     delete_sessions w2 = delete_sessions (world d') /\
     last (sent w2) = Some (InvalidNumber, true)).
Proof.
  intros Hq Hs Htx Hu Hadmin Hm Ht Hisd Hn count d' w2.
  assert (Hd' : replies d' = replies d ++ [ (SendNumber count, true) ] /\
                collection (world d') = collection (world d) /\
                delete_sessions (world d') = delete_sessions (world d) /\
                tx_faults (world d') = []).
  { subst d'. destruct d as [[us ds col snt el fr dbf txf] rp]. cbn in Htx, Hs. subst txf.
    unfold callback_router, ask_delete. rewrite Hq.
    change (startswith (lit "ask_delete") (lit "page:")) with false.
    rewrite bool_decide_eq_true_2 by done.
    run_desk. run_monad. cbn. rewrite Hs. by cbn. }
  destruct Hd' as (Hrep & Hcol & Hds & Htx').
  split; [done|]. split; [done|]. split; [done|].
  assert (t <> []) as Hne.
  { intros ->. by vm_compute in Hisd. }
  assert (Hs' : delete_sessions (world d') !! effective_user update' = Some session).
  { by rewrite Hds, Hu. }
  pose proof (delete_by_number_cases db ADMIN_IDS (world d') update' m t session
                Hadmin Hm Ht Hne Hs' Htx') as H.
  cbv zeta in H. rewrite Hisd, Hn in H. fold w2 in H. fold count in H.
  split.
  - intros [H1 H2].
    destruct (Z.leb_spec 1 n); [|lia]. destruct (Z.leb_spec n (Z.of_nat count)); [|lia].
    cbn [andb] in H. destruct H as (movie & Hmv & Hsel & _).
    exists movie. split; [done|]. by rewrite Hsel, Hu, lookup_insert_eq.
  - intros Hout.
    assert ((1 <=? n) && (n <=? Z.of_nat count) = false) as E.
    { apply andb_false_iff.
      destruct (Z.leb_spec 1 n); [|by left]. destruct (Z.leb_spec n (Z.of_nat count)); [lia|by right]. }
    rewrite E in H. destruct H as [H1 H2]. split; [done|].
    by rewrite H2, last_snoc.
Qed.

End ButtonFacts.

(** * Properties of the deep link *)

Lemma send_documents_delivered docs w rp :
  tx_faults w = [] ->
  send_documents docs {| world := w; replies := rp |}
  = (Done tt,
     {| world := w;
        replies := rp ++ ((fun doc => (FileSent (file_id doc), true)) <$> docs) |}).
Proof.
  revert rp. induction docs as [|doc docs IH]; intros rp Htx; cbn [send_documents fmap list_fmap].
  - by rewrite app_nil_r.
  - destruct w as [us ds col snt el fr dbf txf]. cbn in Htx. subst txf.
    run_desk. run_monad. cbn. rewrite IH by done. by rewrite <- app_assoc.
Qed.

Lemma find_last {A} (f : A -> bool) (l : list A) (x : A) :
  Forall (fun y => f y = false) l -> f x = true -> List.find f (l ++ [x]) = Some x.
Proof.
  induction 1 as [|y l Hy _ IH]; intros Hx; cbn.
  - by rewrite Hx.
  - rewrite Hy. by apply IH.
Qed.

Section DeepLink.
Context (uuid_str : nat -> str).

Lemma deep_link_lemma update a more d movie :
  List.find (fun r => bool_decide (uuid_str (movie_id r) = a)) (collection (world d))
  = Some movie ->
  is_Some (movie_image movie) ->
  is_Some (message update) ->
  db_ok (world d) = true ->
  tx_faults (world d) = [] ->
  let d' := desk_after (start uuid_str update (a :: more)) d in
  replies d' = replies d ++ delivery movie /\
  desk_outcome (start uuid_str update (a :: more)) d = Done tt /\
  collection (world d') = collection (world d) /\
  sent (world d') = sent (world d).
Proof.
  intros Hfind [image Himg] [m Hm] Hdb Htx d'. subst d'.
  destruct d as [[us ds col snt el fr dbf txf] rp].
  cbn in Hfind, Hdb, Htx. subst txf.
  unfold start, find_one, delivery, preview_photo, db_ok in *. cbn in Hdb.
  run_desk. run_monad. cbn.
  destruct dbf as [|[] dbf]; try done; cbn.
  all: rewrite Hfind, Himg; cbn.
  all: destruct (image_file_id image) as [|c photo] eqn:Ef; cbn.
  all: rewrite ?Hm; cbn.
  all: rewrite send_documents_delivered by done; cbn.
  all: rewrite <- ?app_assoc; done.
Qed.

(** X17.  The deep link of a stored movie.  The poster is sent as a
    reply, then every file of the record, in the order of the record;
    the home menu is not shown and nothing is changed. *)
Theorem deep_link_delivers update a more d movie :
  List.find (fun r => bool_decide (uuid_str (movie_id r) = a)) (collection (world d))
  = Some movie ->
  is_Some (movie_image movie) ->
  is_Some (message update) ->
  db_ok (world d) = true ->
  tx_faults (world d) = [] ->
  let d' := desk_after (start uuid_str update (a :: more)) d in
  replies d' = replies d ++ delivery movie /\
  desk_outcome (start uuid_str update (a :: more)) d = Done tt /\
  collection (world d') = collection (world d) /\
  sent (world d') = sent (world d).
Proof. apply deep_link_lemma. Qed.

(** X18.  What is uploaded is what the deep link delivers.  A complete
    session is stored; the deep link with the id of the new record
    sends the poster and the files of that session, in the order they
    were uploaded. *)
Theorem stored_movie_is_delivered SEARCH_GROUP_ID user update w s update' rp :
  upload_sessions w !! user = Some s ->
  complete s = true ->
  db_faults w = [] ->
  tx_faults w = [] ->
  is_Some (message update) ->
  is_Some (message update') ->
  Forall (fun r => uuid_str (movie_id r) <> uuid_str (fresh w)) (collection w) ->
  let w1 := exec (check_and_save_movie SEARCH_GROUP_ID user update) w in
  let d' := desk_after (start uuid_str update' [ uuid_str (fresh w) ])
              {| world := w1; replies := rp |} in
  exists r poster,
    collection w1 = collection w ++ [r] /\
    movie_id r = fresh w /\
    image s = Some poster /\
    replies d' = rp ++
      match image_file_id poster with
      | [] => []
      | photo => [ (Poster photo (name r), true) ]
      end ++ ((fun doc => (FileSent (file_id doc), true)) <$> files s).
Proof.
  intros Hs Hc Hdb Htx Hm Hm' Hfresh w1 d'.
  destruct (check_persists SEARCH_GROUP_ID user update w s Hs Hc
              ltac:(unfold db_ok; by rewrite Hdb) Htx Hm)
    as (r & (Hn & Hd & Hi) & Hid & Hcol & _ & _ & _ & _ & Hdb1 & Htx1).
  fold w1 in Hcol, Hdb1, Htx1.
  assert (exists poster, image s = Some poster) as [poster Himage].
  { unfold complete in Hc. destruct (image s); [by eexists|].
    cbn in Hc. by rewrite andb_false_r in Hc. }
  exists r, poster. split; [done|]. split; [done|]. split; [done|].
  assert (Hfind : List.find (fun r0 => bool_decide (uuid_str (movie_id r0) = uuid_str (fresh w)))
                    (collection w1) = Some r).
  { rewrite Hcol. apply find_last.
    - eapply Forall_impl; [exact Hfresh|]. intros y Hy. by apply bool_decide_eq_false_2.
    - apply bool_decide_eq_true_2. by rewrite Hid. }
  destruct (deep_link_lemma update' (uuid_str (fresh w)) []
              {| world := w1; replies := rp |} r Hfind)
    as (Hrep & _); cbn [world].
  - rewrite Hi, Himage. by eexists.
  - done.
  - unfold db_ok. by rewrite Hdb1, Hdb.
  - done.
  - fold d' in Hrep. rewrite Hrep. cbn [replies]. f_equal.
    unfold delivery, preview_photo. rewrite Hi, Himage, Hd.
    by destruct (image_file_id poster).
Qed.

End DeepLink.

Lemma send_documents_interrupted docs k w rp rest :
  tx_faults w = replicate k true ++ false :: rest ->
  (k < length docs)%nat ->
  let sends := (fun doc => (FileSent (file_id doc), true)) <$> docs in
  (send_documents docs {| world := w; replies := rp |}).1 = Failed (Py NetworkError) /\
  replies (send_documents docs {| world := w; replies := rp |}).2
  = rp ++ take k sends ++
    match sends !! k with Some (r, _) => [ (r, false) ] | None => [] end.
Proof.
  revert k w rp. induction docs as [|doc docs IH]; intros k w rp Htx Hk sends; [cbn in Hk; lia|].
  subst sends. destruct w as [us ds col snt el fr dbf txf]. cbn in Htx. subst txf.
  destruct k as [|k]; cbn [replicate app send_documents fmap list_fmap take lookup list_lookup].
  - run_desk. run_monad. cbn. done.
  - run_desk. run_monad. cbn.
    match goal with
    | |- context [ send_documents docs {| world := ?w1; replies := ?rp1 |} ] =>
        destruct (IH k w1 rp1) as [H1 H2]; [done | cbn in Hk; lia |]
    end.
    cbv zeta in H2. rewrite H1, H2. split; [done|]. by rewrite <- app_assoc.
Qed.

Section DeepLinkFailure.
Context (uuid_str : nat -> str).

(** X19.  A send that fails on the way.  What came before it has been
    delivered; the poster or file it fails on, and every file after it,
    are not sent again or at all, and the handler raises. *)
Theorem deep_link_stops_at_first_failure update a more d movie k rest :
  List.find (fun r => bool_decide (uuid_str (movie_id r) = a)) (collection (world d))
  = Some movie ->
  is_Some (movie_image movie) ->
  is_Some (message update) ->
  db_ok (world d) = true ->
  tx_faults (world d) = replicate k true ++ false :: rest ->
  (k < length (delivery movie))%nat ->
  let d' := desk_after (start uuid_str update (a :: more)) d in
  desk_outcome (start uuid_str update (a :: more)) d = Failed (Py NetworkError) /\
  replies d' = replies d ++ take k (delivery movie) ++
    match delivery movie !! k with Some (r, _) => [ (r, false) ] | None => [] end.
Proof.
  intros Hfind [image Himg] [m Hm] Hdb Htx Hk d'. subst d'.
  destruct d as [[us ds col snt el fr dbf txf] rp].
  cbn in Hfind, Hdb, Htx. subst txf.
  unfold start, find_one, delivery, preview_photo, db_ok in *. cbn in Hdb.
  rewrite Himg in Hk |- *.
  run_desk. run_monad. cbn.
  destruct dbf as [|[] dbf]; try done; cbn.
  all: rewrite Hfind, Himg; cbn.
  all: destruct (image_file_id image) as [|c photo] eqn:Ef; cbn [app] in *.
  all: rewrite ?Hm.
  all: first
         [ match goal with
           | |- context [ send_documents ?docs {| world := ?w1; replies := ?rp1 |} ] =>
               destruct (send_documents_interrupted docs k w1 rp1 rest) as [H1 H2];
                 [done | rewrite length_fmap in Hk; lia |];
               cbv zeta in H2; rewrite H1, H2; by split
           end
         | idtac ].
  all: destruct k as [|k]; cbn [replicate app take lookup list_lookup length] in *.
  all: cbn.
  all: try done.
  all: match goal with
       | |- context [ send_documents ?docs {| world := ?w1; replies := ?rp1 |} ] =>
           destruct (send_documents_interrupted docs k w1 rp1 rest) as [H1 H2];
             [done | rewrite length_fmap in Hk; lia |]
       end.
  all: cbv zeta in H2; rewrite H1, H2; split; [done|]; by rewrite <- ?app_assoc.
Qed.

End DeepLinkFailure.

(** * Properties of the registration order *)

Section Routing.
Context (STORAGE_GROUP_ID SEARCH_GROUP_ID : Z).

(** X20.  No update reaches [search_movie].  Its filter asks for a text
    that is no command, in the search group; the handler registered
    before it takes every text that is no command. *)
Theorem search_movie_never_dispatched i :
  dispatch STORAGE_GROUP_ID SEARCH_GROUP_ID i <> Some SearchMovie.
Proof.
  unfold dispatch, registered. cbn [List.find fst snd].
  destruct (TEXT i && negb (COMMAND i)) eqn:E.
  - repeat match goal with
           | |- context [ if ?b then _ else _ ] => destruct b
           end; done.
  - cbn [andb].
    repeat match goal with
           | |- context [ if ?b then _ else _ ] => destruct b
           end; done.
Qed.

(** X21.  Where a text goes that is no command and comes with no file and
    no photo: in the storage group to [text_handler], everywhere else
    to [delete_by_number].  So a number sent in the storage group is
    never read as a selection. *)
Theorem plain_text_routing i m t :
  message (carried i) = Some m ->
  callback_query (carried i) = None ->
  text m = Some t ->
  t <> [] ->
  document m = None ->
  photo m = [] ->
  leading i = Plain ->
  dispatch STORAGE_GROUP_ID SEARCH_GROUP_ID i
  = Some (if bool_decide (effective_chat (carried i) = STORAGE_GROUP_ID)
          then TextHandler else DeleteByNumber).
Proof.
  intros Hm Hq Ht Hne Hd Hp Hl.
  unfold dispatch, registered, CommandHandler, CallbackQueryHandler, TEXT, COMMAND,
    Chat, Document_ALL, PHOTO.
  cbn [List.find fst snd]. rewrite Hm, Hq, Ht, Hd, Hp, Hl.
  destruct t as [|c t]; [done|]. cbn.
  by destruct (bool_decide (effective_chat (carried i) = STORAGE_GROUP_ID)).
Qed.

Lemma pattern_menu_edit :
  pattern_menu (lit "edit_name") = false /\ pattern_menu (lit "continue_name") = false /\
  pattern_name_decision (lit "edit_name") = true /\
  pattern_name_decision (lit "continue_name") = true.
Proof. by vm_compute. Qed.

(** X22.  The five operations of an upload session reach the handlers
    that serve them: files and photos [add_movie], the two buttons
    [name_decision_handler], a name [text_handler]. *)
Theorem session_operations_routed o :
  (forall u t, o = SubmitNameText u t -> t <> []) ->
  dispatch STORAGE_GROUP_ID SEARCH_GROUP_ID (plain (update_of STORAGE_GROUP_ID o)) = Some (handler_of o).
Proof.
  intros Hne.
  destruct pattern_menu_edit as (Hm1 & Hm2 & Hn1 & Hn2).
  destruct o as [u f raw|u f pw ph|u|u|u t];
    unfold dispatch, registered, CommandHandler, CallbackQueryHandler, TEXT, COMMAND,
      Chat, Document_ALL, PHOTO, plain, update_of, message_update, button_update;
    cbn [List.find fst snd carried leading message callback_query text document photo
         effective_chat andb negb handler_of].
  - by rewrite bool_decide_eq_true_2.
  - by rewrite bool_decide_eq_true_2.
  - by rewrite Hm1, Hn1.
  - by rewrite Hm2, Hn2.
  - specialize (Hne u t eq_refl). destruct t as [|c t]; [done|].
    cbn. by rewrite bool_decide_eq_true_2.
Qed.

(** X23.  The buttons of a listing (Previous, Next, Delete, Confirm and
    Cancel) all reach [callback_router], whatever page and record they
    name. *)
Theorem list_buttons_routed i data oid_str (m : MovieRecord) p :
  callback_query (carried i) = Some data ->
  message (carried i) = None ->
  data = page_data p \/ data = lit "ask_delete" \/
  data = confirm_data oid_str m p \/ data = lit "cancel_del" ->
  dispatch STORAGE_GROUP_ID SEARCH_GROUP_ID i = Some CallbackRouter.
Proof.
  intros Hq Hm Hdata.
  unfold dispatch, registered, CommandHandler, CallbackQueryHandler, TEXT.
  cbn [List.find fst snd]. rewrite Hm, Hq. cbn [andb].
  destruct Hdata as [-> | [-> | [-> | ->]]]; reflexivity.
Qed.

End Routing.

(** * Properties of the retry loops *)

Lemma connect_loop_spec n answers log :
  exists k,
    (k <= n)%nat /\
    take k answers = replicate k SelectionTimeout /\
    retry_errors (connect_loop n answers log).2 = (retry_errors log + k)%nat /\
    slept (connect_loop n answers log).2 = slept log + 5 * Z.of_nat k /\
    match (connect_loop n answers log).1 with
    | Ok found =>
        if found
        then (k < n)%nat /\ answers !! k <> Some SelectionTimeout /\
             infos (connect_loop n answers log).2 = S (infos log) /\
             criticals (connect_loop n answers log).2 = criticals log
        else k = n /\
             infos (connect_loop n answers log).2 = infos log /\
             criticals (connect_loop n answers log).2 = S (criticals log)
    | Raised e =>
        e = PyMongoError /\ (k < n)%nat /\ answers !! k = Some OtherFailure /\
        infos (connect_loop n answers log).2 = infos log /\
        criticals (connect_loop n answers log).2 = criticals log
    end.
Proof.
  revert answers log. induction n as [|n IH]; intros answers log.
  - exists 0%nat. cbn. repeat split; try lia; try done.
  - destruct answers as [|[] rest]; cbn [connect_loop].
    + exists 0%nat. cbn. repeat split; try lia; done.
    + exists 0%nat. cbn. repeat split; try lia; done.
    + destruct (IH rest {| infos := infos log; retry_errors := S (retry_errors log);
                           criticals := criticals log; slept := slept log + 5 |})
        as (k & Hk & Htake & Herr & Hslept & Hres).
      exists (S k). cbn [take replicate lookup list_lookup] in *.
      rewrite Htake, Herr, Hslept. cbn [retry_errors slept infos criticals] in *.
      split; [lia|]. split; [done|]. split; [lia|]. split; [lia|].
      destruct (connect_loop n rest _).1 as [[]|e].
      * destruct Hres as (? & ? & ? & ?). repeat split; try done; lia.
      * destruct Hres as (? & ? & ?). repeat split; try done; lia.
      * destruct Hres as (? & ? & ? & ? & ?). repeat split; try done; lia.
    + exists 0%nat. cbn. repeat split; try lia; done.
Qed.

(** X24.  [connect_mongo] tries at most five times.  Each time-out is
    logged and followed by five seconds of sleep.  It returns the
    collection at the first answer, raises at the first failure that is
    no time-out, and returns None, with one critical entry in the log,
    exactly when five attempts in a row time out, 25 seconds of sleep
    later. *)
Theorem connect_mongo_gives_up_after_five answers :
  let result := (connect_mongo answers).1 in
  let log := (connect_mongo answers).2 in
  (retry_errors log <= 5)%nat /\
  slept log = 5 * Z.of_nat (retry_errors log) /\
  take (retry_errors log) answers = replicate (retry_errors log) SelectionTimeout /\
  (result = Ok false <-> take 5 answers = replicate 5 SelectionTimeout) /\
  (result = Ok false -> retry_errors log = 5%nat /\ criticals log = 1%nat /\ slept log = 25) /\
  (result = Ok true ->
     infos log = 1%nat /\ criticals log = 0%nat /\
     answers !! retry_errors log <> Some SelectionTimeout) /\
  (forall e, result = Raised e ->
     e = PyMongoError /\ answers !! retry_errors log = Some OtherFailure).
Proof.
  intros result log. subst result log. unfold connect_mongo.
  destruct (connect_loop_spec 5 answers no_log) as (k & Hk & Htake & Herr & Hslept & Hres).
  cbn [retry_errors slept infos criticals no_log] in *.
  rewrite Nat.add_0_l in Herr. rewrite Herr, Hslept.
  split; [done|]. split; [lia|]. split; [done|].
  destruct (connect_loop 5 answers no_log).1 as [[]|e].
  - destruct Hres as (Hlt & Hk' & Hi & Hc).
    split; [|split; [done|]; split; [done|]; intros e [=]].
    split; [done|]. intros H5. exfalso. apply Hk'.
    assert (take 5 answers !! k = Some SelectionTimeout) as Hx.
    { rewrite H5. apply lookup_replicate_2. lia. }
    rewrite lookup_take_lt in Hx by lia. done.
  - destruct Hres as (-> & Hi & Hc).
    split; [done|]. split; [intros _; by repeat split|].
    split; [done|]. intros e [=].
  - destruct Hres as (-> & Hlt & Hk' & Hi & Hc).
    split; [|split; [done|]; split; [done|]; by intros e [= <-]].
    split; [done|]. intros H5. exfalso.
    assert (take 5 answers !! k = Some SelectionTimeout) as Hx.
    { rewrite H5. apply lookup_replicate_2. lia. }
    rewrite lookup_take_lt in Hx by lia. congruence.
Qed.

Lemma awake_loop_spec n d pings log :
  gave_up log = false ->
  exists k,
    (k <= n)%nat /\
    waits (awake_loop n d pings log) = waits log ++ take k (delays n d) /\
    length (take k pings) = k /\
    forallb unanswered (take k pings) = true /\
    (ping_warnings (awake_loop n d pings log) + ping_errors (awake_loop n d pings log)
     = ping_warnings log + ping_errors log + k)%nat /\
    (gave_up (awake_loop n d pings log) = true <-> k = n) /\
    ((k < n)%nat -> pings !! k = None \/ pings !! k = Some (Status 200)).
Proof.
  revert d pings log. induction n as [|n IH]; intros d pings log Hg.
  - exists 0%nat. cbn. rewrite app_nil_r. repeat split; try done; lia.
  - assert (Hstop : forall p0,
              (p0 = None \/ p0 = Some (Status 200)) -> pings !! 0%nat = p0 ->
              exists k,
                (k <= S n)%nat /\
                waits log = waits log ++ take k (delays (S n) d) /\
                length (take k pings) = k /\
                forallb unanswered (take k pings) = true /\
                (ping_warnings log + ping_errors log
                 = ping_warnings log + ping_errors log + k)%nat /\
                (gave_up log = true <-> k = S n) /\
                ((k < S n)%nat -> pings !! k = None \/ pings !! k = Some (Status 200))).
    { intros p0 Hp0 E. exists 0%nat. cbn. rewrite app_nil_r, Hg.
      repeat split; try done; try lia. intros _. rewrite E. exact Hp0. }
    assert (Hgo : forall p rest warned failed,
              pings = p :: rest -> unanswered p = true -> (warned + failed = 1)%nat ->
              let log' := {| waits := waits log ++ [ d ];
                             ping_warnings := ping_warnings log + warned;
                             ping_errors := ping_errors log + failed;
                             gave_up := gave_up log |} in
              let res := awake_loop n (Z.min (d * 2) 300) rest log' in
              exists k,
                (k <= S n)%nat /\
                waits res = waits log ++ take k (delays (S n) d) /\
                length (take k pings) = k /\
                forallb unanswered (take k pings) = true /\
                (ping_warnings res + ping_errors res
                 = ping_warnings log + ping_errors log + k)%nat /\
                (gave_up res = true <-> k = S n) /\
                ((k < S n)%nat -> pings !! k = None \/ pings !! k = Some (Status 200))).
    { intros p rest warned failed -> Hp Hwf log' res.
      destruct (IH (Z.min (d * 2) 300) rest log' Hg)
        as (k & Hk & Hw & Hlen & Hall & Hcount & Hgave & Hnext).
      fold res in Hw, Hcount, Hgave.
      exists (S k). cbn [take delays length forallb lookup list_lookup].
      rewrite Hw, Hlen, Hall, Hp. cbn [waits ping_warnings ping_errors log'] in *.
      rewrite <- app_assoc. cbn [app].
      split; [lia|]. split; [done|]. split; [done|]. split; [done|].
      split; [lia|]. split; [rewrite Hgave; lia|].
      intros Hlt. apply Hnext. lia. }
    destruct pings as [|[code|] rest]; cbn [awake_loop].
    + by apply (Hstop None); [left|].
    + destruct (Z.eqb_spec code 200) as [->|Hne].
      * by apply (Hstop (Some (Status 200))); [right|].
      * apply (Hgo (Status code) rest 1%nat 0%nat); [done| |done].
        cbn. by apply negb_true_iff, Z.eqb_neq.
    + by apply (Hgo PingFailed rest 0%nat 1%nat).
Qed.

(** X25.  [keep_awake] pings at most five times and stops at the first
    status 200.  After the failed pings it waits 10, 20, 40, 80 and 160
    seconds: the delay doubles, and the cap of 300 seconds is never
    reached.  It gives up, with a critical entry in the log, exactly
    when all five pings fail. *)
Theorem keep_awake_backs_off pings :
  let log := keep_awake pings in
  exists k,
    (k <= 5)%nat /\
    waits log = take k [ 10; 20; 40; 80; 160 ] /\
    length (take k pings) = k /\
    forallb unanswered (take k pings) = true /\
    (ping_warnings log + ping_errors log = k)%nat /\
    (gave_up log = true <-> k = 5%nat) /\
    ((k < 5)%nat -> pings !! k = None \/ pings !! k = Some (Status 200)) /\
    Forall (fun seconds => seconds < 300) (waits log).
Proof.
  intros log. subst log. unfold keep_awake.
  destruct (awake_loop_spec 5 10 pings no_wait eq_refl)
    as (k & Hk & Hw & Hlen & Hall & Hcount & Hgave & Hnext).
  exists k. cbn [waits ping_warnings ping_errors no_wait app] in *.
  change (delays 5 10) with [ 10; 20; 40; 80; 160 ] in Hw.
  split; [done|]. split; [done|]. split; [done|]. split; [done|].
  split; [lia|]. split; [done|]. split; [done|].
  rewrite Hw. apply Forall_take. repeat constructor.
Qed.

(** * More on the normaliser *)

Lemma brackets_app (a b : str) : brackets (a ++ b) = brackets a ++ brackets b.
Proof. apply List.filter_app. Qed.

Lemma brackets_plain (a : str) :
  Forall (fun c => is_bracket c = false) a -> brackets a = [].
Proof. induction 1 as [|c a Hc _ IH]; cbn; [done|]. by rewrite Hc. Qed.

Lemma brackets_sublist (a b : str) : sublist a b -> sublist (brackets a) (brackets b).
Proof.
  induction 1 as [|x a b _ IH|x a b _ IH]; cbn; [done| |].
  - destruct (is_bracket x); [by apply sublist_skip | done].
  - destruct (is_bracket x); [by apply sublist_cons | done].
Qed.

Lemma existsb_close_brackets (s : str) :
  existsb (N.eqb 93) (brackets s) = existsb (N.eqb 93) s.
Proof.
  induction s as [|c s IH]; [done|]. cbn [brackets List.filter existsb].
  fold (brackets s). unfold is_bracket at 1.
  destruct (N.eqb_spec c 91) as [->|H91]; cbn [orb existsb]; [by rewrite IH|].
  destruct (N.eqb_spec c 93) as [->|H93]; cbn [orb existsb]; [done|].
  rewrite IH. by destruct (N.eqb_spec 93 c) as [<-|].
Qed.

Lemma has_bracket_pair_brackets (s : str) :
  has_bracket_pair (brackets s) = has_bracket_pair s.
Proof.
  induction s as [|c s IH]; [done|]. cbn [brackets List.filter has_bracket_pair].
  fold (brackets s). unfold is_bracket at 1.
  destruct (N.eqb_spec c 91) as [->|H91]; cbn [orb has_bracket_pair andb].
  - by rewrite existsb_close_brackets, IH.
  - destruct (N.eqb_spec c 93) as [->|H93]; cbn [orb has_bracket_pair andb]; by rewrite IH.
Qed.

(** Fewer brackets, in the same order: no new pair. *)
Lemma no_pair_of_fewer (a b : str) :
  sublist (brackets a) (brackets b) ->
  has_bracket_pair b = false -> has_bracket_pair a = false.
Proof.
  intros Hs Hb. rewrite <- has_bracket_pair_brackets in Hb.
  rewrite <- has_bracket_pair_brackets.
  destruct (has_bracket_pair (brackets a)) eqn:E; [|done].
  by rewrite (has_bracket_pair_sublist _ _ Hs E) in Hb.
Qed.

Lemma re_sub_from_brackets m repl k s :
  Forall (fun c => is_bracket c = false) repl ->
  sublist (brackets (re_sub_from m repl k s)) (brackets s).
Proof.
  intros Hr. revert k. induction s as [|c s IH]; intros k; cbn [re_sub_from]; [done|].
  assert (Hskip : forall x : str, sublist (brackets x) (brackets s) ->
                                  sublist (brackets x) (brackets (c :: s))).
  { intros x Hx. cbn. destruct (is_bracket c); [by apply sublist_cons | done]. }
  destruct k as [|k]; [|by apply Hskip].
  destruct (m (c :: s)) as [[|n]|].
  - cbn. destruct (is_bracket c); [by apply sublist_skip | done].
  - rewrite brackets_app, (brackets_plain repl Hr). by apply Hskip.
  - cbn. destruct (is_bracket c); [by apply sublist_skip | done].
Qed.

Lemma re_sub_from_sublist m k (s : str) : sublist (re_sub_from m [] k s) s.
Proof.
  revert k. induction s as [|c s IH]; intros k; cbn [re_sub_from]; [done|].
  destruct k as [|k]; [|by apply sublist_cons].
  destruct (m (c :: s)) as [[|n]|]; cbn [app];
    [by apply sublist_skip | by apply sublist_cons | by apply sublist_skip].
Qed.

Lemma strip_sublist p (s : str) : sublist (strip p s) s.
Proof. destruct (strip_infix p s) as (a & b & E). rewrite E at 2. apply infix_sublist. Qed.

Lemma lstrip_sublist p (s : str) : sublist (lstrip p s) s.
Proof. destruct (lstrip_suffix p s) as [k E]. rewrite E at 2. by apply sublist_inserts_l. Qed.

(** No ']' behind an opening bracket that finds none before the end of
    its line, when the string is one line. *)
Lemma bracket_body_none (s : str) :
  bracket_body s = None -> 10%N ∉ s -> existsb (N.eqb 93) s = false.
Proof.
  induction s as [|c s IH]; [done|]. cbn [bracket_body existsb].
  intros H Hnl. apply not_elem_of_cons in Hnl as [Hc Hnl].
  rewrite (N.eqb_sym 93 c).
  destruct (N.eqb_spec c 93); [done|]. cbn [orb].
  destruct (N.eqb_spec c 10); [congruence|].
  destruct (bracket_body s); [done|]. by apply IH.
Qed.

Lemma sub_brackets_from_no_pair k (s : str) :
  10%N ∉ s -> has_bracket_pair (re_sub_from m_bracket [] k s) = false.
Proof.
  revert k. induction s as [|c s IH]; intros k Hnl; cbn [re_sub_from]; [done|].
  apply not_elem_of_cons in Hnl as [Hc Hnl].
  destruct k as [|k]; [|by apply IH].
  cbn [m_bracket]. destruct (N.eqb_spec c 91) as [->|H91].
  - destruct (bracket_body s) as [n|] eqn:E; cbn [option_map app]; [by apply IH|].
    cbn [has_bracket_pair]. rewrite IH by done. rewrite orb_false_r.
    apply andb_false_iff. right.
    destruct (existsb (N.eqb 93) (re_sub_from m_bracket [] 0 s)) eqn:E'; [|done].
    pose proof (existsb_sublist _ _ _ (re_sub_from_sublist m_bracket 0 s) E') as Hx.
    by rewrite bracket_body_none in Hx.
  - cbn [has_bracket_pair]. rewrite IH by done.
    destruct (N.eqb_spec c 91); [done|]. done.
Qed.

Section MoreNormalizerFacts.
Context (db : UnicodeDB).

(** Steps 2 to 5 add no bracket. *)
Lemma step5_brackets s :
  sublist (brackets (step5 db s)) (brackets (sub_brackets s)).
Proof.
  unfold step5, sub_tags, step4, sub_underscores, sub_non_ascii, sub_prefix, strip_ws.
  etrans; [apply brackets_sublist, strip_sublist|].
  etrans; [apply re_sub_from_brackets; by repeat constructor|].
  etrans; [apply brackets_sublist, strip_sublist|].
  etrans; [apply re_sub_from_brackets; by repeat constructor|].
  etrans; [apply re_sub_from_brackets; by constructor|].
  apply brackets_sublist, lstrip_sublist.
Qed.

Lemma ascii_digit_plain_bracket c : ascii_digit c = true -> is_bracket c = false.
Proof.
  unfold ascii_digit, is_bracket. intros [H1 H2]%andb_true_iff.
  apply N.leb_le in H1, H2.
  destruct (N.eqb_spec c 91); [lia|]. destruct (N.eqb_spec c 93); [lia|]. done.
Qed.

Lemma ascii_letter_plain_bracket c : ascii_letter c = true -> is_bracket c = false.
Proof.
  unfold ascii_letter, ascii_upper, ascii_lower, is_bracket.
  intros [[H1 H2]%andb_true_iff | [H1 H2]%andb_true_iff]%orb_true_iff;
    apply N.leb_le in H1, H2;
    (destruct (N.eqb_spec c 91); [lia|]); (destruct (N.eqb_spec c 93); [lia|]); done.
Qed.

Lemma finish_brackets z :
  all_ascii z -> only_spaces db z ->
  sublist (brackets (finish db z)) (brackets z).
Proof.
  intros Ha Ho. unfold finish.
  destruct (search_title db z) as [[[t y] l]|] eqn:E.
  2:{ apply brackets_sublist, strip_sublist. }
  destruct (search_title_pieces db _ _ _ _ Ha Ho E) as (_ & _ & Hy & Hl).
  apply search_title_spec in E as (rest & -> & _).
  unfold format_name, collapse_ws, strip_ws.
  etrans; [apply re_sub_from_brackets; by repeat constructor|].
  etrans; [apply brackets_sublist, strip_sublist|].
  rewrite !brackets_app.
  assert (brackets (strip (isspace db) y) = []) as ->.
  { apply brackets_plain, strip_Forall.
    eapply Forall_impl; [exact Hy|]. apply ascii_digit_plain_bracket. }
  assert (brackets match l with
                   | Some x => strip (isspace db) x
                   | None => []
                   end = []) as ->.
  { destruct l as [x|]; [|done]. apply brackets_plain, strip_Forall.
    destruct (language_letters x (Hl x eq_refl)) as [_ Hx].
    eapply Forall_impl; [exact Hx|]. apply ascii_letter_plain_bracket. }
  change (brackets (lit " (")) with (@nil N). change (brackets (lit ") ")) with (@nil N).
  rewrite !app_nil_r. apply sublist_inserts_r.
  apply brackets_sublist, strip_sublist.
Qed.

(** X26.  Brackets.  From a file name of one line every bracketed group
    is removed: in the result no '[' is followed by a ']'. *)
Theorem clean_filename_drops_bracketed_groups s :
  10%N ∉ s -> has_bracket_pair (clean_filename db s) = false.
Proof.
  intros Hnl. rewrite clean_filename_finish.
  apply (no_pair_of_fewer _ (sub_brackets s)).
  - etrans; [apply finish_brackets; [apply step5_ascii | apply step5_only_spaces]|].
    apply step5_brackets.
  - by apply sub_brackets_from_no_pair.
Qed.

(** X27.  White space and underscores.  The result has no underscore, and
    no white space but the space. *)
Theorem clean_filename_plain_spaces s :
  Forall (fun c => c <> 95%N /\ (isspace db c = true -> c = 32%N)) (clean_filename db s).
Proof.
  set (P := fun c : N => c <> 95%N /\ (isspace db c = true -> c = 32%N)).
  assert (H32 : P 32%N) by done.
  assert (H4 : Forall P (step4 db s)).
  { unfold step4, sub_underscores. apply strip_Forall.
    apply re_sub_plus_Forall; [by repeat constructor|].
    apply Forall_forall. intros c _ Hc. unfold is_us_ws in Hc.
    apply orb_false_elim in Hc as [H95 Hs]. apply N.eqb_neq in H95.
    split; [done|]. unfold re_s in Hs. congruence. }
  assert (H5 : Forall P (step5 db s)).
  { unfold step5, sub_tags. apply strip_Forall.
    apply re_sub_from_Forall; [by repeat constructor | done]. }
  unfold clean_filename.
  destruct (search_title db (step5 db s)) as [[[t y] l]|] eqn:E.
  - destruct (search_title_Forall db P _ _ _ _ E H5) as (Ht & Hy & Hl).
    apply format_name_Forall; try done.
  - by apply strip_Forall.
Qed.

(** X28.  A file name made of nothing but characters that are no letters
    and no digits (punctuation, symbols, white space, underscores, in
    ASCII or not) cleans to the empty name. *)
Theorem clean_filename_of_marks_is_empty s :
  Forall (fun c => is_prefix_junk db c = true) s -> clean_filename db s = [].
Proof.
  intros H.
  assert (sub_prefix db (sub_brackets s) = []) as E.
  { unfold sub_prefix, sub_brackets, re_sub.
    rewrite <- (app_nil_r (re_sub_from _ _ _ _)).
    rewrite lstrip_all; [done|].
    apply re_sub_from_Forall; [constructor | done]. }
  unfold clean_filename, step5, step4. by rewrite E.
Qed.

Lemma ascii_letter_not_sep c : ascii_letter c = true -> is_sep c = false.
Proof.
  unfold ascii_letter, ascii_upper, ascii_lower, is_sep.
  intros [[H1 H2]%andb_true_iff | [H1 H2]%andb_true_iff]%orb_true_iff;
    apply N.leb_le in H1, H2;
    repeat match goal with
           | |- context [ (c =? ?k)%N ] => destruct (N.eqb_spec c k); [lia|]
           end; done.
Qed.

Lemma titled_trimmed T y l :
  trimmed T -> (forall x, l = Some x -> is_language x) -> trimmed (titled T y l).
Proof.
  intros [Hh Hl] Hlang. unfold titled. split; intros c.
  - destruct T as [|d T]; cbn.
    + by intros [= <-].
    + intros [= <-]. by apply Hh.
  - rewrite !app_assoc. destruct l as [x|].
    + destruct (language_ends_in_letter x (Hlang x eq_refl)) as (e & He & Hle).
      change (32%N :: x) with ([32%N] ++ x). rewrite app_assoc.
      apply last_Some in He as (x' & ->). rewrite app_assoc, last_snoc.
      intros [= <-]. by apply ascii_letter_not_sep.
    + rewrite app_nil_r, last_snoc. by intros [= <-].
Qed.

(** X29.  The result never begins or ends with a space, a hyphen, a dot
    or an underscore. *)
Theorem clean_filename_trimmed s : trimmed (clean_filename db s).
Proof.
  unfold clean_filename.
  destruct (search_title db (step5 db s)) as [[[t y] l]|] eqn:E.
  - destruct (search_title_pieces db _ _ _ _ (step5_ascii db s) (step5_only_spaces db s) E)
      as (Ht & _ & Hy & Hl).
    rewrite (format_name_titled db) by done.
    apply titled_trimmed; [|done]. by apply (collapse_ws_tidy db).
  - split; intros c Hc; [by eapply strip_head | by eapply strip_last].
Qed.

(** X30.  A year and no language.  The result is "Title (Year)", or
    "(Year)" when nothing is left of the text before the year. *)
Theorem clean_filename_with_year_only s t y :
  search_title db (step5 db s) = Some (t, y, None) ->
  let title := collapse_ws db (strip_sep t) in
  clean_filename db s = titled title y None /\
  length y = 4%nat /\ Forall (fun c => ascii_digit c = true) y /\
  tidy db title /\
  last (clean_filename db s) = Some 41%N.
Proof.
  intros H title.
  destruct (search_title_pieces db _ _ _ _ (step5_ascii db s) (step5_only_spaces db s) H)
    as (Ht & Hlen & Hy & Hl).
  assert (E : clean_filename db s = titled title y None).
  { unfold clean_filename. rewrite H. by apply format_name_titled. }
  split; [done|]. split; [done|]. split; [done|].
  split; [by apply collapse_ws_tidy|].
  rewrite E. unfold titled. by rewrite app_nil_r, !app_assoc, last_snoc.
Qed.

End MoreNormalizerFacts.

(** * The theorems at work *)

Lemma other_users_leave_session_witness :
  upload_sessions
    (example_run poster_then_file [ ReceiveDocument 7 (lit "file-9") (lit "Other 2020.mkv") ]) !! 1
  = upload_sessions poster_then_file !! 1.
Proof.
  apply (other_users_leave_session unicode_excerpt 100 200 {[ 1 ]}).
  repeat constructor. cbn. lia.
Defined.

Lemma session_gone_means_stored_witness :
  let w := example_run empty_world [ ReceiveDocument 7 (lit "file-1") (lit "Movie 2021.mkv") ] in
  exists r added,
    collection (example_run w [ ReceiveImage 7 (lit "poster") 640 960 ])
    = collection w ++ r :: added.
Proof.
  cbv zeta.
  apply (session_gone_means_stored unicode_excerpt 100 200 {[ 1 ]} _ _ 7).
  - eexists. vm_compute. reflexivity.
  - vm_compute. reflexivity.
Defined.

Lemma complete_session_persisted_witness :
  exists r,
    record_of poster_then_file_session r /\
    collection (exec (check_and_save_movie 200 1 (text_update 1 (lit "ok"))) poster_then_file)
    = collection poster_then_file ++ [r].
Proof.
  destruct (complete_session_persisted 200 1 (text_update 1 (lit "ok")) poster_then_file
              poster_then_file_session)
    as (r & Hr & _ & Hc & _).
  - vm_compute. reflexivity.
  - vm_compute. reflexivity.
  - reflexivity.
  - reflexivity.
  - eexists. reflexivity.
  - exists r. split; [exact Hr | exact Hc].
Defined.

Lemma preview_failure_is_swallowed_witness :
  let w := set_tx_faults (fun _ => [ true; false ]) poster_then_file in
  let w' := exec (check_and_save_movie 200 1 (text_update 1 (lit "ok"))) w in
  exists r,
    collection w' = collection w ++ [r] /\
    upload_sessions w' = delete 1 (upload_sessions w) /\
    errors_logged w' = S (errors_logged w).
Proof.
  cbv zeta.
  destruct (preview_failure_is_swallowed 200 1 (text_update 1 (lit "ok"))
              (set_tx_faults (fun _ => [ true; false ]) poster_then_file)
              poster_then_file_session [])
    as (r & _ & Hc & Hs & _ & He & _).
  - vm_compute. reflexivity.
  - vm_compute. reflexivity.
  - reflexivity.
  - eexists. reflexivity.
  - lia.
  - reflexivity.
  - exists r. split; [exact Hc|]. split; [exact Hs | exact He].
Defined.

Lemma lost_confirmation_keeps_record_and_session_witness :
  let w := set_tx_faults (fun _ => [ false ]) poster_then_file in
  let w' := exec (check_and_save_movie 200 1 (text_update 1 (lit "ok"))) w in
  exists r, collection w' = collection w ++ [r] /\ upload_sessions w' = upload_sessions w.
Proof.
  cbv zeta.
  destruct (lost_confirmation_keeps_record_and_session 200 1 (text_update 1 (lit "ok"))
              (set_tx_faults (fun _ => [ false ]) poster_then_file)
              poster_then_file_session [])
    as (r & delivered & _ & Hc & Hs & _).
  - vm_compute. reflexivity.
  - vm_compute. reflexivity.
  - reflexivity.
  - eexists. reflexivity.
  - reflexivity.
  - exists r. split; [exact Hc | exact Hs].
Defined.

Lemma refused_insert_keeps_session_witness :
  let w := set_db_faults (fun _ => [ false ]) poster_then_file in
  let w' := exec (check_and_save_movie 200 1 (text_update 1 (lit "ok"))) w in
  collection w' = collection w /\ upload_sessions w' = upload_sessions w.
Proof.
  cbv zeta.
  destruct (refused_insert_keeps_session 200 1 (text_update 1 (lit "ok"))
              (set_db_faults (fun _ => [ false ]) poster_then_file)
              poster_then_file_session)
    as (Hc & Hs & _).
  - vm_compute. reflexivity.
  - vm_compute. reflexivity.
  - reflexivity.
  - eexists. reflexivity.
  - split; [exact Hc | exact Hs].
Defined.

Lemma admin_document_waits_for_decision_witness :
  collection (example_step poster_then_file
                (ReceiveDocument 1 (lit "file-2") (lit "Movie 2021 CD2.mkv")))
  = collection poster_then_file.
Proof.
  apply (admin_document_waits_for_decision unicode_excerpt 100 200 {[ 1 ]} poster_then_file 1).
  by apply elem_of_singleton.
Defined.

Lemma photo_message_keeps_largest_witness :
  largest_photo_from thumbnail [ full_size ] ∈ [ thumbnail; full_size ] /\
  Forall (fun q => area q <= area (largest_photo_from thumbnail [ full_size ]))
         [ thumbnail; full_size ].
Proof.
  destruct (photo_message_keeps_largest unicode_excerpt 100 200 {[ 1 ]} empty_world two_sizes
              {| document := None; photo := [ thumbnail; full_size ]; text := None |}
              thumbnail [ full_size ] eq_refl eq_refl eq_refl eq_refl)
    as (Hin & Hall & _).
  split; [exact Hin | exact Hall].
Defined.

Lemma list_movies_refuses_page_below_one_witness :
  outcome (list_movies unicode_excerpt {[ 1 ]} (text_update 1 (lit "/list 0")) [ lit "0" ]) library
  = Raised ValueError.
Proof.
  apply (list_movies_refuses_page_below_one unicode_excerpt {[ 1 ]} library
           (text_update 1 (lit "/list 0")) (lit "0") [] 0).
  - by apply elem_of_singleton.
  - vm_compute. reflexivity.
  - lia.
Defined.

Lemma ascii_number_is_answered_witness :
  outcome (delete_by_number unicode_excerpt {[ 1 ]} (text_update 1 (lit " 2 "))) library_page_3
  = Ok tt.
Proof.
  eapply (ascii_number_is_answered unicode_excerpt {[ 1 ]} library_page_3
            (text_update 1 (lit " 2 "))).
  - by apply elem_of_singleton.
  - reflexivity.
  - reflexivity.
  - vm_compute. discriminate.
  - vm_compute. repeat constructor.
  - vm_compute. reflexivity.
  - reflexivity.
Defined.

Lemma listed_numbers_rejected_after_page_one_witness :
  let w1 := exec (list_movies unicode_excerpt {[ 1 ]} (text_update 1 (lit "/list 3")) [ lit "3" ])
              library in
  let w2 := exec (delete_by_number unicode_excerpt {[ 1 ]} (text_update 1 (lit "21"))) w1 in
  delete_sessions w2 = delete_sessions w1 /\
  sent w2 = sent w1 ++ [ (InvalidNumber, true) ].
Proof.
  cbv zeta.
  eapply (listed_numbers_rejected_after_page_one unicode_excerpt {[ 1 ]} library
            (text_update 1 (lit "/list 3")) (lit "3") 3 (text_update 1 (lit "21")) _ _ 21).
  - by apply elem_of_singleton.
  - left. eexists. reflexivity.
  - vm_compute. reflexivity.
  - lia.
  - reflexivity.
  - reflexivity.
  - reflexivity.
  - reflexivity.
  - reflexivity.
  - vm_compute. reflexivity.
  - vm_compute. reflexivity.
  - vm_compute. discriminate.
Defined.

Lemma page_button_lists_page_witness :
  py_int unicode_excerpt (py_str 2) = Some 2 /\
  callback_router unicode_excerpt {[ 1 ]} read_oid (press 1 (page_data 2)) (at_desk library)
  = (answer ;; lift (list_movies unicode_excerpt {[ 1 ]} (press 1 (page_data 2)) [ py_str 2 ]))
      (at_desk library).
Proof.
  apply (page_button_lists_page unicode_excerpt {[ 1 ]} read_oid). reflexivity.
Defined.

Lemma confirm_button_deletes_witness :
  let update := press 7 (confirm_data oid_text (sample_movie 21) 3) in
  let d' := desk_after (callback_router unicode_excerpt {[ 1 ]} read_oid update) (at_desk library) in
  collection (world d') = remove_first 21 twenty_five_movies /\
  replies d' = [ (DeletedNotice, true) ].
Proof.
  cbv zeta.
  destruct (confirm_button_deletes unicode_excerpt {[ 1 ]} oid_text read_oid
              (press 7 (confirm_data oid_text (sample_movie 21) 3)) (at_desk library)
              (sample_movie 21) 3)
    as (Hc & _ & _ & Hr & _).
  - reflexivity.
  - vm_compute. reflexivity.
  - apply (bool_decide_unpack _). vm_compute. exact I.
  - reflexivity.
  - reflexivity.
  - split; [exact Hc | exact Hr].
Defined.

Lemma confirm_button_relists_for_admin_witness :
  let update := press 1 (confirm_data oid_text (sample_movie 21) 3) in
  let d' := desk_after (callback_router unicode_excerpt {[ 1 ]} read_oid update) (at_desk library) in
  delete_sessions (world d') !! 1
  = Some {| page := 3;
            movies := take 10 (drop 20 (sort_by_name (remove_first 21 twenty_five_movies)));
            selected := None |}.
Proof.
  cbv zeta.
  destruct (confirm_button_relists_for_admin unicode_excerpt {[ 1 ]} oid_text read_oid
              (press 1 (confirm_data oid_text (sample_movie 21) 3)) (at_desk library)
              (sample_movie 21) 3)
    as (Hs & _).
  - reflexivity.
  - vm_compute. reflexivity.
  - apply (bool_decide_unpack _). vm_compute. exact I.
  - by apply elem_of_singleton.
  - lia.
  - reflexivity.
  - reflexivity.
  - exact Hs.
Defined.

Lemma announced_range_is_accepted_witness :
  let session := {| page := 3;
                    movies := take 10 (drop 20 (sort_by_name twenty_five_movies));
                    selected := None |} in
  length (movies session) = 5%nat /\
  replies (desk_after (callback_router unicode_excerpt {[ 1 ]} read_oid (press 1 (lit "ask_delete")))
             (at_desk library_page_3))
  = replies (at_desk library_page_3) ++ [ (SendNumber (length (movies session)), true) ].
Proof.
  cbv zeta. split; [vm_compute; reflexivity|].
  destruct (announced_range_is_accepted unicode_excerpt {[ 1 ]} read_oid
              (press 1 (lit "ask_delete")) (at_desk library_page_3)
              {| page := 3;
                 movies := take 10 (drop 20 (sort_by_name twenty_five_movies));
                 selected := None |}
              (text_update 1 (lit "2"))
              {| document := None; photo := []; text := Some (lit "2") |} (lit "2") 2)
    as (H & _).
  - reflexivity.
  - vm_compute. reflexivity.
  - reflexivity.
  - reflexivity.
  - by apply elem_of_singleton.
  - reflexivity.
  - reflexivity.
  - vm_compute. reflexivity.
  - vm_compute. reflexivity.
  - exact H.
Defined.

Lemma plain_text_routing_witness :
  dispatch 100 1 (plain (text_update 7 (lit "Movie"))) = Some DeleteByNumber.
Proof.
  eapply (plain_text_routing 100 1 (plain (text_update 7 (lit "Movie")))).
  - reflexivity.
  - reflexivity.
  - reflexivity.
  - vm_compute. discriminate.
  - reflexivity.
  - reflexivity.
  - reflexivity.
Defined.

Lemma session_operations_routed_witness :
  dispatch 100 200 (plain (update_of 100 (SubmitNameText 7 (lit "New Name")))) = Some TextHandler.
Proof.
  apply (session_operations_routed 100 200 (SubmitNameText 7 (lit "New Name"))).
  intros u t H. injection H as _ <-. vm_compute. discriminate.
Defined.

Lemma list_buttons_routed_witness :
  dispatch 100 200 (plain (press 1 (page_data 2))) = Some CallbackRouter.
Proof.
  apply (list_buttons_routed 100 200 (plain (press 1 (page_data 2))) (page_data 2)
           oid_text (sample_movie 0) 2).
  - reflexivity.
  - reflexivity.
  - left. reflexivity.
Defined.

Lemma clean_filename_drops_bracketed_groups_witness :
  has_bracket_pair (clean_filename unicode_excerpt (lit "[CK] Movie [1080p] 2021.mkv")) = false.
Proof.
  apply (clean_filename_drops_bracketed_groups unicode_excerpt).
  apply (bool_decide_unpack _). vm_compute. exact I.
Defined.

Lemma clean_filename_of_marks_is_empty_witness :
  clean_filename unicode_excerpt (lit "@__ --..") = [].
Proof.
  apply (clean_filename_of_marks_is_empty unicode_excerpt).
  vm_compute. repeat constructor.
Defined.

Lemma clean_filename_with_year_only_witness :
  clean_filename unicode_excerpt (lit "Movie 2021.mkv") = lit "Movie (2021)".
Proof.
  destruct (clean_filename_with_year_only unicode_excerpt (lit "Movie 2021.mkv")
              (lit "Movie") (lit "2021"))
    as (H & _).
  - vm_compute. reflexivity.
  - exact H.
Defined.

Lemma deep_link_delivers_witness :
  collection one_movie = [ the_movie ] /\
  delivery the_movie
  = [ (Poster (lit "poster") (lit "Movie (2021)"), true); (FileSent (lit "file-1"), true) ] /\
  replies (desk_after (start example_uuid (text_update 7 (lit "/start 0")) [ lit "0" ])
             (at_desk one_movie))
  = replies (at_desk one_movie) ++ delivery the_movie.
Proof.
  split; [vm_compute; reflexivity|]. split; [vm_compute; reflexivity|].
  destruct (deep_link_delivers example_uuid (text_update 7 (lit "/start 0")) (lit "0") []
              (at_desk one_movie) the_movie)
    as (H & _).
  - vm_compute. reflexivity.
  - eexists. reflexivity.
  - eexists. reflexivity.
  - reflexivity.
  - reflexivity.
  - exact H.
Defined.

Lemma stored_movie_is_delivered_witness :
  let w1 := exec (check_and_save_movie 200 1 (text_update 1 (lit "ok"))) poster_then_file in
  exists r poster,
    collection w1 = collection poster_then_file ++ [r] /\
    movie_id r = fresh poster_then_file /\
    image poster_then_file_session = Some poster /\
    replies (desk_after (start example_uuid (text_update 7 (lit "/start"))
                           [ example_uuid (fresh poster_then_file) ])
               (at_desk w1))
    = [] ++
      match image_file_id poster with
      | [] => []
      | photo => [ (Poster photo (name r), true) ]
      end ++ ((fun doc => (FileSent (file_id doc), true)) <$> files poster_then_file_session).
Proof.
  apply (stored_movie_is_delivered example_uuid 200 1 (text_update 1 (lit "ok"))
           poster_then_file poster_then_file_session (text_update 7 (lit "/start")) []).
  - vm_compute. reflexivity.
  - vm_compute. reflexivity.
  - reflexivity.
  - reflexivity.
  - eexists. reflexivity.
  - eexists. reflexivity.
  - vm_compute. constructor.
Defined.

Lemma deep_link_stops_at_first_failure_witness :
  let d := at_desk (set_tx_faults (fun _ => [ true; false ]) one_movie) in
  let run := start example_uuid (text_update 7 (lit "/start 0")) [ lit "0" ] in
  desk_outcome run d = Failed (Py NetworkError) /\
  replies (desk_after run d)
  = replies d ++ take 1 (delivery the_movie) ++
    match delivery the_movie !! 1%nat with Some (r, _) => [ (r, false) ] | None => [] end.
Proof.
  cbv zeta.
  apply (deep_link_stops_at_first_failure example_uuid (text_update 7 (lit "/start 0"))
           (lit "0") [] (at_desk (set_tx_faults (fun _ => [ true; false ]) one_movie))
           the_movie 1 []).
  - vm_compute. reflexivity.
  - eexists. reflexivity.
  - eexists. reflexivity.
  - reflexivity.
  - reflexivity.
  - vm_compute. lia.
Defined.
